(** * Warehouse assistant: reconciliation workflow

    A shallow embedding of [app.py] (the FastAPI backend of the warehouse
    assistant) and machine-checked statements about its workflow steps.

    Conventions of the embedding.
    - Python [str] values are [string]s holding the UTF-8 encoding of the
      text; case folding covers the ASCII and the basic Cyrillic letters,
      digits and white space are the ASCII ones.
    - Python [float] values are exact rationals ([Q]); binary rounding error
      and overflow to infinity are outside the model. [round] is the
      round-half-to-even of the exact value.
    - A Python [dict] whose keys are fixed is a record; a key that may be
      missing is an [option] field; a [dict] used as a counter is an
      association list in insertion order.
    - An exception is a value of [exn]; code that may raise returns [res]. *)


From Stdlib Require Import ZArith QArith Qabs List String Ascii Bool Lia.
From Stdlib Require Import Numbers.DecimalString.
Import ListNotations.

Open Scope string_scope.
Open Scope Z_scope.

(** ** Exceptions *)

Inductive exn : Type :=
| JSONDecodeError
| KeyError (key : string)
| ZeroDivisionError
| ValueError (msg : string)
| TypeError (msg : string)
| HTTPException (status_code : Z) (detail : string)
| Exception (msg : string).

Inductive res (A : Type) : Type :=
| Ok (a : A)
| Raise (e : exn).

Arguments Ok {A} a.
Arguments Raise {A} e.

Definition bind {A B : Type} (m : res A) (k : A -> res B) : res B :=
  match m with
  | Ok a => k a
  | Raise e => Raise e
  end.

Notation "x <- m ;; k" := (bind m (fun x => k))
  (at level 61, m at next level, right associativity).

(** [try: m except Exception as e: h e] *)
Definition try_except {A : Type} (m : res A) (h : exn -> res A) : res A :=
  match m with
  | Ok a => Ok a
  | Raise e => h e
  end.


(** ** Strings and numbers as Python prints them *)

Definition str_of_Z (z : Z) : string := NilZero.string_of_int (Z.to_int z).

(** [str(e)]; for an [HTTPException] the text Starlette gives it, the
    status code and the detail. *)
Definition exn_str (e : exn) : string :=
  match e with
  | JSONDecodeError => "Expecting value: line 1 column 1 (char 0)"
  | KeyError k => "'" ++ k ++ "'"
  | ZeroDivisionError => "division by zero"
  | ValueError m => m
  | TypeError m => m
  | HTTPException c d => str_of_Z c ++ ": " ++ d
  | Exception m => m
  end.

(** Truth value of an optional string: [None] and [""] are false. *)
Definition truthy (o : option string) : bool :=
  match o with
  | None => false
  | Some s => negb (String.eqb s "")
  end.

Definition is_not_None {A : Type} (o : option A) : bool :=
  match o with Some _ => true | None => false end.

Definition byte_of (c : ascii) : Z := Z.of_nat (nat_of_ascii c).

(** [str.isspace] on one character (ASCII white space). *)
Definition py_isspace (c : ascii) : bool :=
  let n := byte_of c in
  ((9 <=? n) && (n <=? 13)) || ((28 <=? n) && (n <=? 32)).

Fixpoint lstrip (s : string) : string :=
  match s with
  | String c s' => if py_isspace c then lstrip s' else s
  | EmptyString => EmptyString
  end.

Fixpoint rstrip (s : string) : string :=
  match s with
  | EmptyString => EmptyString
  | String c s' =>
      match rstrip s' with
      | EmptyString => if py_isspace c then EmptyString else String c EmptyString
      | r => String c r
      end
  end.

(** [s.strip()] *)
Definition strip (s : string) : string := rstrip (lstrip s).

Definition chr (n : Z) : ascii := ascii_of_nat (Z.to_nat n).

(** [s.lower()] on UTF-8 text: ASCII [A-Z], and the Cyrillic capitals
    U+0400..U+042F, whose lower-case forms are U+0450..U+045F and
    U+0430..U+044F. *)
Fixpoint lower (s : string) : string :=
  match s with
  | EmptyString => EmptyString
  | String c s' =>
      let n := byte_of c in
      if (65 <=? n) && (n <=? 90) then String (chr (n + 32)) (lower s')
      else if n =? 208 then
        match s' with
        | String d s'' =>
            let m := byte_of d in
            if (128 <=? m) && (m <=? 143) then
              String (chr 209) (String (chr (m + 16)) (lower s''))
            else if (144 <=? m) && (m <=? 159) then
              String (chr 208) (String (chr (m + 32)) (lower s''))
            else if (160 <=? m) && (m <=? 175) then
              String (chr 209) (String (chr (m - 32)) (lower s''))
            else String c (String d (lower s''))
        | EmptyString => String c EmptyString
        end
      else String c (lower s')
  end.

(** [sub in s] *)
Fixpoint contains (sub s : string) : bool :=
  prefix sub s ||
  match s with
  | EmptyString => false
  | String _ s' => contains sub s'
  end.

(** [any(word in s for word in words)] *)
Definition any_in (words : list string) (s : string) : bool :=
  existsb (fun w => contains w s) words.

(** ** Floats as exact rationals *)

Definition Qltb (a b : Q) : bool := negb (Qle_bool b a).

(** Nearest integer to [n / d] for [d > 0], ties to the even neighbour. *)
Definition round_half_even (n d : Z) : Z :=
  let f := n / d in
  let r := n mod d in
  match (2 * r ?= d) with
  | Lt => f
  | Gt => f + 1
  | Eq => if Z.even f then f else f + 1
  end.

(** [round(x, ndigits)] *)
Definition py_round (x : Q) (ndigits : nat) : Q :=
  let p := 10 ^ Z.of_nat ndigits in
  Qred (round_half_even (Qnum x * p) (Z.pos (Qden x)) # Z.to_pos p).

(** [a / b] on numbers: raises [ZeroDivisionError] when [b] is zero. *)
Definition py_div (a b : Q) : res Q :=
  if Qeq_bool b 0 then Raise ZeroDivisionError else Ok (a / b)%Q.

Definition sum_Z (l : list Z) : Z := fold_left Z.add l 0.
Definition sum_Q (l : list Q) : Q := fold_left Qplus l 0%Q.

(** ** Image quality (WarehouseAssistant.check_image_quality) *)

(** What [Image.open], [thumbnail((200, 200))], [convert('L')] and
    [getdata()] deliver for a path: the size of the original image and the
    grey levels of its thumbnail, or the exception one of these calls
    raised. *)
Inductive decoded : Type :=
| DecodeError (e : exn)
| Decoded (width height : Z) (pixels : list Z).

Record quality_info : Type := mk_quality_info {
  q_status : string;
  q_readable : bool;
  q_issues : list string;
  q_resolution : string;
  q_brightness : Q;
  q_filename : option string;
  q_index : option Z
}.



Definition append_if (b : bool) (l : list string) (x : string) : list string :=
  if b then (l ++ [x])%list else l.

Definition check_image_quality_try (img : decoded) : res quality_info :=
  match img with
  | DecodeError e => Raise e
  | Decoded width height pixels =>
      let quality_issues :=
        append_if ((width <? 300) || (height <? 300)) [] "Низкое разрешение" in
      let n := inject_Z (Z.of_nat (List.length pixels)) in
      avg_brightness <- py_div (inject_Z (sum_Z pixels)) n ;;
      variance <-
        py_div (sum_Q (map (fun x => (inject_Z x - avg_brightness) ^ 2)%Q pixels)) n ;;
      let quality_issues :=
        append_if (Qltb variance 500) quality_issues "Изображение размыто" in
      let quality_issues :=
        if Qltb 240 avg_brightness then (quality_issues ++ ["Пересвет"])%list
        else if Qltb avg_brightness 15 then (quality_issues ++ ["Недосвет"])%list
        else quality_issues in
      let status := match quality_issues with [] => "✅" | _ => "❌" end in
      let status :=
        if (List.length quality_issues =? 1)%nat then "⚠️" else status in
      Ok {| q_status := status;
            q_readable := (List.length quality_issues =? 0)%nat;
            q_issues := quality_issues;
            q_resolution := str_of_Z width ++ "x" ++ str_of_Z height;
            q_brightness := py_round avg_brightness 1;
            q_filename := None;
            q_index := None |}
  end.

Definition check_image_quality (img : decoded) : quality_info :=
  match check_image_quality_try img with
  | Ok q => q
  | Raise e =>
      {| q_status := "❌";
         q_readable := false;
         q_issues := ["Ошибка обработки: " ++ exn_str e];
         q_resolution := "неизвестно";
         q_brightness := 0;
         q_filename := None;
         q_index := None |}
  end.

(** ** Marking extraction (WarehouseAssistant.extract_marking_from_photo) *)

(** [json.loads(response.text.strip())]: the text is not JSON, is JSON but
    not an object (so [.get] raises), or is an object whose relevant keys
    hold a string or are null/missing. *)
Inductive json_response : Type :=
| NotJson
| JsonNotObject
| JsonObject (name article dimensions error : option string).

(** The recognition service as seen by the adapter: one of the calls made
    before the answer is parsed ([Image.open], [save], [upload_file],
    [generate_content], [response.text]) raised, or a text came back. *)
Inductive recognition : Type :=
| CallRaised (e : exn)
| Response (r : json_response).

Record marking : Type := mk_marking {
  m_status : string;
  m_name : option string;
  m_article : option string;
  m_dimensions : option string;
  m_readable : option bool;
  m_comment : option string;
  m_confidence : option string;
  m_demo_mode : option bool;
  m_filename : option string;
  m_index : option Z
}.

Definition is_continuation (c : ascii) : bool :=
  let n := byte_of c in (128 <=? n) && (n <=? 191).

(** [s[:n]], counting characters of the UTF-8 text. *)
Fixpoint take_chars (n : nat) (s : string) : string :=
  match s with
  | EmptyString => EmptyString
  | String c s' =>
      if is_continuation c then String c (take_chars n s')
      else match n with
           | O => EmptyString
           | S n' => String c (take_chars n' s')
           end
  end.

(** The dictionary returned on the three failure paths. *)
Definition failed_marking (comment : string) : marking :=
  {| m_status := "❌";
     m_name := None;
     m_article := None;
     m_dimensions := None;
     m_readable := Some false;
     m_comment := Some comment;
     m_confidence := None;
     m_demo_mode := Some false;
     m_filename := None;
     m_index := None |}.

(** The dictionary returned when the answer carries no error. *)
Definition read_marking (name article dimensions : option string) : marking :=
  let has_name := is_not_None name in
  let has_article := is_not_None article in
  let '(status, readable) :=
    if has_name && has_article then ("✅", true)
    else if has_article then ("⚠️", true)
    else ("❌", false) in
  {| m_status := status;
     m_name := name;
     m_article := article;
     m_dimensions := dimensions;
     m_readable := Some readable;
     m_comment := None;
     m_confidence := Some "gemini-vision";
     m_demo_mode := Some false;
     m_filename := None;
     m_index := None |}.

(** The body of the inner [try]. *)
Definition parse_marking (r : json_response) : res marking :=
  match r with
  | NotJson => Raise JSONDecodeError
  | JsonNotObject => Raise (Exception "object has no attribute 'get'")
  | JsonObject name article dimensions error =>
      match error with
      | Some msg =>
          if truthy error then Ok (failed_marking msg)
          else Ok (read_marking name article dimensions)
      | None => Ok (read_marking name article dimensions)
      end
  end.

(** The body of the outer [try]. *)
Definition extract_marking_try (rc : recognition) : res marking :=
  match rc with
  | CallRaised e => Raise e
  | Response r =>
      match parse_marking r with
      | Raise JSONDecodeError =>
          Ok (failed_marking "Ошибка парсинга ответа Gemini")
      | other => other
      end
  end.

Definition extract_marking_from_photo (rc : recognition) : res marking :=
  try_except (extract_marking_try rc)
    (fun e => Ok (failed_marking ("Ошибка API: " ++ take_chars 100 (exn_str e)))).

(** ** Specification sheet (WarehouseAssistant.parse_excel_specification) *)

Inductive cell : Type :=
| NaN
| CStr (s : string)
| CInt (z : Z).

(** [pd.read_excel]: the column labels and the rows under them. *)
Record dataframe : Type := mk_dataframe {
  df_columns : list string;
  df_rows : list (list cell)
}.

Record spec_item : Type := mk_spec_item {
  si_article : string;
  si_quantity : Z;
  si_name : string
}.

Definition notna (c : cell) : bool :=
  match c with NaN => false | _ => true end.

(** [str(c)] *)
Definition cell_str (c : cell) : string :=
  match c with
  | NaN => "nan"
  | CStr s => s
  | CInt z => str_of_Z z
  end.

Definition is_digit (c : ascii) : bool :=
  let n := byte_of c in (48 <=? n) && (n <=? 57).

Definition digit_val (c : ascii) : Z := byte_of c - 48.

(** Value of a run of decimal digits, [None] when another character occurs
    or the run is empty. *)
Fixpoint digits_val (acc : Z) (seen : bool) (s : string) : option Z :=
  match s with
  | EmptyString => if seen then Some acc else None
  | String c s' =>
      if is_digit c then digits_val (10 * acc + digit_val c) true s' else None
  end.

(** Value of the digits of an integer literal: decimal digits, with single
    underscores allowed between two digits. *)
Fixpoint literal_val (acc : Z) (after_digit : bool) (s : string) : option Z :=
  match s with
  | EmptyString => if after_digit then Some acc else None
  | String c s' =>
      if is_digit c then literal_val (10 * acc + digit_val c) true s'
      else if Ascii.eqb c "_" && after_digit then literal_val acc false s'
      else None
  end.

(** [int(c)]: numbers as they are, text when it is an optionally signed
    integer literal surrounded by white space. *)
Definition cell_int (c : cell) : res Z :=
  match c with
  | NaN => Raise (ValueError "cannot convert float NaN to integer")
  | CInt z => Ok z
  | CStr s =>
      let bad := Raise (ValueError ("invalid literal for int() with base 10: '" ++ s ++ "'")) in
      match strip s with
      | String "-" t =>
          match literal_val 0 false t with Some v => Ok (- v) | None => bad end
      | String "+" t =>
          match literal_val 0 false t with Some v => Ok v | None => bad end
      | t => match literal_val 0 false t with Some v => Ok v | None => bad end
      end
  end.

(** The column scan: every label is tested in turn and a later match
    replaces an earlier one. Columns are named by their position. *)
Fixpoint find_spec_columns (cols : list string) (i : nat)
    (acc : option nat * option nat * option nat)
  : option nat * option nat * option nat :=
  match cols with
  | [] => acc
  | col :: rest =>
      let '(articles_col, quantity_col, name_col) := acc in
      let col_lower := lower col in
      let acc' :=
        if any_in ["артикул"; "код"; "article"] col_lower then
          (Some i, quantity_col, name_col)
        else if any_in ["количество"; "кол-во"; "qty"; "quantity"] col_lower then
          (articles_col, Some i, name_col)
        else if any_in ["наименование"; "название"; "name"] col_lower then
          (articles_col, quantity_col, Some i)
        else acc in
      find_spec_columns rest (S i) acc'
  end.

Definition row_at (row : list cell) (i : nat) : cell := nth i row NaN.

Fixpoint parse_rows (articles_col quantity_col : nat) (name_col : option nat)
    (rows : list (list cell)) : res (list spec_item) :=
  match rows with
  | [] => Ok []
  | row :: rest =>
      if notna (row_at row articles_col) && notna (row_at row quantity_col) then
        q <- cell_int (row_at row quantity_col) ;;
        let item :=
          {| si_article := strip (cell_str (row_at row articles_col));
             si_quantity := q;
             si_name := match name_col with
                        | Some c => strip (cell_str (row_at row c))
                        | None => ""
                        end |} in
        items <- parse_rows articles_col quantity_col name_col rest ;;
        Ok (item :: items)
      else parse_rows articles_col quantity_col name_col rest
  end.

Definition parse_excel_specification_try (file : res dataframe)
  : res (list spec_item) :=
  df <- file ;;
  match find_spec_columns (df_columns df) 0 (None, None, None) with
  | (Some articles_col, Some quantity_col, name_col) =>
      parse_rows articles_col quantity_col name_col (df_rows df)
  | _ => Raise (ValueError "Не найдены колонки с артикулами или количеством")
  end.

Definition parse_excel_specification (file : res dataframe)
  : res (list spec_item) :=
  try_except (parse_excel_specification_try file)
    (fun e => Raise (ValueError ("Ошибка парсинга спецификации: " ++ exn_str e))).

(** ** Session state *)

Record photo : Type := mk_photo {
  p_path : string;
  p_filename : string
}.

Record photo_quality_result : Type := mk_photo_quality_result {
  pq_success : bool;
  pq_photos : list quality_info;
  pq_total : Z;
  pq_readable : Z;
  pq_unreadable : Z
}.

Record markings_result : Type := mk_markings_result {
  mr_success : bool;
  mr_markings : list marking;
  mr_total : Z;
  mr_extracted : Z;
  mr_partial : Z;
  mr_failed : Z
}.

(** A [dict] from strings to counters, in insertion order. *)
Definition counter : Type := list (string * Z).

Record count_result : Type := mk_count_result {
  cr_success : bool;
  cr_total_photos : Z;
  cr_by_status : counter;
  cr_readable_markings : Z;
  cr_unique_articles : Z;
  cr_by_article : counter;
  cr_photos_match : bool;
  cr_readable_count_match : bool
}.

Record comparison_item : Type := mk_comparison_item {
  c_article : string;
  c_name : string;
  c_planned : Z;
  c_actual : Z;
  c_difference : Z;
  c_status : string
}.

Record comparison_result : Type := mk_comparison_result {
  cmp_success : bool;
  cmp_comparison : list comparison_item;
  cmp_total_positions : Z;
  cmp_exact_match : Z;
  cmp_shortage : Z;
  cmp_excess : Z;
  cmp_extra_articles : Z
}.

Record final_params : Type := mk_final_params {
  fp_shipment_type : string;
  fp_shipment_date : string;
  fp_shipment_type_ru : string
}.

Record generated_file : Type := mk_generated_file {
  gf_name : string;
  gf_path : string;
  gf_type : string
}.

Record generated_result : Type := mk_generated_result {
  gr_success : bool;
  gr_files : list generated_file;
  gr_shipment_type : string;
  gr_shipment_date : string
}.

(** [session_data["results"]]: a key is present once its step has stored
    its result. *)
Record results : Type := mk_results {
  r_photo_quality : option photo_quality_result;
  r_markings : option markings_result;
  r_count_verification : option count_result;
  r_comparison : option comparison_result;
  r_final_params : option final_params;
  r_generated_files : option generated_result
}.

(** [session_data] *)
Record session : Type := mk_session {
  specification : option string;
  template : option string;
  photos : list photo;
  step : Z;
  session_results : results
}.

Definition empty_results : results :=
  mk_results None None None None None None.

(** The value [session_data] is bound to at start-up and by [/reset]. *)
Definition initial_session : session :=
  mk_session None None [] 1 empty_results.

Definition set_step (n : Z) (s : session) : session :=
  mk_session (specification s) (template s) (photos s) n (session_results s).

Definition set_results (r : results) (s : session) : session :=
  mk_session (specification s) (template s) (photos s) (step s) r.

Definition set_photo_quality (v : photo_quality_result) (r : results) : results :=
  mk_results (Some v) (r_markings r) (r_count_verification r)
    (r_comparison r) (r_final_params r) (r_generated_files r).

Definition set_markings (v : markings_result) (r : results) : results :=
  mk_results (r_photo_quality r) (Some v) (r_count_verification r)
    (r_comparison r) (r_final_params r) (r_generated_files r).

Definition set_count_verification (v : count_result) (r : results) : results :=
  mk_results (r_photo_quality r) (r_markings r) (Some v)
    (r_comparison r) (r_final_params r) (r_generated_files r).

Definition set_comparison (v : comparison_result) (r : results) : results :=
  mk_results (r_photo_quality r) (r_markings r) (r_count_verification r)
    (Some v) (r_final_params r) (r_generated_files r).

Definition set_final_params (v : final_params) (r : results) : results :=
  mk_results (r_photo_quality r) (r_markings r) (r_count_verification r)
    (r_comparison r) (Some v) (r_generated_files r).

Definition set_generated_files (v : generated_result) (r : results) : results :=
  mk_results (r_photo_quality r) (r_markings r) (r_count_verification r)
    (r_comparison r) (r_final_params r) (Some v).

(** [sum(1 for x in l if p(x))] *)
Definition count_if {A : Type} (p : A -> bool) (l : list A) : Z :=
  Z.of_nat (List.length (filter p l)).

Definition len {A : Type} (l : list A) : Z := Z.of_nat (List.length l).

(** [d.get(k, 0)] *)
Fixpoint counter_get (d : counter) (k : string) : Z :=
  match d with
  | [] => 0
  | (k', v) :: d' => if String.eqb k' k then v else counter_get d' k
  end.

(** [k in d] *)
Fixpoint counter_mem (d : counter) (k : string) : bool :=
  match d with
  | [] => false
  | (k', _) :: d' => String.eqb k' k || counter_mem d' k
  end.

(** [d[k] = v]: an existing key keeps its place, a new one goes last. *)
Fixpoint counter_set (d : counter) (k : string) (v : Z) : counter :=
  match d with
  | [] => [(k, v)]
  | (k', v') :: d' =>
      if String.eqb k' k then (k', v) :: d' else (k', v') :: counter_set d' k v
  end.

(** [d[k] = d.get(k, 0) + 1] *)
Definition counter_incr (d : counter) (k : string) : counter :=
  counter_set d k (counter_get d k + 1).

Definition mem_string (x : string) (l : list string) : bool :=
  existsb (String.eqb x) l.

(** [len(set(l))] is the length of this list. *)
Fixpoint distinct (l : list string) : list string :=
  match l with
  | [] => []
  | x :: l' => if mem_string x l' then distinct l' else x :: distinct l'
  end.

(** ** Worksheets (the part of openpyxl the generators use) *)

Inductive value : Type :=
| VNone
| VStr (s : string)
| VInt (z : Z)
| VNum (q : Q).

Record xcell : Type := mk_xcell {
  x_value : value;
  x_fill : option string
}.

(** The cells that exist, keyed by (row, column). *)
Definition worksheet : Type := list ((Z * Z) * xcell).

(** ** The world outside the process *)

Record world : Type := mk_world {
  image_at : string -> decoded;
  recognition_at : string -> recognition;
  excel_at : string -> res dataframe;
  workbook_at : string -> res worksheet;
  exists_at : string -> bool;
  now : string
}.

(** ** Workflow steps *)

Definition http400 {A : Type} (prefix : string) (e : exn) : res A :=
  Raise (HTTPException 400 (prefix ++ exn_str e)).

(** *** Step 1 *)

Record files_report : Type := mk_files_report {
  fr_success : bool;
  fr_specification : Z;
  fr_template : Z;
  fr_photos : Z;
  fr_missing : list string
}.

Definition step1_check_files (s : session) : res files_report * session :=
  let missing := [] in
  let missing :=
    append_if (negb (truthy (specification s))) missing "Спецификация (Excel)" in
  let missing :=
    append_if (negb (truthy (template s))) missing "Шаблон накладной (Excel)" in
  let missing :=
    append_if (match photos s with [] => true | _ => false end) missing
      "Фотографии маркировок" in
  let result :=
    {| fr_success := (List.length missing =? 0)%nat;
       fr_specification := if truthy (specification s) then 1 else 0;
       fr_template := if truthy (template s) then 1 else 0;
       fr_photos := len (photos s);
       fr_missing := missing |} in
  (Ok result, if fr_success result then set_step 2 s else s).

(** *** Step 2 *)

Section Steps.

Variable w : world.

Fixpoint step2_loop (i : Z) (ps : list photo) : list quality_info :=
  match ps with
  | [] => []
  | photo_data :: rest =>
      let quality_info := check_image_quality (image_at w (p_path photo_data)) in
      {| q_status := q_status quality_info;
         q_readable := q_readable quality_info;
         q_issues := q_issues quality_info;
         q_resolution := q_resolution quality_info;
         q_brightness := q_brightness quality_info;
         q_filename := Some (p_filename photo_data);
         q_index := Some i |} :: step2_loop (i + 1) rest
  end.

Definition step2_check_photo_quality (s : session)
  : res photo_quality_result * session :=
  let photo_quality := step2_loop 0 (photos s) in
  let unreadable_count := count_if (fun q => negb (q_readable q)) photo_quality in
  let result :=
    {| pq_success := true;
       pq_photos := photo_quality;
       pq_total := len photo_quality;
       pq_readable := len photo_quality - unreadable_count;
       pq_unreadable := unreadable_count |} in
  (Ok result,
   set_step 3 (set_results (set_photo_quality result (session_results s)) s)).

(** *** Step 3 *)

(** The dictionary built for a photo the quality check found unreadable. *)
Definition unreadable_marking (filename : string) (i : Z) : marking :=
  {| m_status := "❌";
     m_name := None;
     m_article := None;
     m_dimensions := None;
     m_readable := None;
     m_comment := Some "Фото нечитаемо";
     m_confidence := None;
     m_demo_mode := None;
     m_filename := Some filename;
     m_index := Some i |}.

Definition set_marking_meta (filename : string) (i : Z) (comment : string)
    (m : marking) : marking :=
  {| m_status := m_status m;
     m_name := m_name m;
     m_article := m_article m;
     m_dimensions := m_dimensions m;
     m_readable := m_readable m;
     m_comment := Some comment;
     m_confidence := m_confidence m;
     m_demo_mode := m_demo_mode m;
     m_filename := Some filename;
     m_index := Some i |}.

(** One round of the loop for a readable photo: the adapter is called with
    the photo's path and its answer is completed. *)
Definition extract_for (photo_data : photo) (i : Z) : res marking :=
  marking_info <- extract_marking_from_photo (recognition_at w (p_path photo_data)) ;;
  match m_readable marking_info with
  | None => Raise (KeyError "readable")
  | Some readable =>
      Ok (set_marking_meta (p_filename photo_data) i
            (if negb readable then "Маркировка не читается" else "")
            marking_info)
  end.

(** The loop over the photos. The first component lists the photos, by
    index, the adapter was called for, in call order. *)
Fixpoint step3_loop (quality : option photo_quality_result) (i : nat)
    (ps : list photo) : list nat * res (list marking) :=
  match ps with
  | [] => ([], Ok [])
  | photo_data :: rest =>
      match quality with
      | None => ([], Raise (KeyError "photo_quality"))
      | Some pq =>
          match nth_error (pq_photos pq) i with
          | None => ([], Raise (Exception "list index out of range"))
          | Some quality_info =>
              if negb (q_readable quality_info) then
                let marking_info :=
                  unreadable_marking (p_filename photo_data) (Z.of_nat i) in
                let '(calls, r) := step3_loop quality (S i) rest in
                (calls, bind r (fun ms => Ok (marking_info :: ms)))
              else
                match extract_for photo_data (Z.of_nat i) with
                | Raise e => ([i], Raise e)
                | Ok marking_info =>
                    let '(calls, r) := step3_loop quality (S i) rest in
                    (i :: calls,
                     bind r (fun ms => Ok (marking_info :: ms)))
                end
          end
      end
  end.

Definition step3_try (s : session) : res markings_result :=
  marking_results <-
    snd (step3_loop (r_photo_quality (session_results s)) 0 (photos s)) ;;
  Ok {| mr_success := true;
        mr_markings := marking_results;
        mr_total := len marking_results;
        mr_extracted := count_if (fun m => String.eqb (m_status m) "✅") marking_results;
        mr_partial := count_if (fun m => String.eqb (m_status m) "⚠️") marking_results;
        mr_failed := count_if (fun m => String.eqb (m_status m) "❌") marking_results |}.

Definition step3_extract_markings (s : session) : res markings_result * session :=
  match step3_try s with
  | Ok result =>
      (Ok result,
       set_step 4 (set_results (set_markings result (session_results s)) s))
  | Raise e => (http400 "Ошибка извлечения маркировок: " e, s)
  end.

(** The photos the adapter is called for while step 3 runs. *)
Definition step3_adapter_calls (s : session) : list nat :=
  fst (step3_loop (r_photo_quality (session_results s)) 0 (photos s)).

End Steps.

(** *** Step 4 *)

(** [str(marking["article"]).strip()] for the markings whose article is
    true as a condition. *)
Definition article_key (m : marking) : option string :=
  match m_article m with
  | Some a => if truthy (Some a) then Some (strip a) else None
  | None => None
  end.

Definition missing_markings : exn :=
  HTTPException 400 "Отсутствуют данные маркировок. Выполните шаг 3.".

(** [sum(1 for m in markings if m["readable"])] *)
Fixpoint count_readable (ms : list marking) : res Z :=
  match ms with
  | [] => Ok 0
  | m :: rest =>
      match m_readable m with
      | None => Raise (KeyError "readable")
      | Some b => n <- count_readable rest ;; Ok (if b then 1 + n else n)
      end
  end.

Definition step4_try (s : session) : res count_result :=
  match r_markings (session_results s) with
  | None => Raise missing_markings
  | Some mr =>
      let markings := mr_markings mr in
      let count_by_status :=
        fold_left (fun d m => counter_incr d (m_status m)) markings [] in
      let '(count_by_article, articles_found) :=
        fold_left
          (fun '(d, found) m =>
             match article_key m with
             | Some article => (counter_incr d article, (found ++ [article])%list)
             | None => (d, found)
             end)
          markings ([], []) in
      let total_photos := len markings in
      readable_markings <- count_readable markings ;;
      let unique_articles := len (distinct articles_found) in
      Ok {| cr_success := true;
            cr_total_photos := total_photos;
            cr_by_status := count_by_status;
            cr_readable_markings := readable_markings;
            cr_unique_articles := unique_articles;
            cr_by_article := count_by_article;
            cr_photos_match := total_photos =? len markings;
            cr_readable_count_match := true |}
  end.

Definition step4_count_verification (s : session) : res count_result * session :=
  match step4_try s with
  | Ok result =>
      (Ok result,
       set_step 5 (set_results (set_count_verification result (session_results s)) s))
  | Raise e => (http400 "Ошибка пересчета: " e, s)
  end.

(** *** Step 5 *)

(** The loop that fills [actual_count]. *)
Fixpoint count_actual (ms : list marking) (actual_count : counter) : res counter :=
  match ms with
  | [] => Ok actual_count
  | m :: rest =>
      match article_key m with
      | None => count_actual rest actual_count
      | Some article =>
          match m_readable m with
          | None => Raise (KeyError "readable")
          | Some true => count_actual rest (counter_incr actual_count article)
          | Some false => count_actual rest actual_count
          end
      end
  end.

(** One round of the loop over the specification. *)
Definition compare_item (actual_count : counter) (spec_item : spec_item)
  : comparison_item :=
  let article := si_article spec_item in
  let planned := si_quantity spec_item in
  let actual := counter_get actual_count article in
  let difference := actual - planned in
  let status :=
    if difference =? 0 then "✅"
    else if difference <? 0 then "⬇️"
    else "⬆️" in
  {| c_article := article;
     c_name := si_name spec_item;
     c_planned := planned;
     c_actual := actual;
     c_difference := difference;
     c_status := status |}.

(** The entry appended for a counted article the specification lacks. *)
Definition extra_item (actual_count : counter) (article : string) : comparison_item :=
  {| c_article := article;
     c_name := "Не в спецификации";
     c_planned := 0;
     c_actual := counter_get actual_count article;
     c_difference := counter_get actual_count article;
     c_status := "🔁" |}.

(** The loop over the keys of [actual_count]. *)
Definition extra_items (actual_count : counter) (spec_articles : list string)
  : list comparison_item :=
  map (extra_item actual_count)
    (filter (fun article => negb (mem_string article spec_articles))
       (map fst actual_count)).

(** The comparison list, from the parsed specification and the markings. *)
Definition compare (specification : list spec_item) (markings : list marking)
  : res (list comparison_item) :=
  actual_count <- count_actual markings [] ;;
  let spec_articles := map si_article specification in
  Ok (map (compare_item actual_count) specification
        ++ extra_items actual_count spec_articles)%list.

Definition summarize (comparison : list comparison_item) : comparison_result :=
  {| cmp_success := true;
     cmp_comparison := comparison;
     cmp_total_positions := len comparison;
     cmp_exact_match := count_if (fun c => String.eqb (c_status c) "✅") comparison;
     cmp_shortage := count_if (fun c => String.eqb (c_status c) "⬇️") comparison;
     cmp_excess := count_if (fun c => String.eqb (c_status c) "⬆️") comparison;
     cmp_extra_articles := count_if (fun c => String.eqb (c_status c) "🔁") comparison |}.

Definition step5_try (w : world) (s : session) : res comparison_result :=
  match specification s with
  | Some spec_path =>
      if truthy (Some spec_path) then
        match r_markings (session_results s) with
        | None => Raise missing_markings
        | Some mr =>
            specification <- parse_excel_specification (excel_at w spec_path) ;;
            comparison <- compare specification (mr_markings mr) ;;
            Ok (summarize comparison)
        end
      else Raise (HTTPException 400 "Отсутствует файл спецификации")
  | None => Raise (HTTPException 400 "Отсутствует файл спецификации")
  end.

Definition step5_compare_specification (w : world) (s : session)
  : res comparison_result * session :=
  match step5_try w s with
  | Ok result =>
      (Ok result,
       set_step 6 (set_results (set_comparison result (session_results s)) s))
  | Raise e => (http400 "Ошибка сопоставления: " e, s)
  end.

(** ** Regular expressions (the part of [re] the patterns use)

    A backtracking matcher: alternatives are tried left to right, [?] and
    [*] are greedy, and [re_search] returns the groups of the first match
    found scanning start positions from the left. *)

Inductive regex : Type :=
| Chr (p : ascii -> bool)
| Str (t : string)
| Alt (r1 r2 : regex)
| Cat (r1 r2 : regex)
| Opt (r : regex)
| Star (r : regex)
| Group (n : nat) (r : regex).

Definition Plus (r : regex) : regex := Cat r (Star r).

Definition groups : Type := list (nat * string).

Fixpoint drop_prefix (t s : string) : option string :=
  match t with
  | EmptyString => Some s
  | String a t' =>
      match s with
      | String b s' => if Ascii.eqb a b then drop_prefix t' s' else None
      | EmptyString => None
      end
  end.

(** The part of [s] in front of its suffix [s']. *)
Definition consumed (s s' : string) : string :=
  substring 0 (String.length s - String.length s') s.

(** The loop of a greedy [*]: one more round of [body] when it matches and
    consumes text, the continuation otherwise. *)
Fixpoint star_loop {A : Type}
    (body : string -> groups -> (string -> groups -> option A) -> option A)
    (k : string -> groups -> option A)
    (fuel : nat) (s : string) (g : groups) : option A :=
  match fuel with
  | O => k s g
  | S fuel' =>
      match body s g
              (fun s' g' =>
                 if (String.length s' <? String.length s)%nat
                 then star_loop body k fuel' s' g' else None) with
      | Some x => Some x
      | None => k s g
      end
  end.

Fixpoint rmatch {A : Type} (r : regex) (s : string) (g : groups)
    (k : string -> groups -> option A) : option A :=
  match r with
  | Chr p =>
      match s with
      | String a s' => if p a then k s' g else None
      | EmptyString => None
      end
  | Str t =>
      match drop_prefix t s with
      | Some s' => k s' g
      | None => None
      end
  | Alt r1 r2 =>
      match rmatch r1 s g k with
      | Some x => Some x
      | None => rmatch r2 s g k
      end
  | Cat r1 r2 => rmatch r1 s g (fun s' g' => rmatch r2 s' g' k)
  | Opt r1 =>
      match rmatch r1 s g k with
      | Some x => Some x
      | None => k s g
      end
  | Star r1 => star_loop (rmatch r1) k (S (String.length s)) s g
  | Group n r1 =>
      rmatch r1 s g (fun s' g' => k s' ((n, consumed s s') :: g'))
  end.

(** [re.search(r, s)] *)
Fixpoint re_search (r : regex) (s : string) : option groups :=
  match rmatch r s [] (fun _ g => Some g) with
  | Some g => Some g
  | None =>
      match s with
      | String _ s' => re_search r s'
      | EmptyString => None
      end
  end.

(** [match.group(n)] *)
Fixpoint group (g : groups) (n : nat) : res string :=
  match g with
  | [] => Raise (Exception "no such group")
  | (m, t) :: g' => if (m =? n)%nat then Ok t else group g' n
  end.

(** ** Areas (WarehouseAssistant.calculate_square_meters) *)

Definition digit : regex := Chr is_digit.
Definition space : regex := Chr py_isspace.
Definition dot : regex := Chr (Ascii.eqb ".").

(** [\d+(?:\.\d+)?] *)
Definition number : regex := Cat (Plus digit) (Opt (Cat dot (Plus digit))).

(** [[xх]]: the Latin or the Cyrillic letter. *)
Definition cross : regex := Alt (Str "x") (Str "х").

Definition sized (sep : regex) : regex :=
  Cat (Group 1 number)
    (Cat (Star space) (Cat sep (Cat (Star space) (Group 2 number)))).

Definition patterns : list regex :=
  [ Cat (sized cross) (Cat (Star space) (Str "мм"));
    Cat (sized cross) (Cat (Star space) (Str "mm"));
    sized cross;
    sized (Str "*") ].

(** Digits of the fraction: their value and their count. *)
Fixpoint fraction_val (acc : Z) (n : nat) (s : string) : option (Z * nat) :=
  match s with
  | EmptyString => match n with O => None | _ => Some (acc, n) end
  | String c s' =>
      if is_digit c then fraction_val (10 * acc + digit_val c) (S n) s' else None
  end.

Fixpoint split_at_dot (s : string) : string * option string :=
  match s with
  | EmptyString => (EmptyString, None)
  | String c s' =>
      if Ascii.eqb c "." then (EmptyString, Some s')
      else let '(a, b) := split_at_dot s' in (String c a, b)
  end.

(** [float(s)] for the texts a [number] matches; [ValueError] otherwise. *)
Definition py_float (s : string) : res Q :=
  let bad := Raise (ValueError ("could not convert string to float: '" ++ s ++ "'")) in
  match split_at_dot s with
  | (a, None) =>
      match digits_val 0 false a with
      | Some v => Ok (inject_Z v)
      | None => bad
      end
  | (a, Some b) =>
      match digits_val 0 false a, fraction_val 0 0 b with
      | Some v, Some (f, n) =>
          Ok (Qred (inject_Z v + (f # Z.to_pos (10 ^ Z.of_nat n))))
      | _, _ => bad
      end
  end.

(** [a or b] on an optional and a plain string. *)
Definition or_else (a : option string) (b : string) : string :=
  match a with
  | Some x => if truthy a then x else b
  | None => b
  end.

(** The body of the [if match:] branch. *)
Definition area_of_match (text : string) (g : groups) : res Q :=
  w <- group g 1 ;;
  width <- py_float w ;;
  h <- group g 2 ;;
  height <- py_float h ;;
  let '(width_m, height_m) :=
    if contains "мм" (lower text) || contains "mm" (lower text) then
      (width / 1000, height / 1000)%Q
    else if Qltb 100 width || Qltb 100 height then
      (width / 1000, height / 1000)%Q
    else (width, height) in
  Ok (py_round (width_m * height_m) 3).

(** The [for pattern in patterns] loop with its [return]. *)
Fixpoint first_match (ps : list regex) (text : string) : res Q :=
  match ps with
  | [] => Ok 0%Q
  | pattern :: rest =>
      match re_search pattern (lower text) with
      | Some g => area_of_match text g
      | None => first_match rest text
      end
  end.

Definition calculate_square_meters (name : string) (dimensions : option string)
  : res Q :=
  try_except
    (let text := or_else dimensions (or_else (Some name) "") in
     first_match patterns text)
    (fun _ => Ok 0%Q).

(** ** Worksheet access *)

Definition empty_cell : xcell := mk_xcell VNone None.

Definition same_key (k k' : Z * Z) : bool :=
  (fst k =? fst k') && (snd k =? snd k').

Fixpoint ws_find (ws : worksheet) (k : Z * Z) : option xcell :=
  match ws with
  | [] => None
  | (k', x) :: ws' => if same_key k' k then Some x else ws_find ws' k
  end.

Fixpoint ws_put (ws : worksheet) (k : Z * Z) (x : xcell) : worksheet :=
  match ws with
  | [] => [(k, x)]
  | (k', x') :: ws' =>
      if same_key k' k then (k', x) :: ws' else (k', x') :: ws_put ws' k x
  end.

(** [ws.max_row] and [ws.max_column]: 1 on an empty sheet. *)
Definition max_row (ws : worksheet) : Z :=
  fold_left (fun m e => Z.max m (fst (fst e))) ws 1.

Definition max_column (ws : worksheet) : Z :=
  fold_left (fun m e => Z.max m (snd (fst e))) ws 1.

(** The cell at a position; a cell that did not exist is created empty. *)
Definition get_cell (ws : worksheet) (k : Z * Z) : xcell * worksheet :=
  match ws_find ws k with
  | Some x => (x, ws)
  | None => (empty_cell, ws_put ws k empty_cell)
  end.

(** [ws.cell(row=row, column=column, value=v)]: the cell and the sheet.
    A column of [None] fails in the bounds test. *)
Definition ws_cell (ws : worksheet) (row : Z) (column : option Z) (v : value)
  : res (xcell * worksheet) :=
  match column with
  | None =>
      Raise (TypeError "'<' not supported between instances of 'NoneType' and 'int'")
  | Some col =>
      if (row <? 1) || (col <? 1) then
        Raise (ValueError "Row or column values must be at least 1")
      else
        let '(x, ws') := get_cell ws (row, col) in
        match v with
        | VNone => Ok (x, ws')
        | _ =>
            let x' := mk_xcell v (x_fill x) in
            Ok (x', ws_put ws' (row, col) x')
        end
  end.

(** [cell.value = v] and [cell.fill = f] on a cell that exists. *)
Definition set_value (ws : worksheet) (k : Z * Z) (v : value) : worksheet :=
  match ws_find ws k with
  | Some x => ws_put ws k (mk_xcell v (x_fill x))
  | None => ws
  end.

Definition set_fill (ws : worksheet) (k : Z * Z) (f : string) : worksheet :=
  match ws_find ws k with
  | Some x => ws_put ws k (mk_xcell (x_value x) (Some f))
  | None => ws
  end.

(** The columns 1, 2, ..., n. *)
Definition columns_to (n : Z) : list Z :=
  map (fun i => Z.of_nat i + 1) (seq 0 (Z.to_nat n)).

(** [ws[row]]: the cells of the row in columns 1 to [max_column], created
    where they did not exist. *)
Definition ws_row (ws : worksheet) (row : Z) : list xcell * worksheet :=
  fold_left
    (fun '(cells, ws') col =>
       let '(x, ws'') := get_cell ws' (row, col) in
       ((cells ++ [x])%list, ws''))
    (columns_to (max_column ws)) ([], ws).

(** Digits of [n / d] after the point, for [0 <= n < d]. *)
Fixpoint fraction_digits (fuel : nat) (n d : Z) : string :=
  match fuel with
  | O => EmptyString
  | S fuel' =>
      if n =? 0 then EmptyString
      else str_of_Z (10 * n / d) ++ fraction_digits fuel' (10 * n mod d) d
  end.

(** [str(x)] for a float: sign, integer part, point, fraction. *)
Definition float_str (q : Q) : string :=
  let n := Z.abs (Qnum q) in
  let d := Z.pos (Qden q) in
  let frac := fraction_digits 17 (n mod d) d in
  let sign := if Qnum q <? 0 then "-" else "" in
  sign ++ str_of_Z (n / d) ++ "." ++ (if String.eqb frac "" then "0" else frac).

(** [str(cell.value)] *)
Definition value_str (v : value) : string :=
  match v with
  | VNone => "None"
  | VStr s => s
  | VInt z => str_of_Z z
  | VNum q => float_str q
  end.

(** Truth value of [cell.value]. *)
Definition value_truthy (v : value) : bool :=
  match v with
  | VNone => false
  | VStr s => negb (String.eqb s "")
  | VInt z => negb (z =? 0)
  | VNum q => negb (Qeq_bool q 0)
  end.

(** [cell.value and any(word in str(cell.value).lower() for word in words)] *)
Definition cell_has (words : list string) (x : xcell) : bool :=
  value_truthy (x_value x) && any_in words (lower (value_str (x_value x))).

(** ** Filled invoice (generate_filled_invoice) *)

Definition rows_1_to_9 : list Z := [1; 2; 3; 4; 5; 6; 7; 8; 9].

(** The search for the header row: rows 1 to 9 in turn; the first cell of a
    row that names the goods makes that row the header row, and the search
    stops once the header row is past row 1. *)
Fixpoint find_header_row (rows : list Z) (header_row : Z) (ws : worksheet)
  : Z * worksheet :=
  match rows with
  | [] => (header_row, ws)
  | row :: rest =>
      let '(cells, ws') := ws_row ws row in
      let header_row' :=
        if existsb (cell_has ["наименование"; "название"]) cells then row
        else header_row in
      if header_row' >? 1 then (header_row', ws')
      else find_header_row rest header_row' ws'
  end.

Record invoice_columns : Type := mk_invoice_columns {
  name_col : option Z;
  unit_col : option Z;
  qty_col : option Z;
  area_col : option Z
}.

(** The loop over the header cells; a later match replaces an earlier one. *)
Fixpoint find_invoice_columns (cells : list xcell) (col_idx : Z)
    (acc : invoice_columns) : invoice_columns :=
  match cells with
  | [] => acc
  | x :: rest =>
      let acc' :=
        if value_truthy (x_value x) then
          let value_lower := lower (value_str (x_value x)) in
          if any_in ["наименование"; "название"] value_lower then
            mk_invoice_columns (Some col_idx) (unit_col acc) (qty_col acc) (area_col acc)
          else if any_in ["ед.изм"; "единица"] value_lower then
            mk_invoice_columns (name_col acc) (Some col_idx) (qty_col acc) (area_col acc)
          else if any_in ["количество"; "кол-во"] value_lower then
            mk_invoice_columns (name_col acc) (unit_col acc) (Some col_idx) (area_col acc)
          else if any_in ["площадь"; "м²"; "кв.м"] value_lower then
            mk_invoice_columns (name_col acc) (unit_col acc) (qty_col acc) (Some col_idx)
          else acc
        else acc in
      find_invoice_columns rest (col_idx + 1) acc'
  end.

(** What a written cell holds. The position number goes to column 1, the
    other four to the column found for them. *)
Inductive role : Type :=
| RNumber
| RName
| RUnit
| RQuantity
| RArea.

Record cell_write : Type := mk_cell_write {
  cw_role : role;
  cw_row : Z;
  cw_column : Z;
  cw_value : value
}.


Definition option_eqb (a : option string) (b : string) : bool :=
  match a with
  | Some x => String.eqb x b
  | None => false
  end.

(** The first marking of the article whose field [f] is true as a
    condition, and that field. *)
Definition first_marking_field (f : marking -> option string)
    (markings : list marking) (article : string) : option string :=
  match find (fun m => option_eqb (m_article m) article && truthy (f m)) markings with
  | Some m => f m
  | None => None
  end.

(** [a or b] on plain strings. *)
Definition str_or (a b : string) : string :=
  if String.eqb a "" then b else a.

Definition write_if (col : option Z) (r : role) (row : Z) (v : value)
  : list cell_write :=
  match col with
  | Some c => [mk_cell_write r row c v]
  | None => []
  end.

(** The cells one position of the comparison fills, in the order they
    are written. *)
Definition invoice_item_writes (cols : invoice_columns) (markings : list marking)
    (item : comparison_item) (data_row row_num : Z) : res (list cell_write) :=
  let number := [mk_cell_write RNumber data_row 1 (VInt row_num)] in
  let name :=
    let full_name :=
      match first_marking_field m_name markings (c_article item) with
      | Some n => n
      | None => c_name item
      end in
    write_if (name_col cols) RName data_row
      (VStr (str_or full_name (c_article item))) in
  let unit := write_if (unit_col cols) RUnit data_row (VStr "шт") in
  let qty := write_if (qty_col cols) RQuantity data_row (VInt (c_actual item)) in
  area <-
    match area_col cols with
    | Some c =>
        let dimensions :=
          first_marking_field m_dimensions markings (c_article item) in
        area_per_item <-
          calculate_square_meters (str_or (c_name item) (c_article item)) dimensions ;;
        let total_area := (area_per_item * inject_Z (c_actual item))%Q in
        Ok (if Qltb 0 total_area
            then [mk_cell_write RArea data_row c (VNum (py_round total_area 2))]
            else [])
    | None => Ok []
    end ;;
  Ok (number ++ name ++ unit ++ qty ++ area)%list.

(** The loop over the comparison: only positions that were shipped get a
    row. The loop reads nothing from the sheet, so its writes are listed
    here and carried out afterwards in the same order. *)
Fixpoint invoice_writes (cols : invoice_columns) (markings : list marking)
    (comparison : list comparison_item) (data_row row_num : Z)
  : res (list cell_write) :=
  match comparison with
  | [] => Ok []
  | item :: rest =>
      if c_actual item >? 0 then
        ws1 <- invoice_item_writes cols markings item data_row row_num ;;
        ws2 <- invoice_writes cols markings rest (data_row + 1) (row_num + 1) ;;
        Ok (ws1 ++ ws2)%list
      else invoice_writes cols markings rest data_row row_num
  end.

Fixpoint apply_writes (ws : worksheet) (l : list cell_write) : res worksheet :=
  match l with
  | [] => Ok ws
  | cw :: rest =>
      r <- ws_cell ws (cw_row cw) (Some (cw_column cw)) (cw_value cw) ;;
      apply_writes (snd r) rest
  end.

(** From the loaded template to the filled sheet, with the columns found
    and the writes made. *)
Definition fill_invoice (ws : worksheet) (comparison : list comparison_item)
    (markings : list marking)
  : res (invoice_columns * list cell_write * worksheet) :=
  let '(header_row, ws) := find_header_row rows_1_to_9 1 ws in
  let '(cells, ws) := ws_row ws header_row in
  let cols := find_invoice_columns cells 1 (mk_invoice_columns None None None None) in
  writes <- invoice_writes cols markings comparison (header_row + 1) 1 ;;
  ws <- apply_writes ws writes ;;
  Ok (cols, writes, ws).

(** Returns the output path and the sheet saved there. *)
Definition generate_filled_invoice (w : world) (s : session)
    (comparison : list comparison_item) (markings : list marking)
    (params : final_params) : res (string * worksheet) :=
  try_except
    (match template s with
     | Some path =>
         if truthy (template s) && exists_at w path then
           ws <- workbook_at w path ;;
           r <- fill_invoice ws comparison markings ;;
           Ok ("output/Накладная_заполненная_" ++ now w ++ ".xlsx", snd r)
         else Raise (Exception "Отсутствует файл шаблона накладной")
     | None => Raise (Exception "Отсутствует файл шаблона накладной")
     end)
    (fun e => Raise (Exception ("Ошибка генерации накладной: " ++ exn_str e))).

(** ** Updated specification (generate_updated_specification) *)

Record spec_columns : Type := mk_spec_columns {
  article_col : option Z;
  shipped_col : option Z;
  date_col : option Z
}.

(** The inner loop of the column search, over the cells of one row. *)
Fixpoint scan_spec_cells (cells : list xcell) (col_idx : Z) (acc : spec_columns)
  : spec_columns :=
  match cells with
  | [] => acc
  | x :: rest =>
      let acc' :=
        if value_truthy (x_value x) then
          let value_lower := lower (value_str (x_value x)) in
          if any_in ["артикул"; "код"] value_lower then
            mk_spec_columns (Some col_idx) (shipped_col acc) (date_col acc)
          else if any_in ["отгружен"; "отправлен"] value_lower then
            mk_spec_columns (article_col acc) (Some col_idx) (date_col acc)
          else if any_in ["дата"] value_lower then
            mk_spec_columns (article_col acc) (shipped_col acc) (Some col_idx)
          else acc
        else acc in
      scan_spec_cells rest (col_idx + 1) acc'
  end.

(** The outer loop, over rows 1 to 9. *)
Fixpoint scan_spec_rows (rows : list Z) (acc : spec_columns) (ws : worksheet)
  : spec_columns * worksheet :=
  match rows with
  | [] => (acc, ws)
  | row :: rest =>
      let '(cells, ws') := ws_row ws row in
      scan_spec_rows rest (scan_spec_cells cells 1 acc) ws'
  end.

(** The column for the shipped quantity: the one found, or a new one after
    the last column in use, with its header in row 1. *)
Definition ensure_shipped_col (cols : spec_columns) (ws : worksheet)
  : res (Z * worksheet) :=
  match shipped_col cols with
  | Some c => Ok (c, ws)
  | None =>
      let c := max_column ws + 1 in
      r <- ws_cell ws 1 (Some c) (VStr "Отгруженные") ;;
      Ok (c, snd r)
  end.

(** The column for the shipment date, likewise. *)
Definition ensure_date_col (cols : spec_columns) (shipped : Z) (ws : worksheet)
  : res (Z * worksheet) :=
  match date_col cols with
  | Some c => Ok (c, ws)
  | None =>
      let c := Z.max shipped (max_column ws) + 1 in
      r <- ws_cell ws 1 (Some c) (VStr "Дата отгрузки") ;;
      Ok (c, snd r)
  end.

Definition red_fill : string := "FFFF0000".

(** One round of the loop over the rows of the sheet. *)
Definition update_row (article_col : option Z) (shipped date : Z)
    (comparison : list comparison_item) (params : final_params)
    (ws : worksheet) (row_idx : Z) : res worksheet :=
  r <- ws_cell ws row_idx article_col VNone ;;
  let '(article_cell, ws) := r in
  if value_truthy (x_value article_cell) then
    let article := strip (value_str (x_value article_cell)) in
    match find (fun item => String.eqb (c_article item) article) comparison with
    | Some item =>
        r <- ws_cell ws row_idx (Some shipped) VNone ;;
        let ws := set_value (snd r) (row_idx, shipped) (VInt (c_actual item)) in
        r <- ws_cell ws row_idx (Some date) VNone ;;
        let ws := set_value (snd r) (row_idx, date) (VStr (fp_shipment_date params)) in
        if mem_string (c_status item) ["⬆️"; "🔁"]
        then Ok (set_fill ws (row_idx, shipped) red_fill)
        else Ok ws
    | None => Ok ws
    end
  else Ok ws.

Fixpoint update_rows (article_col : option Z) (shipped date : Z)
    (comparison : list comparison_item) (params : final_params)
    (rows : list Z) (ws : worksheet) : res worksheet :=
  match rows with
  | [] => Ok ws
  | row_idx :: rest =>
      ws' <- update_row article_col shipped date comparison params ws row_idx ;;
      update_rows article_col shipped date comparison params rest ws'
  end.

(** [range(2, n + 1)] *)
Definition rows_from_2 (n : Z) : list Z :=
  map (fun i => Z.of_nat i + 2) (seq 0 (Z.to_nat (n - 1))).

(** From the loaded specification to the updated sheet, with the columns
    the search found. *)
Definition update_specification (ws : worksheet)
    (comparison : list comparison_item) (params : final_params)
  : res (spec_columns * worksheet) :=
  let '(cols, ws) :=
    scan_spec_rows rows_1_to_9 (mk_spec_columns None None None) ws in
  r <- ensure_shipped_col cols ws ;;
  let '(shipped, ws) := r in
  r <- ensure_date_col cols shipped ws ;;
  let '(date, ws) := r in
  ws <- update_rows (article_col cols) shipped date comparison params
          (rows_from_2 (max_row ws)) ws ;;
  Ok (cols, ws).

(** Returns the output path and the sheet saved there. *)
Definition generate_updated_specification (w : world) (s : session)
    (comparison : list comparison_item) (params : final_params)
  : res (string * worksheet) :=
  try_except
    (ws <- match specification s with
           | Some path => workbook_at w path
           | None => Raise (TypeError "expected str, bytes or os.PathLike object, not NoneType")
           end ;;
     r <- update_specification ws comparison params ;;
     Ok ("output/Спецификация_обновленная_" ++ now w ++ ".xlsx", snd r))
    (fun e => Raise (Exception ("Ошибка обновления спецификации: " ++ exn_str e))).

(** ** Steps 6 and 7 *)

Definition in_range (lo hi : ascii) (c : ascii) : bool :=
  (byte_of lo <=? byte_of c) && (byte_of c <=? byte_of hi).

(** The expression [strptime] compiles ["%d.%m.%Y"] to. *)
Definition date_regex : regex :=
  let d :=
    Alt (Cat (Str "3") (Chr (in_range "0" "1")))
      (Alt (Cat (Chr (in_range "1" "2")) digit)
         (Alt (Cat (Str "0") (Chr (in_range "1" "9")))
            (Alt (Chr (in_range "1" "9"))
               (Cat (Str " ") (Chr (in_range "1" "9")))))) in
  let m :=
    Alt (Cat (Str "1") (Chr (in_range "0" "2")))
      (Alt (Cat (Str "0") (Chr (in_range "1" "9")))
         (Chr (in_range "1" "9"))) in
  let y := Cat digit (Cat digit (Cat digit digit)) in
  Cat (Group 1 d) (Cat (Str ".") (Cat (Group 2 m) (Cat (Str ".") (Group 3 y)))).

Definition is_leap (y : Z) : bool :=
  ((y mod 4 =? 0) && negb (y mod 100 =? 0)) || (y mod 400 =? 0).

Definition days_in_month (y m : Z) : Z :=
  if m =? 2 then (if is_leap y then 29 else 28)
  else if (m =? 4) || (m =? 6) || (m =? 9) || (m =? 11) then 30
  else 31.

(** [datetime.strptime(s, "%d.%m.%Y")]: the date, or [ValueError]. *)
Definition strptime_dmy (s : string) : res (Z * Z * Z) :=
  let bad := Raise (ValueError "time data does not match format '%d.%m.%Y'") in
  match rmatch date_regex s [] (fun s' g => Some (s', g)) with
  | None => bad
  | Some (rest, g) =>
      if negb (String.eqb rest "") then
        Raise (ValueError ("unconverted data remains: " ++ rest))
      else
        ds <- group g 1 ;; d <- cell_int (CStr ds) ;;
        ms <- group g 2 ;; m <- cell_int (CStr ms) ;;
        ys <- group g 3 ;; y <- cell_int (CStr ys) ;;
        if (1 <=? y) && (d <=? days_in_month y m) then Ok (d, m, y)
        else Raise (ValueError "day is out of range for month")
  end.

Definition step6_final_questions (shipment_type shipment_date : string)
    (s : session) : res final_params * session :=
  match strptime_dmy shipment_date with
  | Raise (ValueError _) =>
      (Raise (HTTPException 400 "Неверный формат даты. Используйте ДД.ММ.ГГГГ"), s)
  | Raise e => (http400 "Ошибка обработки параметров: " e, s)
  | Ok _ =>
      let params :=
        {| fp_shipment_type := shipment_type;
           fp_shipment_date := shipment_date;
           fp_shipment_type_ru :=
             if String.eqb shipment_type "full" then "Окончательная отгрузка"
             else "Частичная отгрузка" |} in
      (Ok params,
       set_step 7 (set_results (set_final_params params (session_results s)) s))
  end.

Definition step7_try (w : world) (s : session) : res generated_result :=
  match r_comparison (session_results s) with
  | None => Raise (HTTPException 400 "Отсутствуют данные сравнения. Выполните шаг 5.")
  | Some cmp =>
      match r_final_params (session_results s) with
      | None =>
          Raise (HTTPException 400 "Отсутствуют финальные параметры. Выполните шаг 6.")
      | Some params =>
          match r_markings (session_results s) with
          | None => Raise missing_markings
          | Some mr =>
              let comparison := cmp_comparison cmp in
              let markings := mr_markings mr in
              invoice <- generate_filled_invoice w s comparison markings params ;;
              spec <- generate_updated_specification w s comparison params ;;
              Ok {| gr_success := true;
                    gr_files :=
                      [ mk_generated_file "Накладная_заполненная.xlsx" (fst invoice) "invoice";
                        mk_generated_file "Спецификация_обновленная.xlsx" (fst spec)
                          "specification" ];
                    gr_shipment_type := fp_shipment_type_ru params;
                    gr_shipment_date := fp_shipment_date params |}
          end
      end
  end.

Definition step7_generate_files (w : world) (s : session)
  : res generated_result * session :=
  match step7_try w s with
  | Ok result =>
      (Ok result,
       set_step 8 (set_results (set_generated_files result (session_results s)) s))
  | Raise e => (http400 "Ошибка генерации файлов: " e, s)
  end.

(** ** Uploads, downloads and reset *)

(** An uploaded file: the name the client gave it and its bytes. *)
Record upload : Type := mk_upload {
  u_filename : string;
  u_content : string
}.

Record upload_report : Type := mk_upload_report {
  ur_success : bool;
  ur_specification : option string;
  ur_template : option string;
  ur_photos : Z
}.

Definition set_specification (v : option string) (s : session) : session :=
  mk_session v (template s) (photos s) (step s) (session_results s).

Definition set_template (v : option string) (s : session) : session :=
  mk_session (specification s) v (photos s) (step s) (session_results s).

Definition set_photos (v : list photo) (s : session) : session :=
  mk_session (specification s) (template s) v (step s) (session_results s).

(** The part of a path after its last ["/"]. *)
Fixpoint basename (p : string) : string :=
  match p with
  | EmptyString => EmptyString
  | String c p' =>
      if contains "/" p then basename p' else p
  end.

(** The text from the last ["."] of [b] on, with what stands before it. *)
Fixpoint split_last_dot (b : string) : string * option string :=
  match b with
  | EmptyString => (EmptyString, None)
  | String c b' =>
      let '(stem, ext) := split_last_dot b' in
      match ext with
      | Some e => (String c stem, Some e)
      | None =>
          if Ascii.eqb c "." then (EmptyString, Some b)
          else (String c stem, None)
      end
  end.

Fixpoint only_dots (s : string) : bool :=
  match s with
  | EmptyString => true
  | String c s' => Ascii.eqb c "." && only_dots s'
  end.

(** [os.path.splitext(p)[1]]: the extension starts at the last dot of the
    base name, unless only dots stand before it. *)
Definition splitext_ext (p : string) : string :=
  match split_last_dot (basename p) with
  | (stem, Some e) => if only_dots stem then "" else e
  | (_, None) => ""
  end.

(** [with open(path, "wb") as f: f.write(content)], on a disk that takes
    the file or not. *)
Definition save_file (writable : string -> bool) (path : string) : res unit :=
  if writable path then Ok tt
  else Raise (Exception ("[Errno 13] Permission denied: '" ++ path ++ "'")).

(** The block that stores the specification or the template. *)
Definition upload_one (w : world) (writable : string -> bool) (prefix : string)
    (set : option string -> session -> session)
    (file : option upload) (s : session) : res (option string) * session :=
  match file with
  | Some u =>
      if truthy (Some (u_filename u)) then
        let path := "uploads/" ++ prefix ++ "_" ++ now w ++ ".xlsx" in
        match save_file writable path with
        | Ok _ => (Ok (Some (u_filename u)), set (Some path) s)
        | Raise e => (Raise e, s)
        end
      else (Ok None, s)
  | None => (Ok None, s)
  end.

(** The loop over the uploaded photos. *)
Fixpoint upload_photos (w : world) (writable : string -> bool) (i : Z)
    (files : list upload) (s : session) : res unit * session :=
  match files with
  | [] => (Ok tt, s)
  | photo :: rest =>
      if truthy (Some (u_filename photo)) then
        if (String.length (u_content photo) =? 0)%nat then
          upload_photos w writable (i + 1) rest s
        else
          let ext := str_or (splitext_ext (u_filename photo)) ".jpg" in
          let photo_path :=
            "uploads/photo_" ++ str_of_Z i ++ "_" ++ now w ++ ext in
          match save_file writable photo_path with
          | Ok _ =>
              upload_photos w writable (i + 1) rest
                (set_photos
                   (photos s ++ [mk_photo photo_path (u_filename photo)])%list s)
          | Raise e => (Raise e, s)
          end
      else upload_photos w writable (i + 1) rest s
  end.

(** [/upload-files/]. What was assigned before an exception stays
    assigned. *)
Definition upload_files (w : world) (writable : string -> bool)
    (specification template : option upload) (files : list upload)
    (s : session) : res upload_report * session :=
  let s := set_specification None s in
  let s := set_template None s in
  let s := set_photos [] s in
  match upload_one w writable "specification" set_specification specification s with
  | (Raise e, s) => (http400 "Ошибка загрузки файлов: " e, s)
  | (Ok spec_name, s) =>
      match upload_one w writable "template" set_template template s with
      | (Raise e, s) => (http400 "Ошибка загрузки файлов: " e, s)
      | (Ok template_name, s) =>
          match upload_photos w writable 0 files s with
          | (Raise e, s) => (http400 "Ошибка загрузки файлов: " e, s)
          | (Ok _, s) =>
              (Ok {| ur_success := true;
                     ur_specification := spec_name;
                     ur_template := template_name;
                     ur_photos := len (photos s) |},
               set_step 1 s)
          end
      end
  end.

Record file_response : Type := mk_file_response {
  fr_path : string;
  fr_filename : string;
  fr_media_type : string
}.

(** [/download/{file_type}/{filename}] *)
Definition download_file (w : world) (file_type filename : string)
  : res file_response :=
  try_except
    (let file_path := "output/" ++ filename in
     if negb (exists_at w file_path) then
       Raise (HTTPException 404 "Файл не найден")
     else
       Ok {| fr_path := file_path;
             fr_filename := filename;
             fr_media_type :=
               "application/vnd.openxmlformats-officedocument.spreadsheetml.sheet" |})
    (fun e => http400 "Ошибка скачивания: " e).

(** [/reset]: the session is bound to a fresh dictionary. *)
Definition reset_session (s : session) : session := initial_session.

(** * Vocabulary of the statements *)

(** ** Marking extraction *)

(** The outcomes the adapter has to absorb: a call raised, the answer is
    not JSON or not a JSON object, or the answer carries an error. *)
Definition recognition_fails (rc : recognition) : bool :=
  match rc with
  | CallRaised _ => true
  | Response NotJson => true
  | Response JsonNotObject => true
  | Response (JsonObject _ _ _ error) => truthy error
  end.

(** What the adapter returns, outcome by outcome. *)
Inductive extracted : recognition -> marking -> Prop :=
| ex_raised e :
    extracted (CallRaised e)
      (failed_marking ("Ошибка API: " ++ take_chars 100 (exn_str e)))
| ex_not_json :
    extracted (Response NotJson) (failed_marking "Ошибка парсинга ответа Gemini")
| ex_not_object :
    extracted (Response JsonNotObject)
      (failed_marking
         ("Ошибка API: " ++ take_chars 100 "object has no attribute 'get'"))
| ex_error name article dimensions msg :
    truthy (Some msg) = true ->
    extracted (Response (JsonObject name article dimensions (Some msg)))
      (failed_marking msg)
| ex_read name article dimensions error :
    truthy error = false ->
    extracted (Response (JsonObject name article dimensions error))
      (read_marking name article dimensions).

(** The three-tier rule of a marking record. *)
Definition tier_rule (m : marking) : Prop :=
  (m_status m = "✅" <-> m_name m <> None /\ m_article m <> None) /\
  (m_status m = "⚠️" <-> m_article m <> None /\ m_name m = None) /\
  (m_status m = "❌" <-> m_article m = None) /\
  (m_status m = "✅" \/ m_status m = "⚠️" \/ m_status m = "❌").

(** ** Counters *)

(** The counter after counting the articles of [l] one by one. *)
Definition tally (l : list string) (d : counter) : counter :=
  fold_left counter_incr l d.

(** How often [a] occurs in [l]. *)
Definition occurrences (a : string) (l : list string) : Z :=
  count_if (String.eqb a) l.

(** The distinct members of [l], each at the place of its first occurrence. *)
Fixpoint first_occurrences (l : list string) : list string :=
  match l with
  | [] => []
  | x :: r => x :: filter (fun y => negb (String.eqb y x)) (first_occurrences r)
  end.

Definition unseen (seen : list string) (a : string) : bool :=
  negb (mem_string a seen).

(** ** Comparison with the specification *)

(** The article a marking is counted under: its article stripped, when the
    article is a non-empty text and the marking is readable. *)
Definition counted (m : marking) : option string :=
  match m_article m, m_readable m with
  | Some a, Some true => if String.eqb a "" then None else Some (strip a)
  | _, _ => None
  end.

(** The articles of the counted markings, in the order of the markings. *)
Definition counted_articles (ms : list marking) : list string :=
  flat_map (fun m => match counted m with Some a => [a] | None => [] end) ms.

(** A marking step 5 can count without failing: it has no article, or it
    says whether it is readable. *)
Definition countable (m : marking) : Prop :=
  m_article m = None \/ exists b, m_readable m = Some b.

Definition in_specification (spec : list spec_item) (article : string) : Prop :=
  In article (map si_article spec).

(** The classification rule of a comparison record. *)
Definition classified (spec : list spec_item) (c : comparison_item) : Prop :=
  c_difference c = c_actual c - c_planned c /\
  (c_status c = "✅" <-> c_difference c = 0) /\
  (c_status c = "⬇️" <-> c_difference c < 0) /\
  (c_status c = "⬆️" <->
     0 < c_difference c /\ in_specification spec (c_article c)) /\
  (c_status c = "🔁" <-> ~ in_specification spec (c_article c)) /\
  (c_status c = "🔁" -> c_planned c = 0 /\ c_difference c = c_actual c).

(** *** A run of the workflow *)

Definition demo_photos : list photo :=
  (repeat (mk_photo "uploads/a1.jpg" "a1.jpg") 10
     ++ repeat (mk_photo "uploads/a2.jpg" "a2.jpg") 7
     ++ repeat (mk_photo "uploads/a3.jpg" "a3.jpg") 2)%list.

Definition demo_specification : dataframe :=
  {| df_columns := ["Артикул"; "Наименование"; "Количество"];
     df_rows := [ [CStr "A1"; CStr "Panel"; CInt 10];
                  [CStr "A2"; CStr "Frame"; CInt 5] ] |}.

Definition demo_world : world :=
  {| image_at := fun _ => Decoded 800 600 [20; 220; 40; 200; 120];
     recognition_at := fun path =>
       if String.eqb path "uploads/a1.jpg" then
         Response (JsonObject (Some "Panel") (Some "A1") (Some "500x300 мм") None)
       else if String.eqb path "uploads/a2.jpg" then
         Response (JsonObject (Some "Frame") (Some " A2 ") None None)
       else Response (JsonObject None (Some "A3") None None);
     excel_at := fun _ => Ok demo_specification;
     workbook_at := fun _ => Ok [];
     exists_at := fun _ => true;
     now := "20240101_120000" |}.

Definition demo_session : session :=
  mk_session (Some "uploads/specification.xlsx") (Some "uploads/template.xlsx")
    demo_photos 1 empty_results.

(** Steps 1, 2, 3 and 5 in a row; the answer of step 5. *)
Definition run_to_comparison (w : world) (s : session) : res comparison_result :=
  let s1 := snd (step1_check_files s) in
  let s2 := snd (step2_check_photo_quality w s1) in
  let s3 := snd (step3_extract_markings w s2) in
  fst (step5_compare_specification w s3).

Definition demo_before_comparison : session :=
  Eval vm_compute in
    snd (step3_extract_markings demo_world
           (snd (step2_check_photo_quality demo_world
                   (snd (step1_check_files demo_session))))).

Definition demo_after_comparison : res comparison_result * session :=
  Eval vm_compute in step5_compare_specification demo_world demo_before_comparison.

(** [m] is counted under [a]: it is readable, its article is a non-empty
    text, and stripped it is [a]. *)
Definition counts_as (a : string) (m : marking) : bool :=
  match m_article m, m_readable m with
  | Some x, Some true => negb (String.eqb x "") && String.eqb (strip x) a
  | _, _ => false
  end.

(** *** Entries per article *)

Definition duplicate_specification : dataframe :=
  {| df_columns := ["Артикул"; "Количество"];
     df_rows := [ [CStr "A1"; CInt 10]; [CStr "A1"; CInt 5] ] |}.

Definition duplicate_world : world :=
  {| image_at := fun _ => DecodeError (Exception "cannot identify image file");
     recognition_at := fun _ => Response NotJson;
     excel_at := fun _ => Ok duplicate_specification;
     workbook_at := fun _ => Ok [];
     exists_at := fun _ => true;
     now := "20240101_120000" |}.

(** A session whose step 3 ran on no photo. *)
Definition duplicate_session : session :=
  mk_session (Some "uploads/specification.xlsx") (Some "uploads/template.xlsx")
    [] 4
    (set_markings (mk_markings_result true [] 0 0 0 0) empty_results).

(** ** Unreadable photos *)

Definition marginal_world : world :=
  {| image_at := fun path =>
       if String.eqb path "uploads/small.jpg"
       then Decoded 200 600 [20; 220; 40; 200; 120]
       else Decoded 800 600 [20; 220; 40; 200; 120];
     recognition_at := fun _ =>
       Response (JsonObject (Some "Panel") (Some "A1") None None);
     excel_at := fun _ => Ok demo_specification;
     workbook_at := fun _ => Ok [];
     exists_at := fun _ => true;
     now := "20240101_120000" |}.

Definition marginal_session : session :=
  mk_session (Some "uploads/specification.xlsx") (Some "uploads/template.xlsx")
    [mk_photo "uploads/small.jpg" "small.jpg"; mk_photo "uploads/good.jpg" "good.jpg"]
    2 empty_results.

(** ** Prerequisites of the steps *)

(** A session in which photos were uploaded and nothing else was done:
    no specification, no template, step 1 not passed. *)
Definition unchecked_session : session :=
  mk_session None None [mk_photo "uploads/photo_0.jpg" "photo_0.jpg"] 1 empty_results.

(** ** Regular expressions: what a match is *)

(** [parses r t g g']: the text [t] is matched by [r], and the match turns
    the groups [g] into [g']. *)
Inductive parses : regex -> string -> groups -> groups -> Prop :=
| parses_chr p a g :
    p a = true -> parses (Chr p) (String a EmptyString) g g
| parses_str t g :
    parses (Str t) t g g
| parses_alt_l r1 r2 t g g' :
    parses r1 t g g' -> parses (Alt r1 r2) t g g'
| parses_alt_r r1 r2 t g g' :
    parses r2 t g g' -> parses (Alt r1 r2) t g g'
| parses_cat r1 r2 t1 t2 g g1 g' :
    parses r1 t1 g g1 -> parses r2 t2 g1 g' ->
    parses (Cat r1 r2) (t1 ++ t2) g g'
| parses_opt_some r t g g' :
    parses r t g g' -> parses (Opt r) t g g'
| parses_opt_none r g :
    parses (Opt r) EmptyString g g
| parses_star_nil r g :
    parses (Star r) EmptyString g g
| parses_star_cons r t1 t2 g g1 g' :
    parses r t1 g g1 -> parses (Star r) t2 g1 g' ->
    parses (Star r) (t1 ++ t2) g g'
| parses_group n r t g g' :
    parses r t g g' -> parses (Group n r) t g ((n, t) :: g').

(** ** Areas *)

Fixpoint group_free (r : regex) : bool :=
  match r with
  | Chr _ | Str _ => true
  | Alt r1 r2 | Cat r1 r2 => group_free r1 && group_free r2
  | Opt r1 | Star r1 => group_free r1
  | Group _ _ => false
  end.

(** Only decimal digits. *)
Fixpoint digits_only (t : string) : bool :=
  match t with
  | EmptyString => true
  | String c t' => is_digit c && digits_only t'
  end.

(** A non-empty run of digits, or two of them around a point. *)
Inductive decimal : string -> Prop :=
| decimal_int a :
    a <> "" -> digits_only a = true -> decimal a
| decimal_frac a b :
    a <> "" -> digits_only a = true ->
    b <> "" -> digits_only b = true -> decimal (a ++ String "." b).


(** The first of the patterns, in their order, that is found in the text,
    and the groups of its match. *)
Fixpoint first_found (ps : list regex) (t : string) : option groups :=
  match ps with
  | [] => None
  | p :: rest =>
      match re_search p t with
      | Some g => Some g
      | None => first_found rest t
      end
  end.

(** Whether the two numbers are taken as millimetres. *)
Definition millimetres (text : string) (width height : Q) : bool :=
  contains "мм" (lower text) || contains "mm" (lower text)
  || Qltb 100 width || Qltb 100 height.

(** ** Document generation *)





(** A row of a sheet, from column 1 on. *)
Definition sheet_row (row : Z) (vs : list value) : worksheet :=
  map (fun '(i, v) => ((row, Z.of_nat i + 1), mk_xcell v None))
    (combine (seq 0 (List.length vs)) vs).

Definition russian_sheet : worksheet :=
  (sheet_row 1 [VStr "Артикул"; VStr "Наименование"; VStr "Количество"]
     ++ sheet_row 2 [VStr "A1"; VStr "Panel"; VInt 10]
     ++ sheet_row 3 [VStr "A2"; VStr "Frame"; VInt 5])%list.

Definition english_sheet : worksheet :=
  (sheet_row 1 [VStr "Article"; VStr "Name"; VStr "Qty"]
     ++ sheet_row 2 [VStr "A1"; VStr "Panel"; VInt 10]
     ++ sheet_row 3 [VStr "A2"; VStr "Frame"; VInt 5])%list.

Definition english_specification : dataframe :=
  {| df_columns := ["Article"; "Name"; "Qty"];
     df_rows := [ [CStr "A1"; CStr "Panel"; CInt 10];
                  [CStr "A2"; CStr "Frame"; CInt 5] ] |}.

Definition bare_template : worksheet :=
  sheet_row 1 [VStr "No"; VStr "Item"].

Definition english_world : world :=
  {| image_at := image_at demo_world;
     recognition_at := recognition_at demo_world;
     excel_at := fun _ => Ok english_specification;
     workbook_at := fun path =>
       if String.eqb path "uploads/template.xlsx" then Ok bare_template
       else Ok english_sheet;
     exists_at := fun _ => true;
     now := "20240101_120000" |}.

Definition demo_items : list comparison_item :=
  Eval vm_compute in
    match fst demo_after_comparison with
    | Ok result => cmp_comparison result
    | Raise _ => []
    end.

Definition demo_params : final_params :=
  mk_final_params "full" "01.02.2024" "Окончательная отгрузка".

(** The session of the run, after steps 5 and 6, with the English sheet
    as its specification. *)
Definition english_session : session :=
  snd (step6_final_questions "full" "01.02.2024"
         (snd (step5_compare_specification english_world demo_before_comparison))).

(** ** Records of step 3 *)

(** How step 3 makes the record [m] of the photo [p] at index [i]: the
    made-up record when the quality result says unreadable, the completed
    answer of the adapter otherwise. *)
Definition stored_one (w : world) (pq : photo_quality_result) (i : nat)
    (p : photo) (m : marking) : Prop :=
  exists q,
    nth_error (pq_photos pq) i = Some q /\
    ((q_readable q = false /\
      m = unreadable_marking (p_filename p) (Z.of_nat i)) \/
     (q_readable q = true /\
      exists m0 b,
        extracted (recognition_at w (p_path p)) m0 /\
        m_readable m0 = Some b /\
        m = set_marking_meta (p_filename p) (Z.of_nat i)
              (if negb b then "Маркировка не читается" else "") m0)).

Inductive stored_from (w : world) (pq : photo_quality_result)
  : nat -> list photo -> list marking -> Prop :=
| stored_nil i : stored_from w pq i [] []
| stored_cons i p ps m ms :
    stored_one w pq i p m -> stored_from w pq (S i) ps ms ->
    stored_from w pq i (p :: ps) (m :: ms).

(** The comment of a stored record says only whether the quality check
    or the extraction gave up. *)
Definition comment_rule (m : marking) : Prop :=
  (m_readable m = None /\ m_comment m = Some "Фото нечитаемо") \/
  (m_readable m = Some false /\ m_comment m = Some "Маркировка не читается") \/
  (m_readable m = Some true /\ m_comment m = Some "").

(** A stored record is readable exactly when it has an article. *)
Definition readable_rule (m : marking) : Prop :=
  (m_readable m = Some true <-> m_article m <> None) /\
  (m_readable m = Some true <-> m_status m <> "❌").

Definition marginal_checked : session :=
  Eval vm_compute in snd (step2_check_photo_quality marginal_world marginal_session).

Definition marginal_extracted : res markings_result * session :=
  Eval vm_compute in step3_extract_markings marginal_world marginal_checked.

(** ** Counts of step 4 *)

(** The sum of the counts of a counter. *)
Definition sum_values (d : counter) : Z := sum_Z (map snd d).

(** The keys under which step 4 counts the articles, in the order of the
    markings. *)
Definition article_keys (ms : list marking) : list string :=
  flat_map (fun m => match article_key m with Some a => [a] | None => [] end) ms.

Definition is_readable (m : marking) : bool :=
  match m_readable m with Some true => true | _ => false end.

Definition demo_counted : res count_result * session :=
  Eval vm_compute in step4_count_verification demo_before_comparison.

(** The sum of the actual counts of a comparison. *)
Definition sum_actual (comparison : list comparison_item) : Z :=
  sum_Z (map c_actual comparison).

(** ** Uploads *)

(** An uploaded photo is kept when it has a file name and is not empty. *)
Definition kept (u : upload) : bool :=
  truthy (Some (u_filename u)) && negb (String.length (u_content u) =? 0)%nat.

(** A disk on which every write succeeds. *)
Definition any_path : string -> bool := fun _ => true.

Definition demo_uploaded : res upload_report * session :=
  Eval vm_compute in
    upload_files demo_world any_path
      (Some (mk_upload "spec.xlsx" "PK")) None
      [mk_upload "one.png" "x"; mk_upload "" "y"; mk_upload "empty.jpg" "";
       mk_upload "README" "z"]
      (snd demo_counted).

(** ** Specification sheet *)

(** What a column label is taken for: the article words are tested first,
    then the quantity words, then the name words. *)
Inductive label_kind : Type :=
| ArticleLabel | QuantityLabel | NameLabel | OtherLabel.

Definition kind_of (col : string) : label_kind :=
  if any_in ["артикул"; "код"; "article"] (lower col) then ArticleLabel
  else if any_in ["количество"; "кол-во"; "qty"; "quantity"] (lower col)
       then QuantityLabel
  else if any_in ["наименование"; "название"; "name"] (lower col) then NameLabel
  else OtherLabel.

(** [r] is the position of the last label of kind [k], if there is one. *)
Definition last_label (k : label_kind) (cols : list string) (r : option nat)
  : Prop :=
  match r with
  | Some i =>
      (exists col, nth_error cols i = Some col /\ kind_of col = k) /\
      (forall j col, (i < j)%nat -> nth_error cols j = Some col -> kind_of col <> k)
  | None => forall col, In col cols -> kind_of col <> k
  end.

(** A row takes part when its article and its quantity are both there. *)
Definition present (articles_col quantity_col : nat) (row : list cell) : bool :=
  notna (row_at row articles_col) && notna (row_at row quantity_col).

(** The item read from a row. *)
Definition item_from (articles_col quantity_col : nat) (name_col : option nat)
    (row : list cell) (item : spec_item) : Prop :=
  si_article item = strip (cell_str (row_at row articles_col)) /\
  cell_int (row_at row quantity_col) = Ok (si_quantity item) /\
  si_name item = match name_col with
                 | Some c => strip (cell_str (row_at row c))
                 | None => ""
                 end.

Definition mixed_specification : dataframe :=
  {| df_columns := ["Код"; "Name"; "Код количества"; "Кол-во"; "Product name"];
     df_rows := [ [CStr "old"; CStr "Panel"; CStr " A1 "; CStr " 1_0 "; CStr "P"];
                  [CStr "old"; CStr "Frame"; NaN; CInt 5; CStr "F"];
                  [CStr "old"; CStr "Glass"; CInt 7; CStr "-3"; NaN] ] |}.

Definition bad_quantity_specification : dataframe :=
  {| df_columns := ["Артикул"; "Количество"];
     df_rows := [ [CStr "A1"; CInt 10];
                  [CStr "A2"; CStr "пять"];
                  [CStr "A3"; CInt 1] ] |}.

(** ** Sheets *)

(** The value a position of the sheet holds; an absent cell holds none. *)
Definition value_at (ws : worksheet) (k : Z * Z) : value :=
  match ws_find ws k with
  | Some x => x_value x
  | None => VNone
  end.

(** The value of the last write addressed to [k], if there is one. *)
Fixpoint last_write (l : list cell_write) (k : Z * Z) : option value :=
  match l with
  | [] => None
  | cw :: rest =>
      match last_write rest k with
      | Some v => Some v
      | None =>
          if same_key (cw_row cw, cw_column cw) k then Some (cw_value cw)
          else None
      end
  end.

Definition role_eqb (a b : role) : bool :=
  match a, b with
  | RNumber, RNumber | RName, RName | RUnit, RUnit
  | RQuantity, RQuantity | RArea, RArea => true
  | _, _ => false
  end.

(** The writes of one role, each as row, column and value. *)
Definition writes_of (r : role) (l : list cell_write) : list (Z * Z * value) :=
  map (fun cw => (cw_row cw, cw_column cw, cw_value cw))
    (filter (fun cw => role_eqb (cw_role cw) r) l).

(** The positions that get a row of the invoice. *)
Definition shipped_items (comparison : list comparison_item)
  : list comparison_item :=
  filter (fun item => c_actual item >? 0) comparison.

(** One cell per element of [l], in column [c], down from [row]. *)
Fixpoint column_down {A : Type} (f : Z -> A -> value) (row c : Z) (i : Z)
    (l : list A) : list (Z * Z * value) :=
  match l with
  | [] => []
  | a :: rest => (row, c, f i a) :: column_down f (row + 1) c (i + 1) rest
  end.

Definition invoice_template : worksheet :=
  (sheet_row 1 [VStr "Накладная"]
     ++ sheet_row 3 [VStr "№"; VStr "Наименование"; VStr "Ед.изм.";
                     VStr "Кол-во"; VStr "Площадь, м²"]
     ++ sheet_row 7 [VStr "Итого"])%list.

Definition gap_items : list comparison_item :=
  [ mk_comparison_item "A1" "Panel 500x300 мм" 2 2 0 "✅";
    mk_comparison_item "A2" "Frame" 5 0 (-5) "⬇️";
    mk_comparison_item "A3" "" 1 3 2 "⬆️" ].

Definition demo_filled : res (invoice_columns * list cell_write * worksheet) :=
  Eval vm_compute in fill_invoice invoice_template gap_items [].

(** ** Updated specification *)

(** The position of the comparison a row of the sheet is updated from:
    the first one whose article is the stripped text of the row's article
    cell, when that cell holds a true value. *)
Definition matched (comparison : list comparison_item) (v : value)
  : option comparison_item :=
  if value_truthy v then
    find (fun item => String.eqb (c_article item) (strip (value_str v))) comparison
  else None.

(** What a cell below the header row holds after the update. *)
Definition updated_value (comparison : list comparison_item)
    (params : final_params) (a shipped date : Z) (ws : worksheet) (k : Z * Z)
  : value :=
  match matched comparison (value_at ws (fst k, a)) with
  | Some item =>
      if snd k =? date then VStr (fp_shipment_date params)
      else if snd k =? shipped then VInt (c_actual item)
      else value_at ws k
  | None => value_at ws k
  end.

(** The columns the update writes to: the ones found, or new ones after
    the last column in use. *)
Definition shipped_column (cols : spec_columns) (ws : worksheet) : Z :=
  match shipped_col cols with
  | Some c => c
  | None => max_column ws + 1
  end.

Definition date_column (cols : spec_columns) (ws : worksheet) : Z :=
  match date_col cols with
  | Some c => c
  | None => Z.max (shipped_column cols ws) (max_column ws) + 1
  end.

(** What a cell of the header row holds after the update. *)
Definition updated_header (cols : spec_columns) (ws : worksheet) (k : Z * Z)
  : value :=
  if match date_col cols with None => snd k =? date_column cols ws | _ => false end
  then VStr "Дата отгрузки"
  else if match shipped_col cols with
          | None => snd k =? shipped_column cols ws
          | _ => false
          end
       then VStr "Отгруженные"
       else value_at ws k.

Definition demo_updated : res (spec_columns * worksheet) :=
  Eval vm_compute in update_specification russian_sheet demo_items demo_params.

(** ** The whole workflow *)



(** ** Dates *)

(** The three groups of [date_regex]. *)
Definition day_regex : regex :=
  Alt (Cat (Str "3") (Chr (in_range "0" "1")))
    (Alt (Cat (Chr (in_range "1" "2")) digit)
       (Alt (Cat (Str "0") (Chr (in_range "1" "9")))
          (Alt (Chr (in_range "1" "9"))
             (Cat (Str " ") (Chr (in_range "1" "9")))))).

Definition month_regex : regex :=
  Alt (Cat (Str "1") (Chr (in_range "0" "2")))
    (Alt (Cat (Str "0") (Chr (in_range "1" "9")))
       (Chr (in_range "1" "9"))).

Definition year_regex : regex := Cat digit (Cat digit (Cat digit digit)).

(** A day, month and year that exist in the calendar of [datetime]. *)
Definition calendar_date (date : Z * Z * Z) : Prop :=
  let '(d, m, y) := date in
  1 <= y <= 9999 /\ 1 <= m <= 12 /\ 1 <= d <= days_in_month y m.

(** The items read from a sheet; none when it does not parse. *)
Definition df_items (df : dataframe) : list spec_item :=
  match parse_excel_specification (Ok df) with
  | Ok items => items
  | Raise _ => []
  end.

(** The fill a position of the sheet has; an absent cell has none. *)
Definition fill_at (ws : worksheet) (k : Z * Z) : option string :=
  match ws_find ws k with
  | Some x => x_fill x
  | None => None
  end.

(** The fill of a cell below the header row after the update. *)
Definition updated_fill (comparison : list comparison_item) (a shipped : Z)
    (ws : worksheet) (k : Z * Z) : option string :=
  match matched comparison (value_at ws (fst k, a)) with
  | Some item =>
      if (snd k =? shipped) && mem_string (c_status item) ["⬆️"; "🔁"]
      then Some red_fill
      else fill_at ws k
  | None => fill_at ws k
  end.

(** * Properties *)

(** ** Comparison of rationals *)


(** ** Image quality *)






Ltac issue_cases :=
  repeat match goal with
         | H : _ \/ _ |- _ => destruct H
         | H : In _ _ |- _ => cbn in H
         | H : False |- _ => contradiction
         | H : @eq string _ ?x |- _ => first [discriminate H | subst x]
         | H : @eq bool true false |- _ => discriminate H
         | H : @eq bool false true |- _ => discriminate H
         end.



(** ** Marking extraction *)

Lemma append_nonempty (a b : string) : a <> "" -> a ++ b <> "".
Proof. destruct a; [congruence|]. intros _. discriminate. Qed.

Lemma truthy_nonempty (s : string) : truthy (Some s) = true -> s <> "".
Proof.
  cbn. intros H ->. discriminate.
Qed.

Lemma extract_marking_cases (rc : recognition) :
  exists m, extract_marking_from_photo rc = Ok m /\ extracted rc m.
Proof.
  destruct rc as [e|[| |name article dimensions error]].
  - eexists; split; [reflexivity|constructor].
  - eexists; split; [reflexivity|constructor].
  - eexists; split; [reflexivity|constructor].
  - destruct error as [msg|].
    + destruct (truthy (Some msg)) eqn:E.
      * exists (failed_marking msg). split; [|constructor; exact E].
        unfold extract_marking_from_photo, extract_marking_try, parse_marking.
        rewrite E. reflexivity.
      * exists (read_marking name article dimensions).
        split; [|constructor; exact E].
        unfold extract_marking_from_photo, extract_marking_try, parse_marking.
        rewrite E. reflexivity.
    + exists (read_marking name article dimensions).
      split; [reflexivity|constructor; reflexivity].
Qed.

Lemma failed_marking_fields (comment : string) :
  comment <> "" ->
  let m := failed_marking comment in
  m_status m = "❌" /\
  m_readable m = Some false /\
  m_name m = None /\ m_article m = None /\ m_dimensions m = None /\
  exists c, m_comment m = Some c /\ c <> "".
Proof.
  intros H. cbv zeta. unfold failed_marking; cbn [m_status m_readable m_name
    m_article m_dimensions m_comment].
  repeat split. exists comment. split; [reflexivity|exact H].
Qed.

(** C6. [extract_marking_from_photo] returns a record for every outcome
    of the recognition service and never raises. When a call raised, when
    the answer is not JSON or not an object, or when the answer carries an
    error, the record is a failed one: status "❌", not readable, no name,
    no article, no dimensions, and a comment that is not empty. *)
Theorem extract_marking_never_raises (rc : recognition) :
  exists m,
    extract_marking_from_photo rc = Ok m /\
    (recognition_fails rc = true ->
     m_status m = "❌" /\
     m_readable m = Some false /\
     m_name m = None /\ m_article m = None /\ m_dimensions m = None /\
     exists comment, m_comment m = Some comment /\ comment <> "").
Proof.
  destruct (extract_marking_cases rc) as (m & Hm & Hc).
  exists m. split; [exact Hm|]. intros Hf.
  destruct Hc.
  - apply failed_marking_fields, append_nonempty. discriminate.
  - apply failed_marking_fields. discriminate.
  - apply failed_marking_fields, append_nonempty. discriminate.
  - apply failed_marking_fields, truthy_nonempty. assumption.
  - cbn [recognition_fails] in Hf. congruence.
Qed.

Lemma extract_marking_never_raises_witness :
  exists m,
    extract_marking_from_photo
      (Response (JsonObject None None None (Some "blurred"))) = Ok m /\
    m_status m = "❌".
Proof.
  destruct (extract_marking_never_raises
              (Response (JsonObject None None None (Some "blurred"))))
    as (m & Hm & Hf).
  exists m. split; [exact Hm|].
  destruct (Hf eq_refl) as (Hs & _). exact Hs.
Defined.

Lemma tier_rule_failed (comment : string) : tier_rule (failed_marking comment).
Proof.
  unfold tier_rule; cbn.
  repeat split; try discriminate; try tauto; intros [? ?]; congruence.
Qed.

Lemma tier_rule_read (name article dimensions : option string) :
  tier_rule (read_marking name article dimensions).
Proof.
  unfold tier_rule, read_marking.
  destruct name, article; cbn;
    repeat split; try discriminate; try tauto; try congruence;
    try (intros [? ?]; congruence); auto.
Qed.

Lemma tier_rule_unreadable (filename : string) (i : Z) :
  tier_rule (unreadable_marking filename i).
Proof.
  unfold tier_rule; cbn.
  repeat split; try discriminate; try tauto; intros [? ?]; congruence.
Qed.

Lemma tier_rule_meta (filename : string) (i : Z) (comment : string) (m : marking) :
  tier_rule m -> tier_rule (set_marking_meta filename i comment m).
Proof. unfold tier_rule; cbn. tauto. Qed.

Lemma extract_marking_tier (rc : recognition) (m : marking) :
  extract_marking_from_photo rc = Ok m -> tier_rule m.
Proof.
  destruct (extract_marking_cases rc) as (m' & Hm & Hc).
  rewrite Hm. intros [= <-].
  destruct Hc; first [apply tier_rule_failed | apply tier_rule_read].
Qed.

Lemma step3_loop_tier (w : world) (quality : option photo_quality_result)
    (ps : list photo) :
  forall i ms,
    snd (step3_loop w quality i ps) = Ok ms -> Forall tier_rule ms.
Proof.
  induction ps as [|p rest IH]; intros i ms; cbn.
  - intros [= <-]. constructor.
  - destruct quality as [pq|]; [|discriminate].
    destruct (nth_error (pq_photos pq) i) as [qi|]; [|discriminate].
    destruct (negb (q_readable qi)).
    + specialize (IH (S i)).
      destruct (step3_loop w (Some pq) (S i) rest) as [calls r]. cbn in *.
      destruct r as [ms'|]; [|discriminate]. cbn. intros [= <-].
      constructor; [apply tier_rule_unreadable | apply IH; reflexivity].
    + unfold extract_for.
      destruct (extract_marking_from_photo _) as [m|] eqn:E; cbn; [|discriminate].
      destruct (m_readable m) as [b|]; [|discriminate].
      specialize (IH (S i)).
      destruct (step3_loop w (Some pq) (S i) rest) as [calls r]. cbn in *.
      destruct r as [ms'|]; [|discriminate]. cbn. intros [= <-].
      constructor; [|apply IH; reflexivity].
      apply tier_rule_meta. eapply extract_marking_tier, E.
Qed.

(** C3. Every marking record of the pipeline obeys the three-tier rule:
    its status is "✅" iff name and article are both present, "⚠️" iff the
    article is present and the name is absent, and "❌" otherwise (the
    article is absent). This holds for a record returned by
    [extract_marking_from_photo] and for each record step 3 stores, whether
    extracted or made up for an unreadable photo. *)
Theorem marking_tier_rule :
  (forall rc m, extract_marking_from_photo rc = Ok m -> tier_rule m) /\
  (forall filename i, tier_rule (unreadable_marking filename i)) /\
  (forall w s result s',
      step3_extract_markings w s = (Ok result, s') ->
      Forall tier_rule (mr_markings result)).
Proof.
  split; [exact extract_marking_tier|]. split; [exact tier_rule_unreadable|].
  intros w s result s'. unfold step3_extract_markings, step3_try.
  destruct (snd (step3_loop w _ 0 (photos s))) as [ms|e] eqn:E; cbn.
  - intros [= <- _]. cbn. eapply step3_loop_tier, E.
  - discriminate.
Qed.

(** ** Counters *)

Lemma counter_get_set (d : counter) (k k' : string) (v : Z) :
  counter_get (counter_set d k v) k' =
  if String.eqb k k' then v else counter_get d k'.
Proof.
  induction d as [|[k0 v0] d IH]; cbn.
  - destruct (String.eqb k k'); reflexivity.
  - destruct (String.eqb k0 k) eqn:E0; cbn.
    + apply String.eqb_eq in E0. subst k0.
      destruct (String.eqb k k'); reflexivity.
    + destruct (String.eqb k0 k') eqn:E1.
      * apply String.eqb_eq in E1. subst k0.
        rewrite String.eqb_sym, E0. reflexivity.
      * exact IH.
Qed.

Lemma counter_mem_keys (d : counter) (k : string) :
  counter_mem d k = mem_string k (map fst d).
Proof.
  induction d as [|[k0 v0] d IH]; cbn; [reflexivity|].
  rewrite IH, (String.eqb_sym k0 k). reflexivity.
Qed.

Lemma counter_set_keys (d : counter) (k : string) (v : Z) :
  map fst (counter_set d k v) =
  if mem_string k (map fst d) then map fst d else (map fst d ++ [k])%list.
Proof.
  unfold mem_string.
  induction d as [|[k0 v0] d IH]; cbn; [reflexivity|].
  rewrite (String.eqb_sym k k0).
  destruct (String.eqb k0 k); cbn; [reflexivity|].
  rewrite IH. destruct (existsb (String.eqb k) (map fst d)); reflexivity.
Qed.

Lemma mem_string_In (x : string) (l : list string) :
  mem_string x l = true <-> In x l.
Proof.
  unfold mem_string. rewrite existsb_exists. split.
  - intros (y & Hy & E). apply String.eqb_eq in E. subst. exact Hy.
  - intros H. exists x. split; [exact H|apply String.eqb_refl].
Qed.

Lemma mem_string_not_In (x : string) (l : list string) :
  mem_string x l = false <-> ~ In x l.
Proof.
  rewrite <- mem_string_In. destruct (mem_string x l); split; congruence.
Qed.

Lemma occurrences_cons (a x : string) (l : list string) :
  occurrences a (x :: l) = (if String.eqb a x then 1 else 0) + occurrences a l.
Proof.
  unfold occurrences, count_if. cbn.
  destruct (String.eqb a x); cbn [List.length]; lia.
Qed.

Lemma occurrences_nonneg (a : string) (l : list string) : 0 <= occurrences a l.
Proof. unfold occurrences, count_if. lia. Qed.

Lemma occurrences_pos (a : string) (l : list string) :
  In a l <-> 1 <= occurrences a l.
Proof.
  induction l as [|x l IH].
  - cbn. split; [contradiction|]. unfold occurrences, count_if. cbn. lia.
  - rewrite occurrences_cons. pose proof (occurrences_nonneg a l).
    cbn. destruct (String.eqb a x) eqn:E.
    + apply String.eqb_eq in E. subst. split; [lia|auto].
    + apply String.eqb_neq in E. rewrite IH. split.
      * intros [->|]; [congruence|lia].
      * intros. right. lia.
Qed.

Lemma tally_get (l : list string) :
  forall d a, counter_get (tally l d) a = counter_get d a + occurrences a l.
Proof.
  induction l as [|x l IH]; intros d a.
  - unfold occurrences, count_if. cbn. lia.
  - cbn [tally fold_left]. fold (tally l (counter_incr d x)).
    rewrite IH, occurrences_cons. unfold counter_incr.
    rewrite counter_get_set, (String.eqb_sym a x).
    destruct (String.eqb x a) eqn:E; [|lia].
    apply String.eqb_eq in E. subst. lia.
Qed.

Lemma filter_filter {A : Type} (p q : A -> bool) (l : list A) :
  filter p (filter q l) = filter (fun x => q x && p x) l.
Proof.
  induction l as [|x l IH]; cbn; [reflexivity|].
  destruct (q x); cbn; [destruct (p x)|]; rewrite IH; reflexivity.
Qed.

Lemma unseen_app (seen : list string) (x a : string) :
  unseen (seen ++ [x]) a = negb (String.eqb a x) && unseen seen a.
Proof.
  unfold unseen, mem_string. rewrite existsb_app. cbn.
  rewrite orb_false_r, negb_orb. apply andb_comm.
Qed.

Lemma tally_keys (l : list string) :
  forall d,
    map fst (tally l d) =
    (map fst d ++ filter (unseen (map fst d)) (first_occurrences l))%list.
Proof.
  induction l as [|x l IH]; intros d.
  - cbn. rewrite app_nil_r. reflexivity.
  - cbn [tally fold_left]. fold (tally l (counter_incr d x)).
    rewrite IH. unfold counter_incr. rewrite counter_set_keys.
    cbn [first_occurrences filter].
    assert (Hx : unseen (map fst d) x = negb (mem_string x (map fst d)))
      by reflexivity.
    rewrite Hx. clear Hx.
    destruct (mem_string x (map fst d)) eqn:E; cbn [negb].
    + f_equal. rewrite filter_filter. apply filter_ext_in.
      intros a _. unfold unseen.
      destruct (String.eqb a x) eqn:Ea; [|reflexivity].
      apply String.eqb_eq in Ea. subst. rewrite E. reflexivity.
    + rewrite <- app_assoc. cbn [app]. do 2 f_equal.
      rewrite filter_filter. apply filter_ext. intros a. apply unseen_app.
Qed.

Lemma first_occurrences_In (l : list string) (a : string) :
  In a (first_occurrences l) <-> In a l.
Proof.
  induction l as [|x l IH]; cbn; [reflexivity|].
  rewrite filter_In, IH, negb_true_iff.
  destruct (String.eqb a x) eqn:E.
  - apply String.eqb_eq in E. subst. split; auto.
  - apply String.eqb_neq in E. split.
    + intros [->|[H _]]; [congruence|auto].
    + intros [->|H]; [congruence|auto].
Qed.

Lemma first_occurrences_NoDup (l : list string) : NoDup (first_occurrences l).
Proof.
  induction l as [|x l IH]; cbn; constructor.
  - rewrite filter_In, negb_true_iff, String.eqb_refl. intros [_ H]. discriminate.
  - apply NoDup_filter, IH.
Qed.

(** ** Comparison with the specification *)

Lemma count_actual_tally (ms : list marking) :
  forall d d',
    count_actual ms d = Ok d' -> d' = tally (counted_articles ms) d.
Proof.
  induction ms as [|m ms IH]; intros d d'; cbn [count_actual].
  - intros [= <-]. reflexivity.
  - unfold counted_articles. cbn [flat_map]. fold (counted_articles ms).
    unfold counted, article_key, truthy.
    destruct (m_article m) as [a|]; [|apply IH].
    destruct (String.eqb a ""); cbn [negb].
    + destruct (m_readable m) as [[|]|]; apply IH.
    + destruct (m_readable m) as [[|]|]; [|apply IH|discriminate].
      intros H. apply IH in H. exact H.
Qed.

Lemma step5_inv (w : world) (s s' : session) (result : comparison_result) :
  step5_compare_specification w s = (Ok result, s') ->
  exists path spec mr actual_count,
    specification s = Some path /\
    parse_excel_specification (excel_at w path) = Ok spec /\
    r_markings (session_results s) = Some mr /\
    count_actual (mr_markings mr) [] = Ok actual_count /\
    cmp_comparison result =
      (map (compare_item actual_count) spec
         ++ extra_items actual_count (map si_article spec))%list /\
    result = summarize (cmp_comparison result).
Proof.
  unfold step5_compare_specification.
  destruct (step5_try w s) as [r|e] eqn:E; [|discriminate].
  intros [= -> _]. unfold step5_try in E.
  destruct (specification s) as [path|]; [|discriminate].
  destruct (truthy (Some path)); [|discriminate].
  destruct (r_markings (session_results s)) as [mr|]; [|discriminate].
  destruct (parse_excel_specification (excel_at w path)) as [spec|] eqn:Ep;
    [|discriminate].
  cbn [bind] in E. unfold compare in E.
  destruct (count_actual (mr_markings mr) []) as [ac|] eqn:Ec; [|discriminate].
  cbn [bind] in E. injection E as <-.
  exists path, spec, mr, ac. cbn [cmp_comparison summarize].
  split; [reflexivity|]. split; [exact Ep|]. split; [reflexivity|].
  split; [exact Ec|]. split; reflexivity.
Qed.

Ltac classify :=
  repeat split; intros;
  try discriminate; try tauto; try lia; try contradiction;
  try match goal with
      | H : _ /\ _ |- _ => destruct H; try lia; try contradiction
      end.

Lemma compare_item_classified (spec : list spec_item) (d : counter)
    (item : spec_item) :
  In item spec -> classified spec (compare_item d item).
Proof.
  intros Hin.
  assert (Hs : in_specification spec (si_article item)) by (apply in_map, Hin).
  unfold classified, compare_item. cbn.
  set (diff := counter_get d (si_article item) - si_quantity item).
  destruct (diff =? 0) eqn:E0; [apply Z.eqb_eq in E0|apply Z.eqb_neq in E0].
  - classify.
  - destruct (diff <? 0) eqn:E1; [apply Z.ltb_lt in E1|apply Z.ltb_ge in E1];
      classify.
Qed.

Lemma extra_item_classified (spec : list spec_item) (d : counter)
    (article : string) :
  1 <= counter_get d article ->
  ~ in_specification spec article ->
  classified spec (extra_item d article).
Proof.
  intros Hpos Hout. unfold classified, extra_item. cbn. classify.
Qed.

Lemma extra_items_In (d : counter) (spec_articles : list string)
    (c : comparison_item) :
  In c (extra_items d spec_articles) ->
  exists article,
    c = extra_item d article /\ In article (map fst d) /\
    ~ In article spec_articles.
Proof.
  unfold extra_items. rewrite in_map_iff.
  intros (a & <- & H). apply filter_In in H. destruct H as [H1 H2].
  exists a. split; [reflexivity|]. split; [exact H1|].
  apply negb_true_iff in H2. apply mem_string_not_In, H2.
Qed.

Lemma tally_key_positive (l : list string) (a : string) :
  In a (map fst (tally l [])) -> 1 <= counter_get (tally l []) a.
Proof.
  rewrite tally_keys, tally_get. cbn [map app counter_get].
  rewrite filter_In, first_occurrences_In, occurrences_pos. lia.
Qed.

Lemma comparison_classified (spec : list spec_item) (ms : list marking)
    (actual_count : counter) :
  count_actual ms [] = Ok actual_count ->
  Forall (classified spec)
    (map (compare_item actual_count) spec
       ++ extra_items actual_count (map si_article spec)).
Proof.
  intros Hc. apply count_actual_tally in Hc. subst actual_count.
  apply Forall_app. split; apply Forall_forall; intros c Hin.
  - apply in_map_iff in Hin. destruct Hin as (item & <- & Hin).
    apply compare_item_classified, Hin.
  - apply extra_items_In in Hin. destruct Hin as (a & -> & Hk & Hout).
    apply extra_item_classified; [apply tally_key_positive, Hk|exact Hout].
Qed.

(** *** A run of the workflow *)

Lemma step3_loop_countable (w : world) (quality : option photo_quality_result)
    (ps : list photo) :
  forall i ms,
    snd (step3_loop w quality i ps) = Ok ms -> Forall countable ms.
Proof.
  induction ps as [|p rest IH]; intros i ms; cbn [step3_loop].
  - intros [= <-]. constructor.
  - destruct quality as [pq|]; [|discriminate].
    destruct (nth_error (pq_photos pq) i) as [qi|]; [|discriminate].
    destruct (negb (q_readable qi)).
    + specialize (IH (S i)).
      destruct (step3_loop w (Some pq) (S i) rest) as [calls r]. cbn [snd] in *.
      destruct r as [ms'|]; [|discriminate]. cbn [bind]. intros [= <-].
      constructor; [left; reflexivity|apply IH; reflexivity].
    + unfold extract_for.
      destruct (extract_marking_from_photo _) as [m|]; cbn [bind snd];
        [|discriminate].
      destruct (m_readable m) as [b|] eqn:Er; [|discriminate].
      specialize (IH (S i)).
      destruct (step3_loop w (Some pq) (S i) rest) as [calls r]. cbn [snd] in *.
      destruct r as [ms'|]; [|discriminate]. cbn [bind]. intros [= <-].
      constructor; [|apply IH; reflexivity].
      right. exists b. exact Er.
Qed.

Lemma count_actual_ok (ms : list marking) :
  Forall countable ms ->
  forall d, exists d', count_actual ms d = Ok d'.
Proof.
  induction 1 as [|m ms Hm Hms IH]; intros d; cbn [count_actual]; [eauto|].
  unfold article_key. destruct Hm as [->|(b & Hb)]; [apply IH|].
  destruct (m_article m) as [a|]; [|apply IH].
  destruct (truthy (Some a)); [|apply IH].
  rewrite Hb. destruct b; apply IH.
Qed.

(** Step 5 returns a comparison whenever it runs on the markings step 3
    stored and the specification file is there and parses. *)
Lemma step5_returns_after_step3 (w : world) (s0 s : session)
    (stored : markings_result) (path : string) (spec : list spec_item) :
  step3_extract_markings w s0 = (Ok stored, s) ->
  specification s = Some path -> path <> "" ->
  parse_excel_specification (excel_at w path) = Ok spec ->
  exists result, fst (step5_compare_specification w s) = Ok result.
Proof.
  unfold step3_extract_markings, step3_try.
  destruct (snd (step3_loop w _ 0 (photos s0))) as [ms|e] eqn:E;
    cbn [bind]; [|discriminate].
  intros [= <- <-] Hs Hp Hparse.
  apply step3_loop_countable in E.
  unfold step5_compare_specification, step5_try.
  cbn [specification set_step set_results] in *. rewrite Hs.
  assert (Htr : truthy (Some path) = true).
  { cbn. destruct (String.eqb path "") eqn:Ep; [|reflexivity].
    apply String.eqb_eq in Ep. contradiction. }
  rewrite Htr, Hparse. cbn [bind]. unfold compare.
  cbn [session_results r_markings set_markings set_step set_results mr_markings].
  destruct (count_actual_ok ms E []) as (d & ->). cbn [bind fst]. eauto.
Qed.

(** C1. In every record of a comparison step 5 returns, the difference is
    actual minus planned, and the status is "✅" iff the difference is 0,
    "⬇️" iff it is negative, "⬆️" iff it is positive and the article is in
    the specification, "🔁" iff the article is not in the specification,
    in which case planned is 0 and the difference is the actual count.
    Step 5 does return a comparison whenever it runs on the markings
    step 3 stored and the specification file is there and parses.
    For the specification A1: 10, A2: 5 and markings that count A1 ten
    times, A2 seven times and A3 twice, the comparison is A1 "✅" 0,
    A2 "⬆️" +2, A3 "🔁" +2, with one match, no shortage, one excess and
    one article outside the specification. *)
Theorem comparison_classification :
  (forall w s result s',
      step5_compare_specification w s = (Ok result, s') ->
      exists path spec,
        specification s = Some path /\
        parse_excel_specification (excel_at w path) = Ok spec /\
        Forall (classified spec) (cmp_comparison result)) /\
  (forall w s0 s stored path spec,
      step3_extract_markings w s0 = (Ok stored, s) ->
      specification s = Some path -> path <> "" ->
      parse_excel_specification (excel_at w path) = Ok spec ->
      exists result, fst (step5_compare_specification w s) = Ok result) /\
  (exists result,
      run_to_comparison demo_world demo_session = Ok result /\
      map (fun c => (c_article c, c_planned c, c_actual c, c_difference c, c_status c))
        (cmp_comparison result) =
        [ ("A1", 10, 10, 0, "✅"); ("A2", 5, 7, 2, "⬆️"); ("A3", 0, 2, 2, "🔁") ] /\
      cmp_exact_match result = 1 /\ cmp_shortage result = 0 /\
      cmp_excess result = 1 /\ cmp_extra_articles result = 1).
Proof.
  split; [|split].
  - intros w s result s' H.
    apply step5_inv in H.
    destruct H as (path & spec & mr & ac & Hs & Hp & _ & Hc & Hl & _).
    exists path, spec. split; [exact Hs|]. split; [exact Hp|].
    rewrite Hl. eapply comparison_classified, Hc.
  - exact step5_returns_after_step3.
  - eexists. split; [vm_compute; reflexivity|].
    vm_compute. repeat split.
Qed.

Lemma comparison_classification_witness :
  exists path spec,
    specification demo_before_comparison = Some path /\
    parse_excel_specification (excel_at demo_world path) = Ok spec /\
    Forall (classified spec)
      (match fst demo_after_comparison with
       | Ok result => cmp_comparison result
       | Raise _ => []
       end).
Proof.
  destruct demo_after_comparison as [[result|e] s'] eqn:E; [|discriminate E].
  apply (proj1 comparison_classification demo_world demo_before_comparison result s').
  vm_compute. vm_compute in E. exact E.
Defined.

Lemma occurrences_app (a : string) (l1 l2 : list string) :
  occurrences a (l1 ++ l2) = occurrences a l1 + occurrences a l2.
Proof.
  unfold occurrences, count_if. rewrite filter_app, length_app. lia.
Qed.

Lemma count_if_cons {A : Type} (p : A -> bool) (x : A) (l : list A) :
  count_if p (x :: l) = (if p x then 1 else 0) + count_if p l.
Proof.
  unfold count_if. cbn [filter]. destruct (p x); cbn [List.length]; lia.
Qed.

Lemma occurrences_counted (a : string) (ms : list marking) :
  occurrences a (counted_articles ms) = count_if (counts_as a) ms.
Proof.
  induction ms as [|m ms IH]; [reflexivity|].
  unfold counted_articles. cbn [flat_map]. fold (counted_articles ms).
  rewrite occurrences_app, IH, count_if_cons. clear IH. f_equal.
  unfold counted, counts_as.
  destruct (m_article m) as [x|]; [|reflexivity].
  destruct (m_readable m) as [[|]|]; try reflexivity.
  destruct (String.eqb x ""); cbn [negb andb]; [reflexivity|].
  rewrite occurrences_cons, (String.eqb_sym a).
  destruct (String.eqb (strip x) a); reflexivity.
Qed.

Lemma occurrences_filter (p : string -> bool) (a : string) (l : list string) :
  occurrences a (filter p l) = if p a then occurrences a l else 0.
Proof.
  unfold occurrences, count_if. rewrite filter_filter.
  destruct (p a) eqn:E.
  - f_equal. f_equal. apply filter_ext_in. intros x _.
    destruct (String.eqb a x) eqn:Ex; [|apply andb_false_r].
    apply String.eqb_eq in Ex. subst. rewrite E. reflexivity.
  - replace (filter _ l) with (@nil string); [reflexivity|].
    symmetry. induction l as [|x l IH]; [reflexivity|]. cbn.
    destruct (String.eqb a x) eqn:Ex.
    + apply String.eqb_eq in Ex. subst. rewrite E. exact IH.
    + rewrite andb_false_r. exact IH.
Qed.

Lemma occurrences_NoDup (a : string) (l : list string) :
  NoDup l -> occurrences a l = if mem_string a l then 1 else 0.
Proof.
  induction 1 as [|x l Hx Hl IH]; [reflexivity|].
  rewrite occurrences_cons, IH. unfold mem_string. cbn.
  destruct (String.eqb a x) eqn:E; cbn; [|reflexivity].
  apply String.eqb_eq in E. subst.
  apply mem_string_not_In in Hx. unfold mem_string in Hx. rewrite Hx. reflexivity.
Qed.

Lemma filter_unseen_nil (l : list string) : filter (unseen []) l = l.
Proof.
  induction l as [|x l IH]; [reflexivity|]. cbn. rewrite IH. reflexivity.
Qed.

Lemma comparison_articles (spec : list spec_item) (ms : list marking)
    (actual_count : counter) :
  count_actual ms [] = Ok actual_count ->
  map c_article
    (map (compare_item actual_count) spec
       ++ extra_items actual_count (map si_article spec)) =
  (map si_article spec
     ++ filter (unseen (map si_article spec))
          (first_occurrences (counted_articles ms)))%list.
Proof.
  intros Hc. apply count_actual_tally in Hc. subst actual_count.
  rewrite map_app, map_map. cbn [compare_item c_article].
  f_equal. unfold extra_items. rewrite map_map. cbn [extra_item c_article].
  rewrite map_id, tally_keys. cbn [map app]. rewrite filter_unseen_nil.
  reflexivity.
Qed.

Lemma comparison_actual (spec : list spec_item) (ms : list marking)
    (actual_count : counter) (c : comparison_item) :
  count_actual ms [] = Ok actual_count ->
  In c (map (compare_item actual_count) spec
          ++ extra_items actual_count (map si_article spec)) ->
  c_actual c = count_if (counts_as (c_article c)) ms.
Proof.
  intros Hc Hin. apply count_actual_tally in Hc. subst actual_count.
  rewrite <- occurrences_counted.
  apply in_app_or in Hin. destruct Hin as [Hin|Hin].
  - apply in_map_iff in Hin. destruct Hin as (item & <- & _).
    cbn. rewrite tally_get. reflexivity.
  - apply extra_items_In in Hin. destruct Hin as (a & -> & _).
    cbn. rewrite tally_get. reflexivity.
Qed.

(** C4. The actual count step 5 gives an article is the number of
    markings that are readable and carry that article as a non-empty text
    (stripped); a marking that is not readable is never counted, whatever
    its article. The comparison lists the specification items first, in
    the order of the specification, and after them the counted articles
    the specification lacks, in the order in which the markings first show
    them. *)
Theorem comparison_counts_and_order :
  forall w s result s',
    step5_compare_specification w s = (Ok result, s') ->
    exists path spec mr,
      specification s = Some path /\
      parse_excel_specification (excel_at w path) = Ok spec /\
      r_markings (session_results s) = Some mr /\
      (forall c, In c (cmp_comparison result) ->
         c_actual c = count_if (counts_as (c_article c)) (mr_markings mr)) /\
      (forall a m, m_readable m = Some false -> counts_as a m = false) /\
      map c_article (cmp_comparison result) =
        (map si_article spec
           ++ filter (fun a => negb (mem_string a (map si_article spec)))
                (first_occurrences (counted_articles (mr_markings mr))))%list /\
      map c_planned (firstn (List.length spec) (cmp_comparison result)) =
        map si_quantity spec.
Proof.
  intros w s result s' H. apply step5_inv in H.
  destruct H as (path & spec & mr & ac & Hs & Hp & Hm & Hc & Hl & _).
  exists path, spec, mr.
  split; [exact Hs|]. split; [exact Hp|]. split; [exact Hm|].
  rewrite Hl. split; [|split; [|split]].
  - intros c Hin. eapply comparison_actual; eassumption.
  - intros a m Hr. unfold counts_as. rewrite Hr.
    destruct (m_article m); reflexivity.
  - apply comparison_articles, Hc.
  - rewrite <- (length_map (compare_item ac) spec), firstn_app, Nat.sub_diag.
    cbn [firstn]. rewrite app_nil_r, firstn_all, map_map. reflexivity.
Qed.

Lemma comparison_counts_and_order_witness :
  exists path spec mr,
    specification demo_before_comparison = Some path /\
    parse_excel_specification (excel_at demo_world path) = Ok spec /\
    r_markings (session_results demo_before_comparison) = Some mr /\
    map c_article
      (match fst demo_after_comparison with
       | Ok result => cmp_comparison result
       | Raise _ => []
       end) =
      (map si_article spec
         ++ filter (fun a => negb (mem_string a (map si_article spec)))
              (first_occurrences (counted_articles (mr_markings mr))))%list.
Proof.
  destruct demo_after_comparison as [[result|e] s'] eqn:E; [|discriminate E].
  destruct (comparison_counts_and_order demo_world demo_before_comparison result s')
    as (path & spec & mr & H1 & H2 & H3 & _ & _ & H4 & _).
  - vm_compute. vm_compute in E. exact E.
  - exists path, spec, mr. repeat split; assumption.
Defined.

(** *** Entries per article *)

(** C5, as stated, fails: a specification sheet that lists the article A1
    in two rows parses to two items, and the comparison has two entries
    for A1, not one. *)
Lemma duplicate_articles_counterexample :
  ~ (forall w s result s',
        step5_compare_specification w s = (Ok result, s') ->
        forall path spec a,
          specification s = Some path ->
          parse_excel_specification (excel_at w path) = Ok spec ->
          In a (map si_article spec) ->
          occurrences a (map c_article (cmp_comparison result)) = 1).
Proof.
  intros H.
  destruct (step5_compare_specification duplicate_world duplicate_session)
    as [[result|e] s'] eqn:E; [|discriminate E].
  specialize (H duplicate_world duplicate_session result s' E
                "uploads/specification.xlsx"
                [mk_spec_item "A1" 10 ""; mk_spec_item "A1" 5 ""] "A1"
                eq_refl eq_refl (or_introl eq_refl)).
  vm_compute in E. injection E as <- _. vm_compute in H. discriminate H.
Qed.

(** C5, amended. The comparison has one entry for every item of the
    specification, so an article the specification lists n times has n
    entries, and exactly one entry for every counted article the
    specification lacks. When the articles of the specification are
    pairwise distinct, the comparison therefore has exactly one entry for
    each article of the specification or of the counted markings. *)
Theorem comparison_entries_per_article :
  forall w s result s',
    step5_compare_specification w s = (Ok result, s') ->
    exists path spec mr,
      specification s = Some path /\
      parse_excel_specification (excel_at w path) = Ok spec /\
      r_markings (session_results s) = Some mr /\
      let articles := map c_article (cmp_comparison result) in
      let planned := map si_article spec in
      let observed := counted_articles (mr_markings mr) in
      (forall a,
          occurrences a articles =
          if mem_string a planned then occurrences a planned
          else if mem_string a observed then 1 else 0) /\
      (NoDup planned ->
       forall a,
         occurrences a articles =
         if mem_string a planned || mem_string a observed then 1 else 0).
Proof.
  intros w s result s' H. apply step5_inv in H.
  destruct H as (path & spec & mr & ac & Hs & Hp & Hm & Hc & Hl & _).
  exists path, spec, mr.
  split; [exact Hs|]. split; [exact Hp|]. split; [exact Hm|].
  cbv zeta. rewrite Hl, (comparison_articles _ _ _ Hc).
  assert (Hocc : forall a,
    occurrences a
      (map si_article spec
         ++ filter (unseen (map si_article spec))
              (first_occurrences (counted_articles (mr_markings mr)))) =
    if mem_string a (map si_article spec)
    then occurrences a (map si_article spec)
    else if mem_string a (counted_articles (mr_markings mr)) then 1 else 0).
  { intros a. rewrite occurrences_app, occurrences_filter.
    rewrite (occurrences_NoDup _ _ (first_occurrences_NoDup _)).
    unfold unseen.
    assert (Hfo : mem_string a (first_occurrences (counted_articles (mr_markings mr)))
                  = mem_string a (counted_articles (mr_markings mr))).
    { destruct (mem_string a (counted_articles (mr_markings mr))) eqn:E.
      - apply mem_string_In, first_occurrences_In, mem_string_In, E.
      - apply mem_string_not_In. rewrite first_occurrences_In.
        apply mem_string_not_In, E. }
    rewrite Hfo.
    destruct (mem_string a (map si_article spec)) eqn:E; cbn [negb]; [lia|].
    apply mem_string_not_In in E.
    assert (occurrences a (map si_article spec) = 0).
    { pose proof (occurrences_nonneg a (map si_article spec)).
      pose proof (proj2 (occurrences_pos a (map si_article spec))).
      destruct (Z.eq_dec (occurrences a (map si_article spec)) 0); [assumption|].
      exfalso. apply E, H0. lia. }
    lia. }
  split; [exact Hocc|].
  intros Hnd a. rewrite Hocc, (occurrences_NoDup _ _ Hnd).
  destruct (mem_string a (map si_article spec)); reflexivity.
Qed.

Lemma comparison_entries_per_article_witness :
  exists path spec mr,
    specification demo_before_comparison = Some path /\
    parse_excel_specification (excel_at demo_world path) = Ok spec /\
    r_markings (session_results demo_before_comparison) = Some mr /\
    NoDup (map si_article spec) /\
    forall a,
      occurrences a
        (map c_article
           (match fst demo_after_comparison with
            | Ok result => cmp_comparison result
            | Raise _ => []
            end)) =
      if mem_string a (map si_article spec)
         || mem_string a (counted_articles (mr_markings mr))
      then 1 else 0.
Proof.
  destruct demo_after_comparison as [[result|e] s'] eqn:E; [|discriminate E].
  destruct (comparison_entries_per_article demo_world demo_before_comparison result s')
    as (path & spec & mr & H1 & H2 & H3 & _ & H4).
  - vm_compute. vm_compute in E. exact E.
  - exists path, spec, mr.
    split; [exact H1|]. split; [exact H2|]. split; [exact H3|].
    assert (Hnd : NoDup (map si_article spec)).
    { vm_compute in H1. injection H1 as <-. vm_compute in H2.
      injection H2 as <-. cbn.
      repeat constructor; cbn; intuition discriminate. }
    split; [exact Hnd|]. exact (H4 Hnd).
Defined.

(** ** Unreadable photos *)

Lemma readable_iff_no_issue (img : decoded) :
  q_readable (check_image_quality img) = true <->
  q_issues (check_image_quality img) = [].
Proof.
  unfold check_image_quality.
  destruct (check_image_quality_try img) as [q|e] eqn:E.
  - destruct img as [e|width height pixels]; [discriminate|].
    unfold check_image_quality_try in E.
    destruct (py_div _ _) as [avg|]; [|discriminate]. cbn [bind] in E.
    destruct (py_div _ _) as [var|]; [|discriminate]. cbn [bind] in E.
    injection E as <-. cbn [q_readable q_issues].
    match goal with |- context [(List.length ?l =? 0)%nat] => destruct l end;
      cbn; split; congruence.
  - cbn. split; discriminate.
Qed.

Lemma marginal_status (img : decoded) :
  List.length (q_issues (check_image_quality img)) = 1%nat ->
  q_readable (check_image_quality img) = false /\
  (q_status (check_image_quality img) = "⚠️" \/
   exists e, check_image_quality_try img = Raise e).
Proof.
  intros H. split.
  - destruct (q_readable (check_image_quality img)) eqn:E; [|reflexivity].
    apply readable_iff_no_issue in E. rewrite E in H. discriminate H.
  - revert H. unfold check_image_quality.
    destruct (check_image_quality_try img) as [q|e] eqn:E; [|eauto].
    intros H. left.
    destruct img as [e|width height pixels]; [discriminate|].
    unfold check_image_quality_try in E.
    destruct (py_div _ _) as [avg|]; [|discriminate]. cbn [bind] in E.
    destruct (py_div _ _) as [var|]; [|discriminate]. cbn [bind] in E.
    injection E as <-. cbn [q_issues] in H. cbn [q_status].
    rewrite H. reflexivity.
Qed.

Lemma step2_loop_nth (w : world) (ps : list photo) :
  forall k i p,
    nth_error ps i = Some p ->
    exists q,
      nth_error (step2_loop w k ps) i = Some q /\
      q_readable q = q_readable (check_image_quality (image_at w (p_path p))).
Proof.
  induction ps as [|p0 ps IH]; intros k [|i] p; cbn; try discriminate.
  - intros [= ->]. eexists. split; reflexivity.
  - apply IH.
Qed.

Lemma extract_for_ok (w : world) (p : photo) (i : Z) :
  exists m, extract_for w p i = Ok m.
Proof.
  unfold extract_for.
  destruct (extract_marking_cases (recognition_at w (p_path p))) as (m & -> & Hc).
  cbn [bind]. destruct Hc; cbn [m_readable failed_marking]; eauto.
  unfold read_marking.
  destruct (is_not_None name && is_not_None article);
    [|destruct (is_not_None article)]; cbn [m_readable]; eauto.
Qed.

(** The loop of step 3 over photos whose quality results are in place. *)
Lemma step3_loop_spec (w : world) (pq : photo_quality_result) (ps : list photo) :
  forall j,
    (forall i p, nth_error ps i = Some p ->
                 exists q, nth_error (pq_photos pq) (j + i) = Some q) ->
    exists ms,
      snd (step3_loop w (Some pq) j ps) = Ok ms /\
      (forall i p q,
          nth_error ps i = Some p ->
          nth_error (pq_photos pq) (j + i) = Some q ->
          q_readable q = false ->
          nth_error ms i = Some (unreadable_marking (p_filename p) (Z.of_nat (j + i)))) /\
      (forall k, In k (fst (step3_loop w (Some pq) j ps)) ->
                 exists q, nth_error (pq_photos pq) k = Some q /\ q_readable q = true).
Proof.
  induction ps as [|p0 ps IH]; intros j Hq.
  - exists []. cbn. split; [reflexivity|]. split; [|contradiction].
    intros [|i]; discriminate.
  - destruct (Hq 0%nat p0 eq_refl) as (q0 & Hq0). rewrite Nat.add_0_r in Hq0.
    destruct (IH (S j)) as (ms & Hms & Hun & Hcalls).
    { intros i p Hp. rewrite Nat.add_succ_l, <- Nat.add_succ_r. apply (Hq (S i) p Hp). }
    cbn [step3_loop]. rewrite Hq0.
    destruct (q_readable q0) eqn:Er; cbn [negb].
    + destruct (extract_for_ok w p0 (Z.of_nat j)) as (m & ->).
      destruct (step3_loop w (Some pq) (S j) ps) as [calls r].
      cbn [fst snd] in *. subst r. cbn [bind].
      exists (m :: ms). split; [reflexivity|]. split.
      * intros [|i] p q Hp Hn Hr.
        -- rewrite Nat.add_0_r in Hn. congruence.
        -- cbn. rewrite Nat.add_succ_r, <- Nat.add_succ_l in *. eapply Hun; eassumption.
      * intros k [<-|Hk]; [eauto|apply Hcalls, Hk].
    + destruct (step3_loop w (Some pq) (S j) ps) as [calls r].
      cbn [fst snd] in *. subst r. cbn [bind].
      exists (unreadable_marking (p_filename p0) (Z.of_nat j) :: ms).
      split; [reflexivity|]. split.
      * intros [|i] p q Hp Hn Hr.
        -- cbn in Hp. injection Hp as <-. rewrite Nat.add_0_r. reflexivity.
        -- cbn. rewrite Nat.add_succ_r, <- Nat.add_succ_l in *. eapply Hun; eassumption.
      * exact Hcalls.
Qed.

Lemma count_actual_skip (m : marking) (before after : list marking) :
  article_key m = None ->
  forall d, count_actual (before ++ m :: after) d = count_actual (before ++ after) d.
Proof.
  intros Hm. induction before as [|m0 before IH]; intros d.
  - cbn. rewrite Hm. reflexivity.
  - cbn. destruct (article_key m0); [|apply IH].
    destruct (m_readable m0) as [[|]|]; [apply IH|apply IH|reflexivity].
Qed.

(** C10. A photo whose quality assessment has exactly one issue is not
    readable (its status is "⚠️" when the assessment itself went through).
    Step 3, run after step 2, does not call the extraction adapter for it
    and stores for it the record with status "❌", no article and the
    comment "Фото нечитаемо"; taking that record out of the markings
    changes nothing in the comparison of step 5. *)
Theorem marginal_photo_is_skipped :
  forall w s i p,
    nth_error (photos s) i = Some p ->
    let q := check_image_quality (image_at w (p_path p)) in
    List.length (q_issues q) = 1%nat ->
    let s2 := snd (step2_check_photo_quality w s) in
    q_readable q = false /\
    (q_status q = "⚠️" \/
     exists e, check_image_quality_try (image_at w (p_path p)) = Raise e) /\
    ~ In i (step3_adapter_calls w s2) /\
    exists result before after,
      fst (step3_extract_markings w s2) = Ok result /\
      mr_markings result =
        (before ++ unreadable_marking (p_filename p) (Z.of_nat i) :: after)%list /\
      List.length before = i /\
      m_status (unreadable_marking (p_filename p) (Z.of_nat i)) = "❌" /\
      m_comment (unreadable_marking (p_filename p) (Z.of_nat i)) = Some "Фото нечитаемо" /\
      (forall a, counts_as a (unreadable_marking (p_filename p) (Z.of_nat i)) = false) /\
      forall spec,
        compare spec (mr_markings result) = compare spec (before ++ after).
Proof.
  intros w s i p Hp q Hone s2. subst q.
  destruct (marginal_status _ Hone) as [Hr Hst].
  split; [exact Hr|]. split; [exact Hst|].
  destruct (step2_loop_nth w (photos s) 0 i p Hp) as (qi & Hqi & Hqr).
  rewrite Hr in Hqr.
  set (pq := {| pq_success := true;
                pq_photos := step2_loop w 0 (photos s);
                pq_total := len (step2_loop w 0 (photos s));
                pq_readable :=
                  len (step2_loop w 0 (photos s))
                  - count_if (fun q => negb (q_readable q)) (step2_loop w 0 (photos s));
                pq_unreadable :=
                  count_if (fun q => negb (q_readable q)) (step2_loop w 0 (photos s)) |}).
  destruct (step3_loop_spec w pq (photos s) 0) as (ms & Hms & Hun & Hcalls).
  { intros i0 p0 Hp0.
    destruct (step2_loop_nth w (photos s) 0 i0 p0 Hp0) as (q0 & Hq0 & _).
    exists q0. exact Hq0. }
  assert (Hnth : nth_error ms i = Some (unreadable_marking (p_filename p) (Z.of_nat i))).
  { apply (Hun i p qi Hp Hqi Hqr). }
  split.
  - intros Hin. unfold step3_adapter_calls in Hin. cbn in Hin.
    fold pq in Hin. destruct (Hcalls i Hin) as (q' & Hq' & Hr').
    cbn [pq pq_photos] in Hq'. congruence.
  - destruct (nth_error_split ms i Hnth) as (before & after & Hsplit & Hlen).
    eexists _, before, after. split.
    + unfold step3_extract_markings, step3_try. cbn [s2 step2_check_photo_quality snd
        set_step set_results session_results r_photo_quality set_photo_quality photos].
      fold pq. rewrite Hms. cbn [bind fst]. reflexivity.
    + cbn [mr_markings]. split; [exact Hsplit|]. split; [exact Hlen|].
      split; [reflexivity|]. split; [reflexivity|]. split; [reflexivity|].
      intros spec. unfold compare. rewrite Hsplit.
      rewrite count_actual_skip; reflexivity.
Qed.

Lemma marginal_photo_is_skipped_witness :
  q_status (check_image_quality (image_at marginal_world "uploads/small.jpg")) = "⚠️" /\
  ~ In 0%nat
      (step3_adapter_calls marginal_world
         (snd (step2_check_photo_quality marginal_world marginal_session))).
Proof.
  split; [vm_compute; reflexivity|].
  apply (marginal_photo_is_skipped marginal_world marginal_session 0
           (mk_photo "uploads/small.jpg" "small.jpg") eq_refl).
  vm_compute. reflexivity.
Defined.

(** ** Prerequisites of the steps *)

(** C2, as stated, fails for step 2: on a session whose files were never
    checked (and would not pass the check) step 2 runs, stores its result
    and moves the session to step 3. *)
Lemma step2_without_file_check :
  step unchecked_session = 1 /\
  fr_success
    (match fst (step1_check_files unchecked_session) with
     | Ok report => report
     | Raise _ => mk_files_report true 0 0 0 []
     end) = false /\
  exists result,
    fst (step2_check_photo_quality demo_world unchecked_session) = Ok result /\
    step (snd (step2_check_photo_quality demo_world unchecked_session)) = 3 /\
    r_photo_quality
      (session_results (snd (step2_check_photo_quality demo_world unchecked_session)))
    = Some result /\
    snd (step2_check_photo_quality demo_world unchecked_session) <> unchecked_session.
Proof.
  split; [reflexivity|]. split; [reflexivity|].
  eexists. split; [reflexivity|]. split; [reflexivity|]. split; [reflexivity|].
  intros H. apply (f_equal step) in H. discriminate H.
Qed.

Lemma step3_fails_unchanged (w : world) (s : session) (e : exn) :
  fst (step3_extract_markings w s) = Raise e ->
  snd (step3_extract_markings w s) = s.
Proof.
  unfold step3_extract_markings.
  destruct (step3_try w s); [discriminate|reflexivity].
Qed.

Lemma step4_fails_unchanged (s : session) (e : exn) :
  fst (step4_count_verification s) = Raise e ->
  snd (step4_count_verification s) = s.
Proof.
  unfold step4_count_verification.
  destruct (step4_try s); [discriminate|reflexivity].
Qed.

Lemma step5_fails_unchanged (w : world) (s : session) (e : exn) :
  fst (step5_compare_specification w s) = Raise e ->
  snd (step5_compare_specification w s) = s.
Proof.
  unfold step5_compare_specification.
  destruct (step5_try w s); [discriminate|reflexivity].
Qed.

Lemma step7_fails_unchanged (w : world) (s : session) (e : exn) :
  fst (step7_generate_files w s) = Raise e ->
  snd (step7_generate_files w s) = s.
Proof.
  unfold step7_generate_files.
  destruct (step7_try w s); [discriminate|reflexivity].
Qed.

(** C2, amended. Steps 4 and 5 called before the markings of step 3 are
    stored, and step 7 called before the comparison, the final parameters
    or the markings are stored, fail with an HTTP 400 error that names the
    missing data, and leave the session as it was; so does step 3 when
    photos are there and the quality results of step 2 are not. Whenever
    one of the steps 3, 4, 5 and 7 fails, the session is unchanged. Step 2
    makes no such check. *)
Theorem prerequisite_checks (w : world) (s : session) :
  (r_markings (session_results s) = None ->
   step4_count_verification s =
     (Raise (HTTPException 400
               "Ошибка пересчета: 400: Отсутствуют данные маркировок. Выполните шаг 3."),
      s) /\
   (truthy (specification s) = true ->
    step5_compare_specification w s =
      (Raise (HTTPException 400
                "Ошибка сопоставления: 400: Отсутствуют данные маркировок. Выполните шаг 3."),
       s)) /\
   (exists detail,
       step5_compare_specification w s = (Raise (HTTPException 400 detail), s)) /\
   (exists detail,
       step7_generate_files w s = (Raise (HTTPException 400 detail), s))) /\
  (r_comparison (session_results s) = None ->
   step7_generate_files w s =
     (Raise (HTTPException 400
               "Ошибка генерации файлов: 400: Отсутствуют данные сравнения. Выполните шаг 5."),
      s)) /\
  (r_final_params (session_results s) = None ->
   exists detail,
     step7_generate_files w s = (Raise (HTTPException 400 detail), s)) /\
  (r_photo_quality (session_results s) = None -> photos s <> [] ->
   step3_extract_markings w s =
     (Raise (HTTPException 400 "Ошибка извлечения маркировок: 'photo_quality'"), s)) /\
  (forall e, fst (step3_extract_markings w s) = Raise e ->
             snd (step3_extract_markings w s) = s) /\
  (forall e, fst (step4_count_verification s) = Raise e ->
             snd (step4_count_verification s) = s) /\
  (forall e, fst (step5_compare_specification w s) = Raise e ->
             snd (step5_compare_specification w s) = s) /\
  (forall e, fst (step7_generate_files w s) = Raise e ->
             snd (step7_generate_files w s) = s).
Proof.
  split; [|split; [|split; [|split; [|split; [|split; [|split]]]]]].
  - intros Hm. split; [|split; [|split]].
    + unfold step4_count_verification, step4_try. rewrite Hm. reflexivity.
    + intros Hs. unfold step5_compare_specification, step5_try.
      destruct (specification s) as [path|]; [|discriminate Hs].
      rewrite Hs, Hm. reflexivity.
    + unfold step5_compare_specification, step5_try.
      destruct (specification s) as [path|]; [|eexists; reflexivity].
      destruct (truthy (Some path)); rewrite ?Hm; eexists; reflexivity.
    + unfold step7_generate_files, step7_try. rewrite Hm.
      destruct (r_comparison (session_results s)); [|eexists; reflexivity].
      destruct (r_final_params (session_results s)); eexists; reflexivity.
  - intros Hc. unfold step7_generate_files, step7_try. rewrite Hc. reflexivity.
  - intros Hf. unfold step7_generate_files, step7_try. rewrite Hf.
    destruct (r_comparison (session_results s)); eexists; reflexivity.
  - intros Hq Hp. unfold step3_extract_markings, step3_try. rewrite Hq.
    destruct (photos s) as [|p ps]; [congruence|]. reflexivity.
  - apply step3_fails_unchanged.
  - apply step4_fails_unchanged.
  - apply step5_fails_unchanged.
  - apply step7_fails_unchanged.
Qed.

Lemma prerequisite_checks_witness :
  step5_compare_specification demo_world demo_session =
    (Raise (HTTPException 400
              "Ошибка сопоставления: 400: Отсутствуют данные маркировок. Выполните шаг 3."),
     demo_session) /\
  step4_count_verification demo_session =
    (Raise (HTTPException 400
              "Ошибка пересчета: 400: Отсутствуют данные маркировок. Выполните шаг 3."),
     demo_session).
Proof.
  destruct (prerequisite_checks demo_world demo_session) as (H & _).
  destruct (H eq_refl) as (H4 & H5 & _).
  split; [apply H5; reflexivity|exact H4].
Defined.

(** ** Regular expressions: what a match is *)

Lemma append_assoc (a b c : string) : (a ++ b) ++ c = a ++ (b ++ c).
Proof. induction a as [|x a IH]; cbn; [reflexivity|]. rewrite IH. reflexivity. Qed.

Lemma append_empty_r (a : string) : a ++ "" = a.
Proof. induction a as [|x a IH]; cbn; [reflexivity|]. rewrite IH. reflexivity. Qed.

Lemma length_append (a b : string) :
  String.length (a ++ b) = (String.length a + String.length b)%nat.
Proof. induction a as [|x a IH]; cbn; [reflexivity|]. rewrite IH. reflexivity. Qed.

Lemma substring_prefix (a b : string) :
  substring 0 (String.length a) (a ++ b) = a.
Proof. induction a as [|x a IH]; cbn; [destruct b; reflexivity|]. rewrite IH. reflexivity. Qed.

Lemma consumed_append (a b : string) : consumed (a ++ b) b = a.
Proof.
  unfold consumed. rewrite length_append.
  replace (String.length a + String.length b - String.length b)%nat
    with (String.length a) by lia.
  apply substring_prefix.
Qed.

Lemma drop_prefix_append (t s s' : string) :
  drop_prefix t s = Some s' -> s = t ++ s'.
Proof.
  revert s. induction t as [|a t IH]; intros s; cbn.
  - intros [= ->]. reflexivity.
  - destruct s as [|b s]; [discriminate|].
    destruct (Ascii.eqb a b) eqn:E; [|discriminate].
    apply Ascii.eqb_eq in E. subst. intros H. rewrite (IH _ H). reflexivity.
Qed.

(** A successful run of the matcher handed its continuation the rest of a
    text it parsed. *)
Lemma rmatch_sound {A : Type} (r : regex) :
  forall (s : string) (g : groups) (k : string -> groups -> option A) (x : A),
    rmatch r s g k = Some x ->
    exists t s' g',
      s = t ++ s' /\ parses r t g g' /\ k s' g' = Some x.
Proof.
  induction r as [p|t|r1 IH1 r2 IH2|r1 IH1 r2 IH2|r1 IH1|r1 IH1|n r1 IH1];
    intros s g k x; cbn [rmatch].
  - destruct s as [|a s]; [discriminate|].
    destruct (p a) eqn:E; [|discriminate]. intros H.
    exists (String a EmptyString), s, g.
    split; [reflexivity|]. split; [constructor; exact E|exact H].
  - destruct (drop_prefix t s) as [s'|] eqn:E; [|discriminate]. intros H.
    exists t, s', g. split; [apply drop_prefix_append, E|].
    split; [constructor|exact H].
  - destruct (rmatch r1 s g k) as [y|] eqn:E.
    + intros [= <-]. destruct (IH1 _ _ _ _ E) as (t & s' & g' & H1 & H2 & H3).
      exists t, s', g'. split; [exact H1|]. split; [apply parses_alt_l, H2|exact H3].
    + intros H. destruct (IH2 _ _ _ _ H) as (t & s' & g' & H1 & H2 & H3).
      exists t, s', g'. split; [exact H1|]. split; [apply parses_alt_r, H2|exact H3].
  - intros H. destruct (IH1 _ _ _ _ H) as (t1 & s1 & g1 & H1 & H2 & H3).
    destruct (IH2 _ _ _ _ H3) as (t2 & s2 & g2 & H4 & H5 & H6).
    exists (t1 ++ t2), s2, g2. split; [subst; symmetry; apply append_assoc|].
    split; [econstructor; eassumption|exact H6].
  - destruct (rmatch r1 s g k) as [y|] eqn:E.
    + intros [= <-]. destruct (IH1 _ _ _ _ E) as (t & s' & g' & H1 & H2 & H3).
      exists t, s', g'. split; [exact H1|]. split; [apply parses_opt_some, H2|exact H3].
    + intros H. exists EmptyString, s, g.
      split; [reflexivity|]. split; [apply parses_opt_none|exact H].
  - generalize (S (String.length s)) as fuel. intros fuel. revert s g.
    induction fuel as [|fuel IHf]; intros s g; cbn [star_loop].
    + intros H. exists EmptyString, s, g.
      split; [reflexivity|]. split; [apply parses_star_nil|exact H].
    + match goal with
      | |- match ?m with _ => _ end = _ -> _ => destruct m as [y|] eqn:E
      end.
      * intros [= <-]. destruct (IH1 _ _ _ _ E) as (t1 & s1 & g1 & H1 & H2 & H3).
        destruct (String.length s1 <? String.length s)%nat; [|discriminate].
        destruct (IHf _ _ H3) as (t2 & s2 & g2 & H4 & H5 & H6).
        exists (t1 ++ t2), s2, g2. split; [subst; symmetry; apply append_assoc|].
        split; [econstructor; eassumption|exact H6].
      * intros H. exists EmptyString, s, g.
        split; [reflexivity|]. split; [apply parses_star_nil|exact H].
  - intros H. destruct (IH1 _ _ _ _ H) as (t & s' & g' & H1 & H2 & H3).
    exists t, s', ((n, t) :: g'). split; [exact H1|].
    split; [constructor; exact H2|].
    rewrite H1, consumed_append in H3. exact H3.
Qed.

Lemma re_search_sound (r : regex) (s : string) (g : groups) :
  re_search r s = Some g ->
  exists pre t post, s = pre ++ t ++ post /\ parses r t [] g.
Proof.
  induction s as [|a s IH]; cbn [re_search].
  - destruct (rmatch r "" [] _) as [g'|] eqn:E; [|discriminate].
    intros [= ->]. apply rmatch_sound in E.
    destruct E as (t & s' & g' & Hs & H & [= ->]).
    exists EmptyString, t, s'. split; [exact Hs|exact H].
  - destruct (rmatch r (String a s) [] _) as [g'|] eqn:E.
    + intros [= ->]. apply rmatch_sound in E.
      destruct E as (t & s' & g' & Hs & H & [= ->]).
      exists EmptyString, t, s'. split; [exact Hs|exact H].
    + intros H. destruct (IH H) as (pre & t & post & -> & Hp).
      exists (String a pre), t, post. split; [reflexivity|exact Hp].
Qed.

(** ** Areas *)

Lemma parses_group_free (r : regex) (t : string) (g g' : groups) :
  parses r t g g' -> group_free r = true -> g' = g.
Proof.
  induction 1; cbn [group_free]; intros Hf;
    try reflexivity; try discriminate; auto.
  - apply andb_true_iff in Hf. tauto.
  - apply andb_true_iff in Hf. tauto.
  - apply andb_true_iff in Hf. destruct Hf as [Hf1 Hf2].
    rewrite IHparses2, IHparses1; auto.
  - rewrite IHparses2, IHparses1; auto.
Qed.

Lemma digits_only_append (a b : string) :
  digits_only (a ++ b) = digits_only a && digits_only b.
Proof.
  induction a as [|c a IH]; cbn; [reflexivity|].
  rewrite IH. apply andb_assoc.
Qed.

Lemma parses_star_digit (r : regex) (t : string) (g g' : groups) :
  parses r t g g' -> r = Star digit -> digits_only t = true.
Proof.
  induction 1; intros Hr; try discriminate; [reflexivity|].
  injection Hr as ->. rewrite digits_only_append, IHparses2 by reflexivity.
  inversion H; subst. cbn. unfold digit in *.
  match goal with H : is_digit _ = true |- _ => rewrite H end. reflexivity.
Qed.

Lemma parses_plus_digit (t : string) (g g' : groups) :
  parses (Plus digit) t g g' -> t <> "" /\ digits_only t = true.
Proof.
  unfold Plus. intros H. inversion H; subst.
  match goal with H : parses digit _ _ _ |- _ => inversion H; subst end.
  match goal with H : parses (Star digit) _ _ _ |- _ =>
    apply parses_star_digit in H; [|reflexivity] end.
  cbn. split; [discriminate|].
  match goal with H : is_digit _ = true |- _ => rewrite H end. assumption.
Qed.

Lemma parses_number (t : string) (g g' : groups) :
  parses number t g g' -> decimal t.
Proof.
  unfold number. intros H. inversion H; subst.
  match goal with H : parses (Plus digit) _ _ _ |- _ =>
    apply parses_plus_digit in H; destruct H as [Ha Hda] end.
  match goal with H : parses (Opt _) _ _ _ |- _ => inversion H; subst end.
  - match goal with H : parses (Cat dot _) _ _ _ |- _ => inversion H; subst end.
    match goal with H : parses dot _ _ _ |- _ => inversion H; subst end.
    match goal with H : parses (Plus digit) _ _ _ |- _ =>
      apply parses_plus_digit in H; destruct H as [Hb Hdb] end.
    match goal with H : Ascii.eqb "." _ = true |- _ =>
      apply Ascii.eqb_eq in H; subst end.
    cbn. apply decimal_frac; assumption.
  - rewrite append_empty_r. apply decimal_int; assumption.
Qed.

Lemma digits_val_total (t : string) :
  digits_only t = true ->
  forall acc seen, (seen = true \/ t <> "") ->
  exists v, digits_val acc seen t = Some v.
Proof.
  induction t as [|c t IH]; cbn; intros Hd acc seen Hs.
  - destruct Hs as [->|Hs]; [eauto|congruence].
  - apply andb_true_iff in Hd. destruct Hd as [Hc Hd]. rewrite Hc.
    apply IH; auto.
Qed.

Lemma fraction_val_total (t : string) :
  digits_only t = true ->
  forall acc n, (n <> O \/ t <> "") ->
  exists v m, fraction_val acc n t = Some (v, m).
Proof.
  induction t as [|c t IH]; cbn; intros Hd acc n Hs.
  - destruct n; [destruct Hs; congruence|eauto].
  - apply andb_true_iff in Hd. destruct Hd as [Hc Hd]. rewrite Hc.
    apply IH; auto.
Qed.

Lemma digit_not_dot (c : ascii) : is_digit c = true -> Ascii.eqb c "." = false.
Proof.
  intros H. destruct (Ascii.eqb c ".") eqn:E; [|reflexivity].
  apply Ascii.eqb_eq in E. subst. discriminate H.
Qed.

Lemma split_at_dot_digits (a : string) :
  digits_only a = true ->
  split_at_dot a = (a, None) /\
  forall b, split_at_dot (a ++ String "." b) = (a, Some b).
Proof.
  induction a as [|c a IH]; cbn; intros Hd.
  - split; reflexivity.
  - apply andb_true_iff in Hd. destruct Hd as [Hc Hd].
    rewrite (digit_not_dot c Hc). destruct (IH Hd) as [H1 H2].
    rewrite H1. split; [reflexivity|]. intros b. rewrite H2. reflexivity.
Qed.

Lemma py_float_decimal (t : string) :
  decimal t -> exists q, py_float t = Ok q.
Proof.
  intros [a Ha Hd|a b Ha Hda Hb Hdb]; unfold py_float.
  - destruct (split_at_dot_digits a Hd) as [-> _].
    destruct (digits_val_total a Hd 0 false (or_intror Ha)) as (v & ->). eauto.
  - destruct (split_at_dot_digits a Hda) as [_ ->].
    destruct (digits_val_total a Hda 0 false (or_intror Ha)) as (v & ->).
    destruct (fraction_val_total b Hdb 0 0%nat (or_intror Hb)) as (f & n & ->).
    eauto.
Qed.

(** The groups a match of one of the four patterns leaves, and the text
    at the front of the match. *)
Lemma parses_sized (sep : regex) (t : string) (g : groups) :
  group_free sep = true ->
  parses (sized sep) t [] g ->
  exists w h rest,
    g = [(2%nat, h); (1%nat, w)] /\ decimal w /\ decimal h /\ t = w ++ rest.
Proof.
  intros Hsep H. unfold sized in H.
  inversion H as [| | | |? ? t1 t2 ? g1 ? Hg1 Hrest| | | | |]; subst. clear H.
  inversion Hg1 as [| | | | | | | | |? ? ? ? g0 Hw]; subst. clear Hg1.
  pose proof (parses_group_free _ _ _ _ Hw eq_refl) as ->.
  inversion Hrest as [| | | |? ? t3 t4 ? g2 ? Hs1 Hrest2| | | | |]; subst. clear Hrest.
  pose proof (parses_group_free _ _ _ _ Hs1 eq_refl) as ->.
  inversion Hrest2 as [| | | |? ? t5 t6 ? g3 ? Hx Hrest3| | | | |]; subst. clear Hrest2.
  pose proof (parses_group_free _ _ _ _ Hx Hsep) as ->.
  inversion Hrest3 as [| | | |? ? t7 t8 ? g4 ? Hs2 Hg2| | | | |]; subst. clear Hrest3.
  pose proof (parses_group_free _ _ _ _ Hs2 eq_refl) as ->.
  inversion Hg2 as [| | | | | | | | |? ? ? ? g5 Hh]; subst. clear Hg2.
  pose proof (parses_group_free _ _ _ _ Hh eq_refl) as ->.
  eexists _, _, _. split; [reflexivity|].
  split; [eapply parses_number; eassumption|].
  split; [eapply parses_number; eassumption|reflexivity].
Qed.

Lemma parses_sized_unit (unit : string) (t : string) (g : groups) :
  parses (Cat (sized cross) (Cat (Star space) (Str unit))) t [] g ->
  exists w h rest,
    g = [(2%nat, h); (1%nat, w)] /\ decimal w /\ decimal h /\ t = w ++ rest.
Proof.
  intros H.
  inversion H as [| | | |? ? t1 t2 ? g1 ? Hs Hu| | | | |]; subst. clear H.
  pose proof (parses_group_free _ _ _ _ Hu eq_refl) as ->.
  destruct (parses_sized cross t1 g1 eq_refl Hs) as (w & h & rest & Hg & Hw & Hh & ->).
  exists w, h, (rest ++ t2). rewrite append_assoc. auto.
Qed.

Lemma pattern_parse (p : regex) (t : string) (g : groups) :
  In p patterns -> parses p t [] g ->
  exists w h rest,
    g = [(2%nat, h); (1%nat, w)] /\ decimal w /\ decimal h /\ t = w ++ rest.
Proof.
  intros Hin Ht.
  cbn in Hin. destruct Hin as [<-|[<-|[<-|[<-|[]]]]].
  - eapply parses_sized_unit, Ht.
  - eapply parses_sized_unit, Ht.
  - eapply parses_sized; [|exact Ht]; reflexivity.
  - eapply parses_sized; [|exact Ht]; reflexivity.
Qed.

Lemma pattern_groups (p : regex) (s : string) (g : groups) :
  In p patterns -> re_search p s = Some g ->
  exists w h, g = [(2%nat, h); (1%nat, w)] /\ decimal w /\ decimal h.
Proof.
  intros Hin Hs. apply re_search_sound in Hs.
  destruct Hs as (pre & t & post & _ & Ht).
  destruct (pattern_parse p t g Hin Ht) as (w & h & rest & Hg & Hw & Hh & _).
  eauto.
Qed.






Lemma first_match_found (ps : list regex) (text : string) :
  first_match ps text =
  match first_found ps (lower text) with
  | Some g => area_of_match text g
  | None => Ok 0%Q
  end.
Proof.
  induction ps as [|p ps IH]; cbn; [reflexivity|].
  destruct (re_search p (lower text)); [reflexivity|exact IH].
Qed.

Lemma first_found_In (ps : list regex) (t : string) (g : groups) :
  first_found ps t = Some g -> exists p, In p ps /\ re_search p t = Some g.
Proof.
  induction ps as [|p ps IH]; cbn; [discriminate|].
  destruct (re_search p t) as [g'|] eqn:E.
  - intros [= <-]. eauto.
  - intros H. destruct (IH H) as (q & Hq & Hs). eauto.
Qed.

Lemma calculate_square_meters_unfold (name : string) (dimensions : option string) :
  calculate_square_meters name dimensions =
  try_except
    (first_match patterns (or_else dimensions (or_else (Some name) "")))
    (fun _ => Ok 0%Q).
Proof. reflexivity. Qed.

Lemma calculate_square_meters_cases (name : string) (dimensions : option string) :
  let text := or_else dimensions (or_else (Some name) "") in
  match first_found patterns (lower text) with
  | None => calculate_square_meters name dimensions = Ok 0%Q
  | Some g =>
      exists w h width height,
        group g 1 = Ok w /\ py_float w = Ok width /\
        group g 2 = Ok h /\ py_float h = Ok height /\
        calculate_square_meters name dimensions =
          Ok (py_round
                (if millimetres text width height
                 then (width / 1000) * (height / 1000)
                 else width * height) 3)
  end.
Proof.
  intros text. rewrite calculate_square_meters_unfold. fold text.
  rewrite first_match_found.
  destruct (first_found patterns (lower text)) as [g|] eqn:E; [|reflexivity].
  destruct (first_found_In _ _ _ E) as (p & Hp & Hs).
  destruct (pattern_groups p _ g Hp Hs) as (w & h & -> & Hw & Hh).
  destruct (py_float_decimal w Hw) as (width & Hwidth).
  destruct (py_float_decimal h Hh) as (height & Hheight).
  exists w, h, width, height.
  split; [reflexivity|]. split; [exact Hwidth|].
  split; [reflexivity|]. split; [exact Hheight|].
  unfold area_of_match. cbn [group Nat.eqb bind].
  rewrite Hwidth. cbn [bind]. rewrite Hheight. cbn [bind].
  unfold millimetres.
  destruct (contains "мм" (lower text) || contains "mm" (lower text));
    cbn [orb try_except]; [reflexivity|].
  destruct (Qltb 100 width || Qltb 100 height); reflexivity.
Qed.





(** ** Document generation *)


Lemma same_key_refl (k : Z * Z) : same_key k k = true.
Proof. unfold same_key. rewrite !Z.eqb_refl. reflexivity. Qed.

Lemma ws_find_put (ws : worksheet) (k : Z * Z) (x : xcell) :
  ws_find (ws_put ws k x) k = Some x.
Proof.
  induction ws as [|[k' x'] ws IH]; cbn.
  - rewrite same_key_refl. reflexivity.
  - destruct (same_key k' k) eqn:E; cbn; rewrite E; [reflexivity|exact IH].
Qed.

Lemma max_fold_ge (f : (Z * Z) * xcell -> Z) (ws : worksheet) :
  forall m, m <= fold_left (fun m e => Z.max m (f e)) ws m.
Proof.
  induction ws as [|e ws IH]; intros m; cbn; [lia|].
  specialize (IH (Z.max m (f e))). lia.
Qed.

Lemma max_column_pos (ws : worksheet) : 1 <= max_column ws.
Proof. apply max_fold_ge. Qed.























Lemma marking_tier_rule_witness :
  tier_rule (read_marking (Some "Panel") (Some "A1") None).
Proof.
  apply (proj1 marking_tier_rule
           (Response (JsonObject (Some "Panel") (Some "A1") None None))).
  reflexivity.
Defined.

(** * Further properties *)

(** ** Step 1 *)

(** X1. Step 1 never raises. It reports success iff a specification, a
    template and at least one photo are there; only then does it move the
    session to step 2, and otherwise it leaves the session as it was. Each
    missing input is named in the report. *)
Theorem step1_reports_missing_files (s : session) :
  exists report,
    fst (step1_check_files s) = Ok report /\
    (fr_success report = true <->
       truthy (specification s) = true /\ truthy (template s) = true /\
       photos s <> []) /\
    (In "Спецификация (Excel)" (fr_missing report) <->
       truthy (specification s) = false) /\
    (In "Шаблон накладной (Excel)" (fr_missing report) <->
       truthy (template s) = false) /\
    (In "Фотографии маркировок" (fr_missing report) <-> photos s = []) /\
    snd (step1_check_files s) = (if fr_success report then set_step 2 s else s).
Proof.
  unfold step1_check_files. eexists. split; [reflexivity|].
  cbn [fst snd fr_success fr_missing].
  destruct (truthy (specification s)), (truthy (template s)), (photos s) as [|p ps];
    cbn; repeat split; intros; issue_cases; try congruence; try tauto;
    try discriminate; auto;
    try match goal with H : _ /\ _ |- _ => destruct H as (? & ? & ?) end;
    try discriminate; try congruence.
Qed.

(** ** Step 2 *)

Lemma count_if_complement {A : Type} (p : A -> bool) (l : list A) :
  count_if p l + count_if (fun x => negb (p x)) l = len l.
Proof.
  induction l as [|x l IH]; [reflexivity|].
  rewrite !count_if_cons. unfold len in *. cbn [List.length].
  destruct (p x); cbn [negb]; lia.
Qed.

Lemma count_if_nonneg {A : Type} (p : A -> bool) (l : list A) : 0 <= count_if p l.
Proof. unfold count_if. lia. Qed.

Lemma step2_loop_length (w : world) (ps : list photo) :
  forall k, List.length (step2_loop w k ps) = List.length ps.
Proof.
  induction ps as [|p ps IH]; intros k; cbn; [reflexivity|].
  rewrite IH. reflexivity.
Qed.

Lemma step2_loop_entry (w : world) (ps : list photo) :
  forall k i p,
    nth_error ps i = Some p ->
    exists q,
      nth_error (step2_loop w k ps) i = Some q /\
      q_index q = Some (k + Z.of_nat i) /\
      q_filename q = Some (p_filename p) /\
      q_readable q = q_readable (check_image_quality (image_at w (p_path p))) /\
      q_issues q = q_issues (check_image_quality (image_at w (p_path p))) /\
      q_status q = q_status (check_image_quality (image_at w (p_path p))).
Proof.
  induction ps as [|p0 ps IH]; intros k [|i] p; cbn [nth_error step2_loop];
    try discriminate.
  - intros [= ->]. eexists. split; [reflexivity|]. cbn.
    rewrite Z.add_0_r. repeat split.
  - intros H. destruct (IH (k + 1) i p H) as (q & Hq & Hi & Hrest).
    exists q. split; [exact Hq|]. split; [rewrite Hi; f_equal; lia|exact Hrest].
Qed.

(** X2. Step 2 never fails and checks nothing before it runs. Its result
    has one entry per photo, in order, carrying the photo's index and file
    name and the assessment of its image; the summary counts add up
    (readable + unreadable = total = number of photos). The session gets
    step 3 and the new quality result; its files and all other stored
    results stay as they were, whatever step the session was at. *)
Theorem step2_result_shape (w : world) (s : session) :
  exists result,
    step2_check_photo_quality w s =
      (Ok result,
       mk_session (specification s) (template s) (photos s) 3
         (set_photo_quality result (session_results s))) /\
    pq_total result = len (photos s) /\
    pq_readable result + pq_unreadable result = pq_total result /\
    pq_readable result = count_if q_readable (pq_photos result) /\
    0 <= pq_unreadable result /\
    List.length (pq_photos result) = List.length (photos s) /\
    forall i p,
      nth_error (photos s) i = Some p ->
      exists q,
        nth_error (pq_photos result) i = Some q /\
        q_index q = Some (Z.of_nat i) /\
        q_filename q = Some (p_filename p) /\
        q_readable q = q_readable (check_image_quality (image_at w (p_path p))) /\
        q_issues q = q_issues (check_image_quality (image_at w (p_path p))) /\
        q_status q = q_status (check_image_quality (image_at w (p_path p))).
Proof.
  unfold step2_check_photo_quality. eexists. split; [reflexivity|].
  cbn [pq_total pq_readable pq_unreadable pq_photos].
  pose proof (count_if_complement q_readable (step2_loop w 0 (photos s))) as Hc.
  split; [unfold len; rewrite step2_loop_length; reflexivity|].
  split; [lia|]. split; [lia|]. split; [apply count_if_nonneg|].
  split; [apply step2_loop_length|].
  intros i p Hp. apply (step2_loop_entry w (photos s) 0 i p Hp).
Qed.

Lemma step2_result_shape_witness :
  exists result q,
    fst (step2_check_photo_quality marginal_world marginal_session) = Ok result /\
    nth_error (pq_photos result) 0 = Some q /\
    q_index q = Some 0 /\ q_filename q = Some "small.jpg".
Proof.
  destruct (step2_result_shape marginal_world marginal_session)
    as (result & Hr & _ & _ & _ & _ & _ & Hn).
  destruct (Hn 0%nat (mk_photo "uploads/small.jpg" "small.jpg") eq_refl)
    as (q & Hq & Hi & Hf & _).
  exists result, q. rewrite Hr. repeat split; assumption.
Defined.

(** ** Image quality: the status *)

Lemma check_image_quality_outcomes (img : decoded) :
  (exists e,
      check_image_quality_try img = Raise e /\
      q_status (check_image_quality img) = "❌" /\
      q_issues (check_image_quality img) = ["Ошибка обработки: " ++ exn_str e]) \/
  (exists (q : quality_info) (low blurry over under : bool),
      check_image_quality_try img = Ok q /\
      check_image_quality img = q /\
      q_issues q =
        (append_if low [] "Низкое разрешение"
           ++ append_if blurry [] "Изображение размыто"
           ++ (if over then ["Пересвет"] else if under then ["Недосвет"] else []))%list /\
      q_status q =
        (if (List.length (q_issues q) =? 1)%nat then "⚠️"
         else match q_issues q with [] => "✅" | _ => "❌" end)).
Proof.
  unfold check_image_quality.
  destruct img as [e|width height pixels].
  - left. exists e. cbn. repeat split.
  - cbn [check_image_quality_try].
    destruct (py_div _ _) as [avg|e]; cbn [bind].
    + destruct (py_div _ _) as [var|e]; cbn [bind].
      * right. eexists _, ((width <? 300) || (height <? 300)), (Qltb var 500),
          (Qltb 240 avg), (Qltb avg 15).
        split; [reflexivity|]. split; [reflexivity|]. cbn [q_issues q_status].
        destruct ((width <? 300) || (height <? 300)), (Qltb var 500),
          (Qltb 240 avg), (Qltb avg 15); split; reflexivity.
      * left. exists e. repeat split.
    + left. exists e. repeat split.
Qed.

(** X3. The status of a quality assessment has three tiers: "✅" iff no
    issue was found, "⚠️" iff the image was assessed and exactly one issue
    was found, "❌" iff two or more issues were found or the assessment
    itself raised. An assessment never lists more than three issues, and
    never both overexposure and underexposure. *)
Theorem quality_status_tiers (img : decoded) :
  let q := check_image_quality img in
  (q_status q = "✅" <-> q_issues q = []) /\
  (q_status q = "⚠️" <->
     List.length (q_issues q) = 1%nat /\
     exists q', check_image_quality_try img = Ok q') /\
  (q_status q = "❌" <->
     (2 <= List.length (q_issues q))%nat \/
     exists e, check_image_quality_try img = Raise e) /\
  (List.length (q_issues q) <= 3)%nat /\
  ~ (In "Пересвет" (q_issues q) /\ In "Недосвет" (q_issues q)).
Proof.
  cbv zeta.
  destruct (check_image_quality_outcomes img)
    as [(e & He & Hs & Hi)|(q & low & blurry & over & under & Ht & Hq & Hi & Hs)].
  - rewrite Hs, Hi, He. cbn [List.length].
    repeat split; intros; try discriminate; try lia; eauto.
    + destruct H as [_ [q' H]]. discriminate.
    + intros [H _]. cbn in H. destruct H as [H|[]]. discriminate H.
  - rewrite Hq, Ht, Hs, Hi.
    destruct low, blurry, over, under; cbn;
      repeat split; unfold not; intros; try discriminate; try lia; eauto;
      repeat match goal with
             | H : _ /\ _ |- _ => destruct H
             | H : _ \/ _ |- _ => destruct H
             | H : exists _, _ |- _ => destruct H
             | H : False |- _ => contradiction
             end; try discriminate; try lia.
Qed.

(** ** Records of step 3 *)

Lemma failed_marking_readable (comment : string) :
  exists b, m_readable (failed_marking comment) = Some b /\
            (b = true <-> m_article (failed_marking comment) <> None) /\
            (b = true <-> m_status (failed_marking comment) <> "❌") /\
            tier_rule (failed_marking comment).
Proof.
  exists false. unfold failed_marking at 1 2 3.
  cbn [m_readable m_article m_status].
  split; [reflexivity|]. split; [split; [discriminate|congruence]|].
  split; [split; [discriminate|congruence]|apply tier_rule_failed].
Qed.

Lemma extracted_readable (rc : recognition) (m : marking) :
  extracted rc m ->
  exists b, m_readable m = Some b /\
            (b = true <-> m_article m <> None) /\
            (b = true <-> m_status m <> "❌") /\
            tier_rule m.
Proof.
  intros H. destruct H; try apply failed_marking_readable.
  pose proof (tier_rule_read name article dimensions) as Ht.
  unfold read_marking in *.
  destruct name, article; cbn [is_not_None andb] in *;
    [exists true|exists false|exists true|exists false];
    cbn [m_readable m_article m_status];
    (split; [reflexivity|]);
    (split; [split; intros; first [discriminate | congruence]|]);
    (split; [split; intros; first [discriminate | congruence]|exact Ht]).
Qed.

Lemma step3_loop_stored (w : world) (pq : photo_quality_result) (ps : list photo) :
  forall i ms,
    snd (step3_loop w (Some pq) i ps) = Ok ms -> stored_from w pq i ps ms.
Proof.
  induction ps as [|p rest IH]; intros i ms; cbn [step3_loop].
  - intros [= <-]. constructor.
  - destruct (nth_error (pq_photos pq) i) as [q|] eqn:Eq; [|discriminate].
    destruct (q_readable q) eqn:Er; cbn [negb].
    + unfold extract_for.
      destruct (extract_marking_cases (recognition_at w (p_path p)))
        as (m0 & -> & Hex). cbn [bind].
      destruct (extracted_readable _ _ Hex) as (b & Hb & _). rewrite Hb.
      specialize (IH (S i)).
      destruct (step3_loop w (Some pq) (S i) rest) as [calls r]. cbn [snd] in *.
      destruct r as [ms'|]; [|discriminate]. cbn [bind]. intros [= <-].
      constructor; [|apply IH; reflexivity].
      exists q. split; [exact Eq|]. right. split; [exact Er|].
      exists m0, b. repeat split; assumption.
    + specialize (IH (S i)).
      destruct (step3_loop w (Some pq) (S i) rest) as [calls r]. cbn [snd] in *.
      destruct r as [ms'|]; [|discriminate]. cbn [bind]. intros [= <-].
      constructor; [|apply IH; reflexivity].
      exists q. split; [exact Eq|]. left. split; [exact Er|reflexivity].
Qed.

Lemma step3_inv (w : world) (s s' : session) (result : markings_result) :
  step3_extract_markings w s = (Ok result, s') ->
  s' = mk_session (specification s) (template s) (photos s) 4
         (set_markings result (session_results s)) /\
  mr_total result = len (mr_markings result) /\
  mr_extracted result = count_if (fun m => String.eqb (m_status m) "✅") (mr_markings result) /\
  mr_partial result = count_if (fun m => String.eqb (m_status m) "⚠️") (mr_markings result) /\
  mr_failed result = count_if (fun m => String.eqb (m_status m) "❌") (mr_markings result) /\
  (photos s = [] /\ mr_markings result = [] \/
   exists pq,
     r_photo_quality (session_results s) = Some pq /\
     stored_from w pq 0 (photos s) (mr_markings result)).
Proof.
  unfold step3_extract_markings, step3_try.
  destruct (snd (step3_loop w _ 0 (photos s))) as [ms|e] eqn:E;
    cbn [bind]; [|discriminate].
  intros [= <- <-]. cbn [mr_total mr_markings mr_extracted mr_partial mr_failed].
  do 5 (split; [reflexivity|]).
  destruct (r_photo_quality (session_results s)) as [pq|].
  - right. exists pq. split; [reflexivity|]. apply step3_loop_stored, E.
  - left. destruct (photos s) as [|p ps]; [|discriminate E].
    cbn in E. injection E as <-. split; reflexivity.
Qed.

Lemma stored_from_Forall (w : world) (pq : photo_quality_result)
    (P : marking -> Prop) :
  (forall i p m, stored_one w pq i p m -> P m) ->
  forall i ps ms, stored_from w pq i ps ms -> Forall P ms.
Proof.
  intros HP i ps ms H. induction H; constructor; eauto.
Qed.

Lemma stored_from_nth (w : world) (pq : photo_quality_result) :
  forall i ps ms,
    stored_from w pq i ps ms ->
    List.length ms = List.length ps /\
    forall k p, nth_error ps k = Some p ->
                exists m, nth_error ms k = Some m /\ stored_one w pq (i + k) p m.
Proof.
  intros i ps ms H. induction H as [i|i p ps m ms H1 H2 [IHl IHn]].
  - split; [reflexivity|]. intros [|k] p; discriminate.
  - split; [cbn; rewrite IHl; reflexivity|].
    intros [|k] p0; cbn [nth_error].
    + intros [= <-]. exists m. rewrite Nat.add_0_r. split; [reflexivity|exact H1].
    + intros Hk. destruct (IHn k p0 Hk) as (m' & Hm' & Hs).
      exists m'. split; [exact Hm'|].
      rewrite Nat.add_succ_r, <- Nat.add_succ_l. exact Hs.
Qed.

Lemma stored_one_comment (w : world) (pq : photo_quality_result) (i : nat)
    (p : photo) (m : marking) :
  stored_one w pq i p m -> comment_rule m.
Proof.
  intros (q & _ & [[_ ->]|[_ (m0 & b & _ & Hb & ->)]]); unfold comment_rule.
  - left. split; reflexivity.
  - cbn [set_marking_meta m_readable m_comment]. rewrite Hb.
    destruct b; cbn [negb]; [right; right|right; left]; split; reflexivity.
Qed.

Lemma stored_one_readable (w : world) (pq : photo_quality_result) (i : nat)
    (p : photo) (m : marking) :
  stored_one w pq i p m -> readable_rule m.
Proof.
  intros (q & _ & [[_ ->]|[_ (m0 & b & Hex & Hb & ->)]]); unfold readable_rule.
  - cbn. split; split; intros; try discriminate; congruence.
  - destruct (extracted_readable _ _ Hex) as (b' & Hb' & Ha & Hs & _).
    assert (b' = b) by congruence. subst b'.
    cbn [set_marking_meta m_readable m_article m_status]. rewrite Hb.
    split; (split; [intros [= ->]|intros H; f_equal]); tauto.
Qed.

Lemma stored_one_tier (w : world) (pq : photo_quality_result) (i : nat)
    (p : photo) (m : marking) :
  stored_one w pq i p m -> tier_rule m.
Proof.
  intros (q & _ & [[_ ->]|[_ (m0 & b & Hex & Hb & ->)]]).
  - apply tier_rule_unreadable.
  - apply tier_rule_meta. destruct (extracted_readable _ _ Hex) as (_ & _ & _ & _ & H).
    exact H.
Qed.

Lemma stored_one_meta (w : world) (pq : photo_quality_result) (i : nat)
    (p : photo) (m : marking) :
  stored_one w pq i p m ->
  m_index m = Some (Z.of_nat i) /\ m_filename m = Some (p_filename p).
Proof.
  intros (q & _ & [[_ ->]|[_ (m0 & b & _ & _ & ->)]]); split; reflexivity.
Qed.

Lemma status_counts (ms : list marking) :
  Forall tier_rule ms ->
  count_if (fun m => String.eqb (m_status m) "✅") ms
  + count_if (fun m => String.eqb (m_status m) "⚠️") ms
  + count_if (fun m => String.eqb (m_status m) "❌") ms = len ms.
Proof.
  induction 1 as [|m ms Hm Hms IH]; [reflexivity|].
  rewrite !count_if_cons. unfold len in *. cbn [List.length].
  destruct Hm as (_ & _ & _ & [-> | [-> | ->]]);
    repeat match goal with
           | |- context [String.eqb ?a ?b] =>
               let v := eval vm_compute in (String.eqb a b) in
               change (String.eqb a b) with v
           end; lia.
Qed.

(** X4. After step 3 the comment of every stored record is one of three
    fixed texts: "Фото нечитаемо" for a photo the quality check rejected
    (the record then has no readable flag), "Маркировка не читается" for
    an extraction that is not readable, and the empty text for a readable
    one. The diagnostic comment the adapter returned is never kept. *)
Theorem step3_comments :
  forall w s result s',
    step3_extract_markings w s = (Ok result, s') ->
    Forall comment_rule (mr_markings result).
Proof.
  intros w s result s' H. apply step3_inv in H.
  destruct H as (_ & _ & _ & _ & _ & [[_ ->]|(pq & _ & Hst)]); [constructor|].
  eapply stored_from_Forall; [|exact Hst]. apply stored_one_comment.
Qed.

(** X5. When step 3 succeeds it stores one record per photo, in order,
    each with the photo's index and file name; the three status counts of
    its summary add up to the total, which is the number of photos. The
    session gets step 4 and the markings; nothing else changes. *)
Theorem step3_result_shape :
  forall w s result s',
    step3_extract_markings w s = (Ok result, s') ->
    s' = mk_session (specification s) (template s) (photos s) 4
           (set_markings result (session_results s)) /\
    List.length (mr_markings result) = List.length (photos s) /\
    mr_total result = len (photos s) /\
    mr_extracted result + mr_partial result + mr_failed result = mr_total result /\
    forall i p,
      nth_error (photos s) i = Some p ->
      exists m,
        nth_error (mr_markings result) i = Some m /\
        m_index m = Some (Z.of_nat i) /\ m_filename m = Some (p_filename p).
Proof.
  intros w s result s' H. apply step3_inv in H.
  destruct H as (Hs & Ht & He & Hp & Hf & Hcases).
  split; [exact Hs|]. rewrite Ht, He, Hp, Hf.
  destruct Hcases as [[Hph ->]|(pq & _ & Hst)].
  - rewrite Hph. repeat split. intros [|i] p; discriminate.
  - destruct (stored_from_nth _ _ _ _ _ Hst) as [Hl Hn].
    split; [exact Hl|]. split; [unfold len; rewrite Hl; reflexivity|].
    split.
    + apply status_counts.
      eapply stored_from_Forall; [|exact Hst]. apply stored_one_tier.
    + intros i p Hi. destruct (Hn i p Hi) as (m & Hm & Hone).
      exists m. split; [exact Hm|]. apply (stored_one_meta _ _ _ _ _ Hone).
Qed.

(** X6. Every record step 3 stores is marked readable exactly when it has
    an article, and exactly when its status is not "❌". So among stored
    records the readable test of step 5 excludes nothing the article test
    lets through: a record is counted under [a] iff its article is a
    non-empty text that strips to [a]. *)
Theorem step3_readable_iff_article :
  forall w s result s',
    step3_extract_markings w s = (Ok result, s') ->
    Forall readable_rule (mr_markings result) /\
    forall m a,
      In m (mr_markings result) ->
      (counts_as a m = true <->
       exists x, m_article m = Some x /\ x <> "" /\ strip x = a).
Proof.
  intros w s result s' H. apply step3_inv in H.
  destruct H as (_ & _ & _ & _ & _ & Hcases).
  assert (HF : Forall readable_rule (mr_markings result)).
  { destruct Hcases as [[_ ->]|(pq & _ & Hst)]; [constructor|].
    eapply stored_from_Forall; [|exact Hst]. apply stored_one_readable. }
  split; [exact HF|].
  intros m a Hin. rewrite Forall_forall in HF. destruct (HF m Hin) as [Hra _].
  unfold counts_as. destruct (m_article m) as [x|] eqn:Ea.
  - assert (Hr : m_readable m = Some true) by (apply Hra; discriminate).
    rewrite Hr, andb_true_iff, negb_true_iff, String.eqb_eq. split.
    + intros [Hx Hs]. exists x. repeat split; [|exact Hs].
      intros ->. discriminate Hx.
    + intros (x' & [= <-] & Hx & Hs). split; [|exact Hs].
      apply String.eqb_neq, Hx.
  - split; [discriminate|]. intros (x & Hx & _). discriminate Hx.
Qed.

Lemma step3_comments_witness :
  Forall comment_rule
    (match fst marginal_extracted with
     | Ok result => mr_markings result
     | Raise _ => []
     end).
Proof.
  destruct marginal_extracted as [[result|e] s'] eqn:E; [|discriminate E].
  apply (step3_comments marginal_world marginal_checked result s').
  vm_compute. vm_compute in E. exact E.
Defined.

Lemma step3_result_shape_witness :
  match fst marginal_extracted with
  | Ok result =>
      mr_extracted result + mr_partial result + mr_failed result = mr_total result
  | Raise _ => False
  end.
Proof.
  destruct marginal_extracted as [[result|e] s'] eqn:E; [|discriminate E].
  apply (step3_result_shape marginal_world marginal_checked result s').
  vm_compute. vm_compute in E. exact E.
Defined.

Lemma step3_readable_iff_article_witness :
  Forall readable_rule
    (match fst marginal_extracted with
     | Ok result => mr_markings result
     | Raise _ => []
     end).
Proof.
  destruct marginal_extracted as [[result|e] s'] eqn:E; [|discriminate E].
  apply (step3_readable_iff_article marginal_world marginal_checked result s').
  vm_compute. vm_compute in E. exact E.
Defined.

(** ** Step 4 *)

Lemma fold_add_shift (l : list Z) :
  forall a, fold_left Z.add l a = a + fold_left Z.add l 0.
Proof.
  induction l as [|x l IH]; intros a; cbn [fold_left]; [lia|].
  rewrite (IH (a + x)), (IH (0 + x)). lia.
Qed.

Lemma sum_Z_cons (x : Z) (l : list Z) : sum_Z (x :: l) = x + sum_Z l.
Proof. unfold sum_Z. cbn [fold_left]. rewrite fold_add_shift. lia. Qed.

Lemma sum_values_set (d : counter) (k : string) (v : Z) :
  sum_values (counter_set d k v) = sum_values d - counter_get d k + v.
Proof.
  unfold sum_values. induction d as [|[k0 v0] d IH]; cbn [counter_set counter_get map snd].
  - rewrite sum_Z_cons. unfold sum_Z. cbn. lia.
  - destruct (String.eqb k0 k); cbn [map snd]; rewrite !sum_Z_cons; [lia|].
    rewrite IH. lia.
Qed.

Lemma sum_values_tally (l : list string) :
  forall d, sum_values (tally l d) = sum_values d + len l.
Proof.
  induction l as [|x l IH]; intros d.
  - unfold tally, len. cbn [fold_left List.length Z.of_nat]. lia.
  - cbn [tally fold_left]. fold (tally l (counter_incr d x)).
    rewrite IH. unfold counter_incr. rewrite sum_values_set.
    unfold len. cbn [List.length]. lia.
Qed.

Lemma fold_incr_tally {A : Type} (f : A -> string) (l : list A) :
  forall d, fold_left (fun d x => counter_incr d (f x)) l d = tally (map f l) d.
Proof.
  induction l as [|x l IH]; intros d; [reflexivity|].
  cbn [fold_left map tally]. apply IH.
Qed.

Lemma fold_articles_tally (ms : list marking) :
  forall d found,
    fold_left
      (fun '(d, found) m =>
         match article_key m with
         | Some article => (counter_incr d article, (found ++ [article])%list)
         | None => (d, found)
         end)
      ms (d, found) =
    (tally (article_keys ms) d, (found ++ article_keys ms)%list).
Proof.
  induction ms as [|m ms IH]; intros d found; cbn [fold_left].
  - cbn. rewrite app_nil_r. reflexivity.
  - unfold article_keys. cbn [flat_map]. fold (article_keys ms).
    destruct (article_key m) as [a|]; rewrite IH; [|reflexivity].
    cbn [app tally fold_left]. rewrite <- app_assoc. reflexivity.
Qed.

Lemma count_readable_ok (ms : list marking) (n : Z) :
  count_readable ms = Ok n -> n = count_if is_readable ms.
Proof.
  revert n. induction ms as [|m ms IH]; intros n; cbn [count_readable].
  - intros [= <-]. reflexivity.
  - rewrite count_if_cons. unfold is_readable at 1.
    destruct (m_readable m) as [b|]; [|discriminate].
    destruct (count_readable ms) as [k|]; [|discriminate]. unfold bind.
    intros H.
    assert (Hn : n = (if b then 1 + k else k)) by congruence.
    rewrite Hn, <- (IH k eq_refl). destruct b; lia.
Qed.

Lemma count_readable_missing (ms : list marking) :
  (exists m, In m ms /\ m_readable m = None) ->
  count_readable ms = Raise (KeyError "readable").
Proof.
  induction ms as [|m0 ms IH]; intros (m & Hin & Hm); [contradiction|].
  cbn [count_readable]. destruct (m_readable m0) as [b|] eqn:E; [|reflexivity].
  destruct Hin as [->|Hin]; [congruence|].
  rewrite IH by eauto. reflexivity.
Qed.

Lemma distinct_In (l : list string) (a : string) : In a (distinct l) <-> In a l.
Proof.
  induction l as [|x l IH]; cbn; [reflexivity|].
  destruct (mem_string x l) eqn:E.
  - rewrite IH. apply mem_string_In in E. split; [auto|].
    intros [->|H]; assumption.
  - cbn. rewrite IH. reflexivity.
Qed.

Lemma distinct_NoDup (l : list string) : NoDup (distinct l).
Proof.
  induction l as [|x l IH]; cbn; [constructor|].
  destruct (mem_string x l) eqn:E; [exact IH|].
  constructor; [|exact IH].
  rewrite distinct_In. apply mem_string_not_In, E.
Qed.

Lemma distinct_length (l : list string) :
  List.length (distinct l) = List.length (first_occurrences l).
Proof.
  apply Nat.le_antisymm; apply NoDup_incl_length;
    try apply distinct_NoDup; try apply first_occurrences_NoDup;
    intros a; rewrite distinct_In, first_occurrences_In; auto.
Qed.

Lemma tally_nil_keys (l : list string) :
  map fst (tally l []) = first_occurrences l.
Proof. rewrite tally_keys. cbn [map app]. apply filter_unseen_nil. Qed.

Lemma article_keys_length (ms : list marking) :
  len (article_keys ms) = count_if (fun m => truthy (m_article m)) ms.
Proof.
  induction ms as [|m ms IH]; [reflexivity|].
  rewrite count_if_cons, <- IH. unfold article_keys, len.
  cbn [flat_map]. rewrite length_app. unfold article_key.
  destruct (m_article m) as [a|]; [|cbn; lia].
  destruct (truthy (Some a)); cbn [List.length]; lia.
Qed.

Lemma occurrences_article_keys (a : string) (ms : list marking) :
  occurrences a (article_keys ms) =
  count_if (fun m => match article_key m with
                     | Some k => String.eqb k a
                     | None => false
                     end) ms.
Proof.
  induction ms as [|m ms IH]; [reflexivity|].
  unfold article_keys. cbn [flat_map]. fold (article_keys ms).
  rewrite occurrences_app, IH, count_if_cons. f_equal.
  destruct (article_key m) as [k|]; [|reflexivity].
  rewrite occurrences_cons, (String.eqb_sym a k).
  destruct (String.eqb k a); reflexivity.
Qed.

Lemma occurrences_map {A : Type} (f : A -> string) (a : string) (l : list A) :
  occurrences a (map f l) = count_if (fun x => String.eqb (f x) a) l.
Proof.
  induction l as [|x l IH]; [reflexivity|].
  cbn [map]. rewrite occurrences_cons, count_if_cons, IH, (String.eqb_sym a).
  reflexivity.
Qed.

Lemma step4_inv (s s' : session) (result : count_result) :
  step4_count_verification s = (Ok result, s') ->
  exists mr n,
    r_markings (session_results s) = Some mr /\
    count_readable (mr_markings mr) = Ok n /\
    result =
      {| cr_success := true;
         cr_total_photos := len (mr_markings mr);
         cr_by_status := tally (map m_status (mr_markings mr)) [];
         cr_readable_markings := n;
         cr_unique_articles := len (distinct (article_keys (mr_markings mr)));
         cr_by_article := tally (article_keys (mr_markings mr)) [];
         cr_photos_match := len (mr_markings mr) =? len (mr_markings mr);
         cr_readable_count_match := true |} /\
    s' = mk_session (specification s) (template s) (photos s) 5
           (set_count_verification result (session_results s)).
Proof.
  unfold step4_count_verification.
  destruct (step4_try s) as [r|e] eqn:E; [|discriminate].
  intros [= -> <-]. unfold step4_try in E.
  destruct (r_markings (session_results s)) as [mr|] eqn:Em; [|discriminate].
  rewrite fold_articles_tally, fold_incr_tally in E. cbn [app] in E.
  destruct (count_readable (mr_markings mr)) as [n|] eqn:En; [|discriminate].
  unfold bind in E. injection E as <-.
  exists mr, n. split; [reflexivity|]. split; [exact En|].
  split; reflexivity.
Qed.

(** X8. When step 4 succeeds its two tallies are consistent with the
    markings: the counts by status add up to the number of markings, and
    each is the number of markings of that status; the counts by article
    add up to the number of markings whose article is a non-empty text,
    and each is the number of markings whose stripped article is that
    key; the number of unique articles is the number of keys; the keys of
    both tallies are pairwise distinct. The session gets step 5 and the
    counts; nothing else changes. *)
Theorem step4_tallies :
  forall s result s',
    step4_count_verification s = (Ok result, s') ->
    exists mr,
      r_markings (session_results s) = Some mr /\
      s' = mk_session (specification s) (template s) (photos s) 5
             (set_count_verification result (session_results s)) /\
      cr_total_photos result = len (mr_markings mr) /\
      cr_photos_match result = true /\
      sum_values (cr_by_status result) = len (mr_markings mr) /\
      (forall st, counter_get (cr_by_status result) st =
                  count_if (fun m => String.eqb (m_status m) st) (mr_markings mr)) /\
      sum_values (cr_by_article result) =
        count_if (fun m => truthy (m_article m)) (mr_markings mr) /\
      (forall a, counter_get (cr_by_article result) a =
                 count_if (fun m => match article_key m with
                                    | Some k => String.eqb k a
                                    | None => false
                                    end) (mr_markings mr)) /\
      cr_unique_articles result = len (cr_by_article result) /\
      cr_readable_markings result = count_if is_readable (mr_markings mr) /\
      NoDup (map fst (cr_by_status result)) /\
      NoDup (map fst (cr_by_article result)).
Proof.
  intros s result s' H. apply step4_inv in H.
  destruct H as (mr & n & Hm & Hn & -> & Hs).
  exists mr. split; [exact Hm|]. split; [exact Hs|].
  cbn [cr_total_photos cr_photos_match cr_by_status cr_by_article
       cr_unique_articles cr_readable_markings].
  split; [reflexivity|]. split; [apply Z.eqb_refl|].
  split; [rewrite sum_values_tally; unfold len; rewrite length_map; reflexivity|].
  split; [intros st; rewrite tally_get; cbn [counter_get]; apply occurrences_map|].
  split; [rewrite sum_values_tally; cbn; apply article_keys_length|].
  split; [intros a; rewrite tally_get; cbn [counter_get];
          apply occurrences_article_keys|].
  split.
  { unfold len. rewrite distinct_length, <- tally_nil_keys, !length_map.
    reflexivity. }
  split; [apply count_readable_ok, Hn|].
  rewrite !tally_nil_keys. split; apply first_occurrences_NoDup.
Qed.

Lemma step4_tallies_witness :
  match fst demo_counted with
  | Ok result => sum_values (cr_by_status result) = cr_total_photos result
  | Raise _ => False
  end.
Proof.
  destruct demo_counted as [[result|e] s'] eqn:E; [|discriminate E].
  destruct (step4_tallies demo_before_comparison result s')
    as (mr & _ & _ & Ht & _ & Hs & _).
  - vm_compute. vm_compute in E. exact E.
  - cbn [fst]. rewrite Ht. exact Hs.
Defined.

Lemma step3_after_step2 (w : world) (s : session) :
  exists pq result,
    fst (step2_check_photo_quality w s) = Ok pq /\
    step3_extract_markings w (snd (step2_check_photo_quality w s)) =
      (Ok result,
       mk_session (specification s) (template s) (photos s) 4
         (set_markings result (set_photo_quality pq (session_results s)))) /\
    stored_from w pq 0 (photos s) (mr_markings result).
Proof.
  assert (H2 : exists pq,
             step2_check_photo_quality w s =
               (Ok pq,
                set_step 3 (set_results (set_photo_quality pq (session_results s)) s)) /\
             pq_photos pq = step2_loop w 0 (photos s))
    by (eexists; split; reflexivity).
  destruct H2 as (pq & Hpq & Hphotos).
  exists pq. rewrite Hpq. cbn [fst snd].
  destruct (step3_loop_spec w pq (photos s) 0) as (ms & Hms & _).
  { intros i p Hp. destruct (step2_loop_nth w (photos s) 0 i p Hp) as (q & Hq & _).
    exists q. rewrite Hphotos. exact Hq. }
  unfold step3_extract_markings, step3_try.
  cbn [session_results r_photo_quality set_photo_quality photos set_step set_results].
  rewrite Hms. cbn [bind].
  eexists. split; [reflexivity|]. split; [reflexivity|].
  cbn [mr_markings]. apply step3_loop_stored, Hms.
Qed.

(** X7. Step 4 fails whenever one of the stored markings has no readable
    flag: it answers HTTP 400 with the text of the missing key and leaves
    the session as it was. The record step 3 makes up for a photo the
    quality check rejected is such a marking, so after steps 2 and 3 a
    single unreadable photo makes step 4 fail. *)
Theorem step4_fails_after_unreadable_photo :
  (forall s mr,
      r_markings (session_results s) = Some mr ->
      (exists m, In m (mr_markings mr) /\ m_readable m = None) ->
      step4_count_verification s =
        (Raise (HTTPException 400 "Ошибка пересчета: 'readable'"), s)) /\
  (forall w s i p,
      nth_error (photos s) i = Some p ->
      q_readable (check_image_quality (image_at w (p_path p))) = false ->
      let s3 :=
        snd (step3_extract_markings w (snd (step2_check_photo_quality w s))) in
      step4_count_verification s3 =
        (Raise (HTTPException 400 "Ошибка пересчета: 'readable'"), s3)).
Proof.
  assert (Hgen : forall s mr,
    r_markings (session_results s) = Some mr ->
    (exists m, In m (mr_markings mr) /\ m_readable m = None) ->
    step4_count_verification s =
      (Raise (HTTPException 400 "Ошибка пересчета: 'readable'"), s)).
  { intros s mr Hm Hex. unfold step4_count_verification, step4_try.
    rewrite Hm, fold_articles_tally, fold_incr_tally.
    rewrite (count_readable_missing _ Hex). reflexivity. }
  split; [exact Hgen|].
  intros w s i p Hp Hr s3. subst s3.
  destruct (step3_after_step2 w s) as (pq & result & Hpq & -> & Hst).
  cbn [snd]. apply (Hgen _ result); [reflexivity|].
  destruct (stored_from_nth _ _ _ _ _ Hst) as [_ Hn].
  destruct (Hn i p Hp) as (m & Hm & (q & Hq & Hcase)).
  exists m. split; [eapply nth_error_In, Hm|].
  assert (Hpq' : pq_photos pq = step2_loop w 0 (photos s)).
  { unfold step2_check_photo_quality in Hpq. cbn [fst] in Hpq.
    injection Hpq as <-. reflexivity. }
  destruct (step2_loop_nth w (photos s) 0 i p Hp) as (q' & Hq' & Hqr).
  cbn [Nat.add] in Hq. rewrite Hpq', Hq' in Hq. injection Hq as <-.
  rewrite Hr in Hqr.
  destruct Hcase as [[_ ->]|[Htrue _]]; [reflexivity|congruence].
Qed.

Lemma step4_fails_after_unreadable_photo_witness :
  step4_count_verification (snd marginal_extracted) =
    (Raise (HTTPException 400 "Ошибка пересчета: 'readable'"),
     snd marginal_extracted).
Proof.
  apply (proj2 step4_fails_after_unreadable_photo marginal_world marginal_session
           0%nat (mk_photo "uploads/small.jpg" "small.jpg") eq_refl).
  vm_compute. reflexivity.
Defined.

(** ** Step 5 *)

Lemma comparison_status (d : counter) (spec : list spec_item) (c : comparison_item) :
  In c (map (compare_item d) spec ++ extra_items d (map si_article spec)) ->
  c_status c = "✅" \/ c_status c = "⬇️" \/ c_status c = "⬆️" \/ c_status c = "🔁".
Proof.
  intros Hin. apply in_app_or in Hin. destruct Hin as [Hin|Hin].
  - apply in_map_iff in Hin. destruct Hin as (item & <- & _).
    unfold compare_item. cbn [c_status].
    destruct (_ =? 0); [auto|]. destruct (_ <? 0); auto.
  - apply extra_items_In in Hin. destruct Hin as (a & -> & _). cbn. auto.
Qed.

Lemma comparison_status_counts (l : list comparison_item) :
  Forall (fun c => c_status c = "✅" \/ c_status c = "⬇️" \/
                   c_status c = "⬆️" \/ c_status c = "🔁") l ->
  count_if (fun c => String.eqb (c_status c) "✅") l
  + count_if (fun c => String.eqb (c_status c) "⬇️") l
  + count_if (fun c => String.eqb (c_status c) "⬆️") l
  + count_if (fun c => String.eqb (c_status c) "🔁") l = len l.
Proof.
  induction 1 as [|c l Hc Hl IH]; [reflexivity|].
  rewrite !count_if_cons. unfold len in *. cbn [List.length].
  destruct Hc as [-> | [-> | [-> | ->]]];
    repeat match goal with
           | |- context [String.eqb ?a ?b] =>
               let v := eval vm_compute in (String.eqb a b) in
               change (String.eqb a b) with v
           end; lia.
Qed.

(** X9. In the answer of step 5 every position has one of the four
    statuses, and the four counts of the summary add up to the total
    number of positions, which is the length of the comparison. *)
Theorem step5_summary_adds_up :
  forall w s result s',
    step5_compare_specification w s = (Ok result, s') ->
    cmp_total_positions result = len (cmp_comparison result) /\
    cmp_exact_match result + cmp_shortage result + cmp_excess result
      + cmp_extra_articles result = cmp_total_positions result /\
    Forall (fun c => c_status c = "✅" \/ c_status c = "⬇️" \/
                     c_status c = "⬆️" \/ c_status c = "🔁")
      (cmp_comparison result).
Proof.
  intros w s result s' H. apply step5_inv in H.
  destruct H as (path & spec & mr & ac & _ & _ & _ & _ & Hl & Hr).
  assert (HF : Forall (fun c => c_status c = "✅" \/ c_status c = "⬇️" \/
                                c_status c = "⬆️" \/ c_status c = "🔁")
                 (cmp_comparison result)).
  { rewrite Hl. apply Forall_forall. intros c Hc.
    eapply comparison_status, Hc. }
  rewrite Hr. cbn [summarize cmp_total_positions cmp_exact_match cmp_shortage
                   cmp_excess cmp_extra_articles cmp_comparison].
  split; [reflexivity|]. split; [apply comparison_status_counts, HF|exact HF].
Qed.

Lemma step5_summary_adds_up_witness :
  match fst demo_after_comparison with
  | Ok result =>
      cmp_exact_match result + cmp_shortage result + cmp_excess result
        + cmp_extra_articles result = cmp_total_positions result
  | Raise _ => False
  end.
Proof.
  destruct demo_after_comparison as [[result|e] s'] eqn:E; [|discriminate E].
  apply (step5_summary_adds_up demo_world demo_before_comparison result s').
  vm_compute. vm_compute in E. exact E.
Defined.

(** X10. Step 5 is idempotent: run again on the session it left, it gives
    the same answer and leaves the same session. It reads only the
    specification path and the markings, and writes only the comparison
    and the step. *)
Theorem step5_idempotent :
  forall w s result s',
    step5_compare_specification w s = (Ok result, s') ->
    s' = mk_session (specification s) (template s) (photos s) 6
           (set_comparison result (session_results s)) /\
    step5_compare_specification w s' = (Ok result, s').
Proof.
  intros w s result s'. unfold step5_compare_specification.
  destruct (step5_try w s) as [r|e] eqn:E; [|discriminate].
  intros [= -> <-]. split; [reflexivity|].
  assert (E' : step5_try w
                 (set_step 6 (set_results (set_comparison result (session_results s)) s))
               = Ok result).
  { rewrite <- E. reflexivity. }
  rewrite E'. reflexivity.
Qed.

Lemma step5_idempotent_witness :
  step5_compare_specification demo_world (snd demo_after_comparison)
  = demo_after_comparison.
Proof.
  destruct demo_after_comparison as [[result|e] s'] eqn:E; [|discriminate E].
  apply (step5_idempotent demo_world demo_before_comparison result s').
  vm_compute. vm_compute in E. exact E.
Defined.

Lemma sum_Z_app (l1 l2 : list Z) : sum_Z (l1 ++ l2) = sum_Z l1 + sum_Z l2.
Proof.
  induction l1 as [|x l1 IH]; [unfold sum_Z; cbn; lia|].
  cbn [app]. rewrite !sum_Z_cons, IH. lia.
Qed.

Lemma sum_Z_map_add {A : Type} (f g : A -> Z) (l : list A) :
  sum_Z (map (fun a => f a + g a) l) = sum_Z (map f l) + sum_Z (map g l).
Proof.
  induction l as [|x l IH]; [reflexivity|].
  cbn [map]. rewrite !sum_Z_cons, IH. lia.
Qed.

Lemma sum_Z_indicator (x : string) (l : list string) :
  sum_Z (map (fun a => if String.eqb a x then 1 else 0) l) = occurrences x l.
Proof.
  induction l as [|a l IH]; [reflexivity|].
  cbn [map]. rewrite sum_Z_cons, occurrences_cons, IH, (String.eqb_sym x a).
  reflexivity.
Qed.

(** Summed over pairwise distinct articles, the occurrences in [l] count
    the members of [l] that are among the articles. *)
Lemma sum_occurrences (articles l : list string) :
  NoDup articles ->
  sum_Z (map (fun a => occurrences a l) articles) =
  count_if (fun x => mem_string x articles) l.
Proof.
  intros Hnd. induction l as [|x l IH].
  - unfold count_if. cbn [filter List.length Z.of_nat].
    clear Hnd. induction articles as [|a articles IHa]; [reflexivity|].
    cbn [map]. rewrite sum_Z_cons, IHa. reflexivity.
  - rewrite count_if_cons, <- IH.
    rewrite (map_ext _ (fun a => (if String.eqb a x then 1 else 0) + occurrences a l)).
    + rewrite sum_Z_map_add, sum_Z_indicator, (occurrences_NoDup _ _ Hnd).
      reflexivity.
    + intros a. apply occurrences_cons.
Qed.

Lemma count_if_ext_in {A : Type} (p q : A -> bool) (l : list A) :
  (forall x, In x l -> p x = q x) -> count_if p l = count_if q l.
Proof.
  intros H. unfold count_if. rewrite (filter_ext_in _ _ _ H). reflexivity.
Qed.

Lemma mem_string_filter (p : string -> bool) (x : string) (l : list string) :
  mem_string x (filter p l) = p x && mem_string x l.
Proof.
  destruct (mem_string x (filter p l)) eqn:E.
  - apply mem_string_In, filter_In in E. destruct E as [Hin Hp].
    rewrite Hp. apply mem_string_In in Hin. rewrite Hin. reflexivity.
  - apply mem_string_not_In in E. rewrite filter_In in E.
    destruct (p x) eqn:Hp; [|reflexivity].
    destruct (mem_string x l) eqn:Hm; [|reflexivity].
    apply mem_string_In in Hm. exfalso. apply E. split; [assumption|reflexivity].
Qed.

(** X11. When the articles of the specification are pairwise distinct,
    every counted marking is accounted for exactly once: the actual counts
    of the comparison add up to the number of markings that are readable
    and carry a non-empty article. *)
Theorem step5_actual_counts_add_up :
  forall w s result s',
    step5_compare_specification w s = (Ok result, s') ->
    exists path spec mr,
      specification s = Some path /\
      parse_excel_specification (excel_at w path) = Ok spec /\
      r_markings (session_results s) = Some mr /\
      (NoDup (map si_article spec) ->
       sum_actual (cmp_comparison result) =
       len (counted_articles (mr_markings mr))).
Proof.
  intros w s result s' H. apply step5_inv in H.
  destruct H as (path & spec & mr & ac & Hs & Hp & Hm & Hc & Hl & _).
  exists path, spec, mr.
  split; [exact Hs|]. split; [exact Hp|]. split; [exact Hm|].
  intros Hnd. apply count_actual_tally in Hc. subst ac.
  set (l := counted_articles (mr_markings mr)) in *.
  set (planned := map si_article spec) in *.
  unfold sum_actual. rewrite Hl, map_app, sum_Z_app.
  assert (H1 : map c_actual (map (compare_item (tally l [])) spec) =
               map (fun a => occurrences a l) planned).
  { unfold planned. rewrite !map_map. apply map_ext. intros item.
    cbn [compare_item c_actual]. rewrite tally_get. reflexivity. }
  assert (H2 : map c_actual (extra_items (tally l []) planned) =
               map (fun a => occurrences a l)
                 (filter (unseen planned) (first_occurrences l))).
  { unfold extra_items. rewrite map_map, tally_nil_keys. apply map_ext.
    intros a. cbn [extra_item c_actual]. rewrite tally_get. reflexivity. }
  rewrite H1, H2, (sum_occurrences _ _ Hnd).
  rewrite sum_occurrences
    by (apply NoDup_filter, first_occurrences_NoDup).
  rewrite <- (count_if_complement (fun x => mem_string x planned) l).
  f_equal. apply count_if_ext_in. intros x Hx.
  rewrite mem_string_filter. unfold unseen.
  replace (mem_string x (first_occurrences l)) with true; [apply andb_true_r|].
  symmetry. apply mem_string_In, first_occurrences_In, Hx.
Qed.

Lemma step5_actual_counts_add_up_witness :
  exists spec mr,
    NoDup (map si_article spec) /\
    sum_actual
      (match fst demo_after_comparison with
       | Ok result => cmp_comparison result
       | Raise _ => []
       end) = len (counted_articles (mr_markings mr)).
Proof.
  destruct demo_after_comparison as [[result|e] s'] eqn:E; [|discriminate E].
  destruct (step5_actual_counts_add_up demo_world demo_before_comparison result s')
    as (path & spec & mr & H1 & H2 & H3 & H4).
  - vm_compute. vm_compute in E. exact E.
  - exists spec, mr.
    assert (Hnd : NoDup (map si_article spec)).
    { vm_compute in H1. injection H1 as <-. vm_compute in H2.
      injection H2 as <-. cbn.
      repeat constructor; cbn; intuition discriminate. }
    split; [exact Hnd|exact (H4 Hnd)].
Defined.

(** ** Uploads and downloads *)

Lemma upload_one_frame (w : world) (writable : string -> bool) (prefix : string)
    (set : option string -> session -> session) (file : option upload)
    (s : session) :
  (forall v s0, session_results (set v s0) = session_results s0 /\
                step (set v s0) = step s0 /\ photos (set v s0) = photos s0) ->
  session_results (snd (upload_one w writable prefix set file s)) = session_results s /\
  step (snd (upload_one w writable prefix set file s)) = step s /\
  photos (snd (upload_one w writable prefix set file s)) = photos s.
Proof.
  intros Hset. unfold upload_one.
  destruct file as [u|]; [|repeat split].
  destruct (truthy (Some (u_filename u))); [|repeat split].
  destruct (save_file writable _); [apply Hset|repeat split].
Qed.

Lemma upload_photos_frame (w : world) (writable : string -> bool) (files : list upload) :
  forall i s,
    session_results (snd (upload_photos w writable i files s)) = session_results s /\
    step (snd (upload_photos w writable i files s)) = step s /\
    specification (snd (upload_photos w writable i files s)) = specification s /\
    template (snd (upload_photos w writable i files s)) = template s /\
    (forall r, fst (upload_photos w writable i files s) = Ok r ->
       map p_filename (photos (snd (upload_photos w writable i files s))) =
       (map p_filename (photos s) ++ map u_filename (filter kept files))%list).
Proof.
  induction files as [|u files IH]; intros i s; cbn [upload_photos].
  - repeat split. intros _ _. cbn. rewrite app_nil_r. reflexivity.
  - cbn [filter]. unfold kept at 1.
    destruct (truthy (Some (u_filename u))); cbn [andb]; [|apply IH].
    destruct (String.length (u_content u) =? 0)%nat; cbn [negb]; [apply IH|].
    destruct (save_file writable _).
    + destruct (IH (i + 1)
                  (set_photos
                     (photos s ++
                      [mk_photo
                         ("uploads/photo_" ++ str_of_Z i ++ "_" ++ now w ++
                          str_or (splitext_ext (u_filename u)) ".jpg")
                         (u_filename u)])%list s))
        as (H1 & H2 & H3 & H4 & H5).
      split; [exact H1|]. split; [exact H2|]. split; [exact H3|].
      split; [exact H4|].
      intros r Hr. rewrite (H5 r Hr). cbn [photos set_photos].
      rewrite map_app, <- app_assoc. reflexivity.
    + repeat split. intros r Hr. discriminate Hr.
Qed.

Lemma step4_reads_results (s s' : session) :
  session_results s' = session_results s ->
  fst (step4_count_verification s') = fst (step4_count_verification s).
Proof.
  intros H. unfold step4_count_verification, step4_try. rewrite H.
  destruct (r_markings (session_results s)) as [mr|]; [|reflexivity].
  rewrite fold_articles_tally, fold_incr_tally.
  destruct (count_readable (mr_markings mr)); reflexivity.
Qed.

(** X12. An upload never touches the stored results: whether it succeeds
    or fails, the results of earlier steps stay in the session, so step 4
    answers after the upload exactly as before it, from the markings of
    the previous photos. A successful upload sets the step to 1 and keeps,
    in order, the photos that have a file name and are not empty; a
    failed one answers HTTP 400 and keeps the step. *)
Theorem upload_keeps_results :
  forall w writable specification template files s,
    let r := upload_files w writable specification template files s in
    session_results (snd r) = session_results s /\
    fst (step4_count_verification (snd r)) = fst (step4_count_verification s) /\
    (forall report,
        fst r = Ok report ->
        step (snd r) = 1 /\
        map p_filename (photos (snd r)) = map u_filename (filter kept files) /\
        ur_photos report = len (filter kept files)) /\
    (forall e,
        fst r = Raise e ->
        (exists detail, e = HTTPException 400 detail) /\ step (snd r) = step s).
Proof.
  intros w writable spec tmpl files s r.
  assert (Hmain :
    session_results (snd r) = session_results s /\
    (forall report,
        fst r = Ok report ->
        step (snd r) = 1 /\
        map p_filename (photos (snd r)) = map u_filename (filter kept files) /\
        ur_photos report = len (filter kept files)) /\
    (forall e,
        fst r = Raise e ->
        (exists detail, e = HTTPException 400 detail) /\ step (snd r) = step s)).
  { subst r. unfold upload_files.
    set (s0 := set_photos [] (set_template None (set_specification None s))).
    assert (R0 : session_results s0 = session_results s) by reflexivity.
    assert (S0 : step s0 = step s) by reflexivity.
    assert (P0 : photos s0 = []) by reflexivity.
    clearbody s0.
    pose proof (upload_one_frame w writable "specification" set_specification spec s0
                  ltac:(intros; repeat split)) as (A1 & A2 & A3).
    destruct (upload_one w writable "specification" set_specification spec s0)
      as [[spec_name|e1] s1]; cbn [snd] in *.
    2:{ split; [congruence|]. split; [intros report Hr; discriminate Hr|].
        intros e [= <-]. split; [eauto|congruence]. }
    pose proof (upload_one_frame w writable "template" set_template tmpl s1
                  ltac:(intros; repeat split)) as (B1 & B2 & B3).
    destruct (upload_one w writable "template" set_template tmpl s1)
      as [[template_name|e2] s2]; cbn [snd] in *.
    2:{ split; [congruence|]. split; [intros report Hr; discriminate Hr|].
        intros e [= <-]. split; [eauto|congruence]. }
    pose proof (upload_photos_frame w writable files 0 s2) as (C1 & C2 & _ & _ & C5).
    destruct (upload_photos w writable 0 files s2) as [[u|e3] s3]; cbn [fst snd] in *.
    2:{ split; [congruence|]. split; [intros report Hr; discriminate Hr|].
        intros e [= <-]. split; [eauto|congruence]. }
    split; [cbn; congruence|]. split; [|intros e He; discriminate He].
    intros report [= <-]. cbn [step set_step photos ur_photos].
    specialize (C5 u eq_refl). rewrite B3, A3, P0 in C5. cbn [map app] in C5.
    split; [reflexivity|]. split; [exact C5|].
    unfold len. rewrite <- (length_map p_filename), C5, length_map. reflexivity. }
  destruct Hmain as (H1 & H2 & H3).
  split; [exact H1|]. split; [apply step4_reads_results, H1|].
  split; assumption.
Qed.

Lemma upload_keeps_results_witness :
  match fst demo_uploaded with
  | Ok report => ur_photos report = 2
  | Raise _ => False
  end /\
  fst (step4_count_verification (snd demo_uploaded)) = fst demo_counted.
Proof.
  pose proof (upload_keeps_results demo_world any_path
                (Some (mk_upload "spec.xlsx" "PK")) None
                [mk_upload "one.png" "x"; mk_upload "" "y"; mk_upload "empty.jpg" "";
                 mk_upload "README" "z"]
                (snd demo_counted)) as H.
  cbv zeta in H. destruct H as (_ & H4 & Hok & _).
  split.
  - destruct (Hok (mk_upload_report true (Some "spec.xlsx") None 2) eq_refl)
      as (_ & _ & Hn).
    exact Hn.
  - exact H4.
Defined.

(** X13. A download of a file that is not there is answered with HTTP 400,
    not 404: the 404 raised inside the handler is caught by the handler's
    own [except] and wrapped. The [file_type] of the route is not used:
    the file is looked up under "output/" by its name alone. *)
Theorem download_missing_file_is_400 :
  forall w file_type filename,
    (exists_at w ("output/" ++ filename) = false ->
     download_file w file_type filename =
       Raise (HTTPException 400 "Ошибка скачивания: 404: Файл не найден")) /\
    (exists_at w ("output/" ++ filename) = true ->
     exists response,
       download_file w file_type filename = Ok response /\
       fr_path response = "output/" ++ filename /\
       fr_filename response = filename) /\
    download_file w file_type filename = download_file w "" filename.
Proof.
  intros w file_type filename. unfold download_file.
  split; [|split; [|reflexivity]].
  - intros ->. reflexivity.
  - intros ->. eexists. repeat split.
Qed.

Lemma download_missing_file_is_400_witness :
  download_file
    (mk_world (image_at demo_world) (recognition_at demo_world)
       (excel_at demo_world) (workbook_at demo_world) (fun _ => false) "t")
    "invoice" "x.xlsx" =
  Raise (HTTPException 400 "Ошибка скачивания: 404: Файл не найден").
Proof.
  apply (proj1 (download_missing_file_is_400 _ "invoice" "x.xlsx")).
  reflexivity.
Defined.

(** ** Specification sheet *)

Lemma last_label_hit (k : label_kind) (pre : list string) (col : string) :
  kind_of col = k ->
  last_label k (pre ++ [col]) (Some (List.length pre)).
Proof.
  intros Hk. split.
  - exists col. split; [|exact Hk].
    rewrite nth_error_app2 by lia. rewrite Nat.sub_diag. reflexivity.
  - intros j col' Hj Hn.
    assert (Hnone : nth_error (pre ++ [col]) j = None).
    { apply nth_error_None. rewrite length_app. cbn [List.length]. lia. }
    congruence.
Qed.

Lemma last_label_miss (k : label_kind) (pre : list string) (col : string)
    (r : option nat) :
  kind_of col <> k ->
  last_label k pre r ->
  last_label k (pre ++ [col]) r.
Proof.
  intros Hk H. destruct r as [i|]; cbn [last_label] in *.
  - destruct H as ((col0 & Hi & Hk0) & Hlater).
    assert (Hlt : (i < List.length pre)%nat).
    { apply nth_error_Some. congruence. }
    split.
    + exists col0. split; [|exact Hk0].
      rewrite nth_error_app1 by exact Hlt. exact Hi.
    + intros j col' Hj Hn.
      destruct (Nat.lt_ge_cases j (List.length pre)) as [Hin|Hout].
      * rewrite nth_error_app1 in Hn by exact Hin. exact (Hlater j col' Hj Hn).
      * rewrite nth_error_app2 in Hn by exact Hout.
        destruct (j - List.length pre)%nat as [|m] eqn:Hm; cbn in Hn.
        -- injection Hn as <-. exact Hk.
        -- destruct m; discriminate Hn.
  - intros col' Hin. apply in_app_or in Hin. destruct Hin as [Hin|[<-|[]]].
    + exact (H col' Hin).
    + exact Hk.
Qed.

Lemma last_label_unique (k : label_kind) (cols : list string) (r r' : option nat) :
  last_label k cols r -> last_label k cols r' -> r = r'.
Proof.
  intros H H'. destruct r as [i|], r' as [j|]; cbn [last_label] in *.
  - destruct H as ((c & Hc & Hk) & Hl), H' as ((c' & Hc' & Hk') & Hl').
    destruct (Nat.lt_trichotomy i j) as [Hlt|[->|Hlt]].
    + exfalso. exact (Hl j c' Hlt Hc' Hk').
    + reflexivity.
    + exfalso. exact (Hl' i c Hlt Hc Hk).
  - destruct H as ((c & Hc & Hk) & _). exfalso.
    exact (H' c (nth_error_In _ _ Hc) Hk).
  - destruct H' as ((c & Hc & Hk) & _). exfalso.
    exact (H c (nth_error_In _ _ Hc) Hk).
  - reflexivity.
Qed.

Lemma find_spec_columns_last (cols : list string) :
  forall pre a q n,
    last_label ArticleLabel pre a ->
    last_label QuantityLabel pre q ->
    last_label NameLabel pre n ->
    exists a' q' n',
      find_spec_columns cols (List.length pre) (a, q, n) = (a', q', n') /\
      last_label ArticleLabel (pre ++ cols) a' /\
      last_label QuantityLabel (pre ++ cols) q' /\
      last_label NameLabel (pre ++ cols) n'.
Proof.
  induction cols as [|col rest IH]; intros pre a q n Ha Hq Hn.
  - exists a, q, n. rewrite app_nil_r. cbn [find_spec_columns]. repeat split; assumption.
  - cbn [find_spec_columns].
    replace (S (List.length pre)) with (List.length (pre ++ [col]))
      by (rewrite length_app; cbn [List.length]; lia).
    replace (pre ++ col :: rest)%list with ((pre ++ [col]) ++ rest)%list
      by (rewrite <- app_assoc; reflexivity).
    assert (Hkind := eq_refl (kind_of col)). unfold kind_of at 2 in Hkind.
    destruct (any_in ["артикул"; "код"; "article"] (lower col)).
    { apply IH.
      - apply last_label_hit. exact Hkind.
      - apply last_label_miss; [congruence|exact Hq].
      - apply last_label_miss; [congruence|exact Hn]. }
    destruct (any_in ["количество"; "кол-во"; "qty"; "quantity"] (lower col)).
    { apply IH.
      - apply last_label_miss; [congruence|exact Ha].
      - apply last_label_hit. exact Hkind.
      - apply last_label_miss; [congruence|exact Hn]. }
    destruct (any_in ["наименование"; "название"; "name"] (lower col)).
    { apply IH.
      - apply last_label_miss; [congruence|exact Ha].
      - apply last_label_miss; [congruence|exact Hq].
      - apply last_label_hit. exact Hkind. }
    apply IH; apply last_label_miss; solve [congruence | assumption].
Qed.

Lemma find_spec_columns_spec (cols : list string) :
  exists a q n,
    find_spec_columns cols 0 (None, None, None) = (a, q, n) /\
    last_label ArticleLabel cols a /\
    last_label QuantityLabel cols q /\
    last_label NameLabel cols n.
Proof.
  apply (find_spec_columns_last cols []); intros col [].
Qed.

Lemma cell_int_raises (c : cell) (e : exn) :
  cell_int c = Raise e -> exists msg, e = ValueError msg.
Proof.
  unfold cell_int. destruct c as [|s|z]; intros H.
  - injection H as <-. eauto.
  - destruct (strip s) as [|ch t].
    + destruct (literal_val 0 false ""); [discriminate H|injection H as <-; eauto].
    + destruct ch as [[] [] [] [] [] [] [] []];
        repeat match type of H with
               | context [literal_val ?a ?b ?t] => destruct (literal_val a b t)
               end;
        first [discriminate H | injection H as <-; eauto].
  - discriminate H.
Qed.

Lemma parse_rows_spec (a q : nat) (n : option nat) (rows : list (list cell)) :
  (forall items,
      parse_rows a q n rows = Ok items <->
      Forall2 (item_from a q n) (filter (present a q) rows) items) /\
  (forall e, parse_rows a q n rows = Raise e ->
     exists row msg,
       In row rows /\ present a q row = true /\
       cell_int (row_at row q) = Raise (ValueError msg) /\ e = ValueError msg).
Proof.
  induction rows as [|row rest [IHok IHerr]]; cbn [parse_rows filter].
  - split.
    + intros items. split.
      * intros [= <-]. constructor.
      * intros H. inversion H. reflexivity.
    + intros e H. discriminate H.
  - fold (present a q row).
    destruct (present a q row) eqn:Hp.
    + destruct (cell_int (row_at row q)) as [z|e0] eqn:Hz; cbn [bind].
      * destruct (parse_rows a q n rest) as [items0|e1] eqn:Hrest; cbn [bind].
        -- split; [|intros e H; discriminate H].
           intros items. split.
           ++ intros [= <-]. constructor.
              ** repeat split. exact Hz.
              ** apply IHok. reflexivity.
           ++ intros H. inversion H as [|row' item rows' items' Hitem Hrest']; subst.
              apply IHok in Hrest'. injection Hrest' as <-.
              destruct Hitem as (H1 & H2 & H3).
              destruct item as [ar qu na]; cbn [si_article si_quantity si_name] in *.
              rewrite Hz in H2. injection H2 as <-. subst. reflexivity.
        -- split.
           ++ intros items. split; [intros H; discriminate H|].
              intros H. inversion H as [|row' item rows' items' Hitem Hrest']; subst.
              apply IHok in Hrest'. discriminate Hrest'.
           ++ intros e [= <-].
              destruct (IHerr e1 eq_refl) as (row' & msg & Hin & Hp' & Hc & He).
              exists row', msg. repeat split; try assumption. right. exact Hin.
      * split.
        -- intros items. split; [intros H; discriminate H|].
           intros H. inversion H as [|row' item rows' items' Hitem Hrest']; subst.
           destruct Hitem as (_ & H2 & _). rewrite Hz in H2. discriminate H2.
        -- intros e [= <-].
           destruct (cell_int_raises _ _ Hz) as (msg & ->).
           exists row, msg. repeat split; try assumption. left. reflexivity.
    + split.
      * exact IHok.
      * intros e H. destruct (IHerr e H) as (row' & msg & Hin & Hp' & Hc & He).
        exists row', msg. repeat split; try assumption. right. exact Hin.
Qed.

Lemma parse_rows_first_failure (a q : nat) (n : option nat) (rows : list (list cell)) :
  forall row,
    In row rows -> present a q row = true ->
    (forall z, cell_int (row_at row q) <> Ok z) ->
    exists e, parse_rows a q n rows = Raise e.
Proof.
  induction rows as [|row0 rest IH]; intros row Hin Hp Hbad; [destruct Hin|].
  cbn [parse_rows]. fold (present a q row0).
  destruct Hin as [->|Hin].
  - rewrite Hp. destruct (cell_int (row_at row q)) as [z|e] eqn:Hz.
    + exfalso. exact (Hbad z eq_refl).
    + cbn [bind]. eauto.
  - destruct (IH row Hin Hp Hbad) as (e & He).
    destruct (present a q row0); [|eauto].
    destruct (cell_int (row_at row0 q)); cbn [bind]; [|eauto].
    rewrite He. cbn [bind]. eauto.
Qed.

(** X14. The columns of the specification are chosen by their labels: when
    no label holds an article word, or none holds a quantity word without
    holding an article word, the parse fails with one fixed message; in
    every other case the article, quantity and name columns are the last
    columns of their kind, a label with an article word never counting as
    a quantity or name column. *)
Theorem specification_columns :
  forall df,
    ((forall col, In col (df_columns df) -> kind_of col <> ArticleLabel) \/
     (forall col, In col (df_columns df) -> kind_of col <> QuantityLabel) ->
     parse_excel_specification (Ok df) =
       Raise (ValueError
                "Ошибка парсинга спецификации: Не найдены колонки с артикулами или количеством")) /\
    ((exists col, In col (df_columns df) /\ kind_of col = ArticleLabel) ->
     (exists col, In col (df_columns df) /\ kind_of col = QuantityLabel) ->
     exists a q n,
       find_spec_columns (df_columns df) 0 (None, None, None) = (Some a, Some q, n) /\
       last_label ArticleLabel (df_columns df) (Some a) /\
       last_label QuantityLabel (df_columns df) (Some q) /\
       last_label NameLabel (df_columns df) n /\
       a <> q /\ n <> Some a /\ n <> Some q).
Proof.
  intros df.
  destruct (find_spec_columns_spec (df_columns df)) as (a & q & n & E & Ha & Hq & Hn).
  split.
  - intros Hnone.
    unfold parse_excel_specification, parse_excel_specification_try.
    cbn [bind]. rewrite E.
    destruct a as [a|]; [|reflexivity].
    destruct q as [q|]; [|reflexivity].
    exfalso. destruct Hnone as [Hno|Hno].
    + destruct Ha as ((c & Hc & Hk) & _). exact (Hno c (nth_error_In _ _ Hc) Hk).
    + destruct Hq as ((c & Hc & Hk) & _). exact (Hno c (nth_error_In _ _ Hc) Hk).
  - intros (ca & Hca & Hka) (cq & Hcq & Hkq).
    destruct a as [a|]; [|exfalso; exact (Ha ca Hca Hka)].
    destruct q as [q|]; [|exfalso; exact (Hq cq Hcq Hkq)].
    exists a, q, n. repeat split; try assumption; try apply Ha; try apply Hq.
    + intros ->. destruct Ha as ((c & Hc & Hk) & _), Hq as ((c' & Hc' & Hk') & _).
      congruence.
    + intros ->. destruct Ha as ((c & Hc & Hk) & _), Hn as ((c' & Hc' & Hk') & _).
      congruence.
    + intros ->. destruct Hq as ((c & Hc & Hk) & _), Hn as ((c' & Hc' & Hk') & _).
      congruence.
Qed.

Lemma specification_columns_witness :
  exists a q n,
    find_spec_columns (df_columns mixed_specification) 0 (None, None, None) =
      (Some a, Some q, n) /\
    last_label ArticleLabel (df_columns mixed_specification) (Some a) /\
    last_label QuantityLabel (df_columns mixed_specification) (Some q) /\
    last_label NameLabel (df_columns mixed_specification) n /\
    a <> q /\ n <> Some a /\ n <> Some q.
Proof.
  apply (proj2 (specification_columns mixed_specification)).
  - exists "Код". split; [cbn; tauto|vm_compute; reflexivity].
  - exists "Кол-во". split; [cbn; tauto|vm_compute; reflexivity].
Defined.

(** X15. The items of the specification are the rows whose article and
    quantity cells are both filled, in the order of the sheet, each with
    its article and name stripped and its quantity converted by [int];
    other rows are left out. One such row whose quantity does not convert
    fails the whole parse with a [ValueError] that carries the prefix of
    the parser, and no item is returned. *)
Theorem specification_items :
  forall df a q n,
    last_label ArticleLabel (df_columns df) (Some a) ->
    last_label QuantityLabel (df_columns df) (Some q) ->
    last_label NameLabel (df_columns df) n ->
    (forall items,
        parse_excel_specification (Ok df) = Ok items <->
        Forall2 (item_from a q n) (filter (present a q) (df_rows df)) items) /\
    (forall row,
        In row (df_rows df) -> present a q row = true ->
        (forall z, cell_int (row_at row q) <> Ok z) ->
        exists msg,
          parse_excel_specification (Ok df) =
            Raise (ValueError ("Ошибка парсинга спецификации: " ++ msg))) /\
    (forall e,
        parse_excel_specification (Ok df) = Raise e ->
        exists row msg,
          In row (df_rows df) /\ present a q row = true /\
          cell_int (row_at row q) = Raise (ValueError msg) /\
          e = ValueError ("Ошибка парсинга спецификации: " ++ msg)).
Proof.
  intros df a q n Ha Hq Hn.
  destruct (find_spec_columns_spec (df_columns df)) as (a' & q' & n' & E & Ha' & Hq' & Hn').
  rewrite <- (last_label_unique _ _ _ _ Ha Ha') in E.
  rewrite <- (last_label_unique _ _ _ _ Hq Hq') in E.
  rewrite <- (last_label_unique _ _ _ _ Hn Hn') in E.
  assert (Hparse : parse_excel_specification (Ok df) =
                   try_except (parse_rows a q n (df_rows df))
                     (fun e => Raise (ValueError
                                        ("Ошибка парсинга спецификации: " ++ exn_str e)))).
  { unfold parse_excel_specification, parse_excel_specification_try.
    cbn [bind]. rewrite E. reflexivity. }
  rewrite Hparse.
  destruct (parse_rows_spec a q n (df_rows df)) as [Hok Herr].
  split; [|split].
  - intros items. rewrite <- Hok.
    destruct (parse_rows a q n (df_rows df)); cbn [try_except]; [tauto|].
    split; intros H; discriminate H.
  - intros row Hin Hp Hbad.
    destruct (parse_rows_first_failure a q n _ row Hin Hp Hbad) as (e & He).
    rewrite He. cbn [try_except]. eauto.
  - intros e He.
    destruct (parse_rows a q n (df_rows df)) as [items|e0]; cbn [try_except] in He;
      [discriminate He|].
    destruct (Herr e0 eq_refl) as (row & msg & Hin & Hp & Hc & ->).
    injection He as <-. exists row, msg. repeat split; assumption.
Qed.

Lemma specification_items_witness :
  parse_excel_specification (Ok mixed_specification) =
    Ok [mk_spec_item "A1" 10 "P"; mk_spec_item "7" (-3) "nan"] /\
  exists msg,
    parse_excel_specification (Ok bad_quantity_specification) =
      Raise (ValueError ("Ошибка парсинга спецификации: " ++ msg)).
Proof.
  split.
  - apply (proj1 (specification_items mixed_specification 2 3 (Some 4%nat)
                    ltac:(split; [exists "Код количества"; split; vm_compute; reflexivity
                                 |intros [|[|[|[|[|[|j]]]]]] col Hj Hc;
                                  try lia; vm_compute in Hc; try discriminate Hc;
                                  injection Hc as <-; vm_compute; discriminate])
                    ltac:(split; [exists "Кол-во"; split; vm_compute; reflexivity
                                 |intros [|[|[|[|[|[|j]]]]]] col Hj Hc;
                                  try lia; vm_compute in Hc; try discriminate Hc;
                                  injection Hc as <-; vm_compute; discriminate])
                    ltac:(split; [exists "Product name"; split; vm_compute; reflexivity
                                 |intros [|[|[|[|[|[|j]]]]]] col Hj Hc;
                                  try lia; vm_compute in Hc; try discriminate Hc;
                                  injection Hc as <-; vm_compute; discriminate]))).
    vm_compute. repeat constructor.
  - apply (proj1 (proj2 (specification_items bad_quantity_specification 0 1 None
                    ltac:(split; [exists "Артикул"; split; vm_compute; reflexivity
                                 |intros [|[|[|j]]] col Hj Hc;
                                  try lia; vm_compute in Hc; try discriminate Hc;
                                  injection Hc as <-; vm_compute; discriminate])
                    ltac:(split; [exists "Количество"; split; vm_compute; reflexivity
                                 |intros [|[|[|j]]] col Hj Hc;
                                  try lia; vm_compute in Hc; try discriminate Hc;
                                  injection Hc as <-; vm_compute; discriminate])
                    ltac:(intros col Hin; cbn in Hin;
                          destruct Hin as [<-|[<-|[]]]; vm_compute; discriminate)))
             [CStr "A2"; CStr "пять"]).
    + cbn. tauto.
    + vm_compute. reflexivity.
    + intros z H. vm_compute in H. discriminate H.
Defined.

(** ** Areas *)

Lemma digits_val_nonneg (s : string) :
  forall acc seen v, 0 <= acc -> digits_val acc seen s = Some v -> 0 <= v.
Proof.
  induction s as [|c s IH]; intros acc seen v Hacc; cbn [digits_val].
  - destruct seen; [intros [= <-]; exact Hacc|discriminate].
  - destruct (is_digit c) eqn:Hc; [|discriminate].
    apply IH. unfold is_digit in Hc. apply andb_true_iff in Hc.
    destruct Hc as [Hlo _]. apply Z.leb_le in Hlo. unfold digit_val. lia.
Qed.

Lemma fraction_val_nonneg (s : string) :
  forall acc n f m, 0 <= acc -> fraction_val acc n s = Some (f, m) -> 0 <= f.
Proof.
  induction s as [|c s IH]; intros acc n f m Hacc; cbn [fraction_val].
  - destruct n; [discriminate|intros [= <- _]; exact Hacc].
  - destruct (is_digit c) eqn:Hc; [|discriminate].
    apply IH. unfold is_digit in Hc. apply andb_true_iff in Hc.
    destruct Hc as [Hlo _]. apply Z.leb_le in Hlo. unfold digit_val. lia.
Qed.

Lemma Qred_nonneg (q : Q) : (0 <= q)%Q -> (0 <= Qred q)%Q.
Proof.
  intros H. apply (Qle_trans _ q); [exact H|].
  apply Qle_lteq. right. symmetry. apply Qred_correct.
Qed.

Lemma py_float_nonneg (s : string) (q : Q) :
  py_float s = Ok q -> (0 <= q)%Q.
Proof.
  unfold py_float. destruct (split_at_dot s) as [a [b|]].
  - destruct (digits_val 0 false a) as [v|] eqn:Hv; [|discriminate].
    destruct (fraction_val 0 0 b) as [[f n]|] eqn:Hf; [|discriminate].
    intros H.
    assert (E : Qred (inject_Z v + (f # Z.to_pos (10 ^ Z.of_nat n))) = q)
      by (injection H as H'; exact H').
    rewrite <- E. apply Qred_nonneg.
    apply digits_val_nonneg in Hv; [|lia].
    apply fraction_val_nonneg in Hf; [|lia].
    unfold Qle, Qplus, inject_Z. cbn [Qnum Qden]. nia.
  - destruct (digits_val 0 false a) as [v|] eqn:Hv; [|discriminate].
    intros [= <-]. apply digits_val_nonneg in Hv; [|lia].
    unfold Qle, inject_Z. cbn [Qnum Qden]. lia.
Qed.

Lemma round_half_even_nonneg (n d : Z) :
  0 <= n -> 0 < d -> 0 <= round_half_even n d.
Proof.
  intros Hn Hd. unfold round_half_even.
  pose proof (Z.div_pos n d Hn Hd) as Hf.
  destruct (2 * (n mod d) ?= d); [destruct (Z.even (n / d))| |]; lia.
Qed.

Lemma py_round_nonneg (x : Q) (ndigits : nat) :
  (0 <= x)%Q -> (0 <= py_round x ndigits)%Q.
Proof.
  intros Hx. unfold py_round. apply Qred_nonneg.
  unfold Qle in *. cbn [Qnum Qden] in *.
  pose proof (round_half_even_nonneg (Qnum x * 10 ^ Z.of_nat ndigits)
                (Z.pos (Qden x))) as H.
  assert (0 <= 10 ^ Z.of_nat ndigits) by (apply Z.pow_nonneg; lia).
  nia.
Qed.

Lemma thousandth_nonneg (x : Q) : (0 <= x)%Q -> (0 <= x / 1000)%Q.
Proof.
  intros Hx. unfold Qdiv. apply Qmult_le_0_compat; [exact Hx|].
  unfold Qle. cbn. lia.
Qed.

(** X16. The area is never negative, whatever the texts. The dimensions,
    when they are a non-empty text, decide alone: the name is not read,
    even if the dimensions hold no size and the name does; with no
    dimensions, or empty ones, the name is read instead. *)
Theorem area_nonnegative_and_source :
  forall name dimensions,
    (exists area,
        calculate_square_meters name dimensions = Ok area /\ (0 <= area)%Q) /\
    (forall d name',
        dimensions = Some d -> d <> "" ->
        calculate_square_meters name dimensions =
        calculate_square_meters name' dimensions) /\
    (dimensions = None \/ dimensions = Some "" ->
     calculate_square_meters name dimensions = calculate_square_meters name None).
Proof.
  intros name dimensions. split; [|split].
  - pose proof (calculate_square_meters_cases name dimensions) as H. cbv zeta in H.
    destruct (first_found patterns _) as [g|].
    + destruct H as (w & h & width & height & _ & Hw & _ & Hh & ->).
      eexists. split; [reflexivity|].
      apply py_float_nonneg in Hw. apply py_float_nonneg in Hh.
      apply py_round_nonneg.
      destruct (millimetres _ width height).
      * apply Qmult_le_0_compat; apply thousandth_nonneg; assumption.
      * apply Qmult_le_0_compat; assumption.
    + rewrite H. exists 0%Q. split; [reflexivity|apply Qle_refl].
  - intros d name' -> Hd.
    rewrite !calculate_square_meters_unfold. unfold or_else at 1 3.
    cbn [truthy]. destruct (String.eqb_spec d ""); [contradiction|reflexivity].
  - intros [->| ->]; reflexivity.
Qed.

Lemma area_nonnegative_and_source_witness :
  calculate_square_meters "Панель 500x300 мм" (Some "n/a") =
  calculate_square_meters "" (Some "n/a") /\
  calculate_square_meters "Панель 500x300 мм" (Some "") =
  calculate_square_meters "Панель 500x300 мм" None.
Proof.
  split.
  - apply (proj1 (proj2 (area_nonnegative_and_source "Панель 500x300 мм" (Some "n/a")))
             "n/a" "" eq_refl).
    discriminate.
  - apply (proj2 (proj2 (area_nonnegative_and_source "Панель 500x300 мм" (Some "")))).
    right. reflexivity.
Defined.

(** ** Filled invoice *)

Lemma same_key_eq (a b : Z * Z) : same_key a b = true <-> a = b.
Proof.
  unfold same_key. destruct a as [a1 a2], b as [b1 b2]. cbn [fst snd].
  rewrite andb_true_iff, !Z.eqb_eq. split.
  - intros [-> ->]. reflexivity.
  - intros [= -> ->]. split; reflexivity.
Qed.

Lemma same_key_false (a b c : Z * Z) :
  same_key a b = true -> same_key b c = false -> same_key a c = false.
Proof.
  intros Hab Hbc. apply same_key_eq in Hab. subst b. exact Hbc.
Qed.

Lemma ws_find_put_other (ws : worksheet) (k k' : Z * Z) (x : xcell) :
  same_key k' k = false -> ws_find (ws_put ws k' x) k = ws_find ws k.
Proof.
  intros Hk. induction ws as [|[k0 x0] ws IH]; cbn [ws_put ws_find].
  - rewrite Hk. reflexivity.
  - destruct (same_key k0 k') eqn:E0; cbn [ws_find].
    + rewrite (same_key_false k0 k' k E0 Hk). reflexivity.
    + rewrite IH. reflexivity.
Qed.

Lemma value_at_put (ws : worksheet) (k k' : Z * Z) (x : xcell) :
  value_at (ws_put ws k' x) k =
  if same_key k' k then x_value x else value_at ws k.
Proof.
  unfold value_at. destruct (same_key k' k) eqn:E.
  - apply same_key_eq in E. subst k'. rewrite ws_find_put. reflexivity.
  - rewrite ws_find_put_other by exact E. reflexivity.
Qed.

Lemma value_at_get_cell (ws : worksheet) (k k' : Z * Z) :
  value_at (snd (get_cell ws k')) k = value_at ws k.
Proof.
  unfold get_cell. destruct (ws_find ws k') as [x|] eqn:E; cbn [snd]; [reflexivity|].
  rewrite value_at_put. destruct (same_key k' k) eqn:Ek; [|reflexivity].
  apply same_key_eq in Ek. subst k'. unfold value_at. rewrite E. reflexivity.
Qed.

Lemma get_cell_value (ws : worksheet) (k : Z * Z) :
  x_value (fst (get_cell ws k)) = value_at ws k.
Proof.
  unfold get_cell, value_at. destruct (ws_find ws k); reflexivity.
Qed.

Lemma value_at_ws_cell (ws : worksheet) (row col : Z) (v : value)
    (r : xcell * worksheet) (k : Z * Z) :
  ws_cell ws row (Some col) v = Ok r ->
  value_at (snd r) k =
  if same_key (row, col) k
  then match v with VNone => value_at ws k | _ => v end
  else value_at ws k.
Proof.
  unfold ws_cell. destruct ((row <? 1) || (col <? 1)); [discriminate|].
  pose proof (value_at_get_cell ws k (row, col)) as Hg.
  destruct (get_cell ws (row, col)) as [x ws0]. cbn [snd] in Hg.
  destruct v; intros [= <-]; cbn [snd]; rewrite ?value_at_put; cbn [x_value];
    rewrite Hg; destruct (same_key (row, col) k); reflexivity.
Qed.

Lemma value_at_row_fold (row : Z) (k : Z * Z) (cols : list Z) :
  forall acc : list xcell * worksheet,
    value_at
      (snd (fold_left
              (fun '(cells, ws') col =>
                 let '(x, ws'') := get_cell ws' (row, col) in
                 ((cells ++ [x])%list, ws''))
              cols acc)) k =
    value_at (snd acc) k.
Proof.
  induction cols as [|c cols IH]; intros [cells ws0]; cbn [fold_left]; [reflexivity|].
  pose proof (value_at_get_cell ws0 k (row, c)) as Hg.
  destruct (get_cell ws0 (row, c)) as [x ws1]. cbn [snd] in Hg.
  rewrite IH. exact Hg.
Qed.

Lemma value_at_ws_row (ws : worksheet) (row : Z) (k : Z * Z) :
  value_at (snd (ws_row ws row)) k = value_at ws k.
Proof. unfold ws_row. apply (value_at_row_fold row k _ ([], ws)). Qed.

Lemma value_at_find_header_row (rows : list Z) (k : Z * Z) :
  forall header_row ws,
    value_at (snd (find_header_row rows header_row ws)) k = value_at ws k.
Proof.
  induction rows as [|row rows IH]; intros header_row ws; cbn [find_header_row];
    [reflexivity|].
  pose proof (value_at_ws_row ws row k) as Hr.
  destruct (ws_row ws row) as [cells ws1]. cbn [snd] in Hr.
  destruct ((if existsb _ cells then row else header_row) >? 1); cbn [snd].
  - exact Hr.
  - rewrite IH. exact Hr.
Qed.

Lemma find_header_row_from (rows : list Z) :
  forall header_row ws,
    fst (find_header_row rows header_row ws) = header_row \/
    In (fst (find_header_row rows header_row ws)) rows.
Proof.
  induction rows as [|row rows IH]; intros header_row ws; cbn [find_header_row];
    [left; reflexivity|].
  destruct (ws_row ws row) as [cells ws1].
  destruct (existsb _ cells).
  - destruct (row >? 1); cbn [fst].
    + right. left. reflexivity.
    + destruct (IH row ws1) as [->|H]; right; [left; reflexivity|right; exact H].
  - destruct (header_row >? 1); cbn [fst].
    + left. reflexivity.
    + destruct (IH header_row ws1) as [H|H]; [left; exact H|right; right; exact H].
Qed.

Lemma apply_writes_value (k : Z * Z) (l : list cell_write) :
  forall ws ws',
    apply_writes ws l = Ok ws' ->
    Forall (fun cw => cw_value cw <> VNone) l ->
    value_at ws' k =
    match last_write l k with
    | Some v => v
    | None => value_at ws k
    end.
Proof.
  induction l as [|cw l IH]; intros ws ws' H Hv; cbn [apply_writes last_write] in *.
  - injection H as <-. reflexivity.
  - inversion Hv as [|? ? Hcw Hrest]; subst.
    destruct (ws_cell ws (cw_row cw) (Some (cw_column cw)) (cw_value cw))
      as [r|e] eqn:E; cbn [bind] in H; [|discriminate H].
    rewrite (IH _ _ H Hrest).
    destruct (last_write l k); [reflexivity|].
    rewrite (value_at_ws_cell _ _ _ _ _ k E).
    destruct (same_key _ k); [|reflexivity].
    destruct (cw_value cw); [contradiction|reflexivity..].
Qed.

Lemma writes_of_app (r : role) (l1 l2 : list cell_write) :
  writes_of r (l1 ++ l2) = (writes_of r l1 ++ writes_of r l2)%list.
Proof. unfold writes_of. rewrite filter_app, map_app. reflexivity. Qed.

Lemma invoice_item_writes_shape (cols : invoice_columns) (markings : list marking)
    (item : comparison_item) (data_row row_num : Z) (l : list cell_write) :
  invoice_item_writes cols markings item data_row row_num = Ok l ->
  writes_of RNumber l = [(data_row, 1, VInt row_num)] /\
  writes_of RQuantity l =
    match qty_col cols with
    | Some c => [(data_row, c, VInt (c_actual item))]
    | None => []
    end /\
  writes_of RUnit l =
    match unit_col cols with
    | Some c => [(data_row, c, VStr "шт")]
    | None => []
    end /\
  Forall (fun cw => cw_row cw = data_row /\ cw_value cw <> VNone) l.
Proof.
  unfold invoice_item_writes.
  set (name := match first_marking_field m_name markings (c_article item) with
               | Some n => n
               | None => c_name item
               end).
  set (area := match area_col cols with
               | Some c => _
               | None => Ok []
               end).
  assert (Harea : forall a, area = Ok a ->
            writes_of RNumber a = [] /\ writes_of RQuantity a = [] /\
            writes_of RUnit a = [] /\
            Forall (fun cw => cw_row cw = data_row /\ cw_value cw <> VNone) a).
  { subst area. intros a. destruct (area_col cols) as [c|].
    - destruct (calculate_square_meters _ _) as [area_per_item|e]; cbn [bind];
        [|discriminate].
      destruct (Qltb 0 _); intros [= <-].
      + repeat split. constructor; [|constructor]. split; [reflexivity|discriminate].
      + repeat split. constructor.
    - intros [= <-]. repeat split. constructor. }
  clearbody area name. destruct area as [a|e]; cbn [bind]; [|discriminate].
  destruct (Harea a eq_refl) as (A1 & A2 & A3 & A4). clear Harea.
  intros H.
  assert (Hl : l =
            ([mk_cell_write RNumber data_row 1 (VInt row_num)]
               ++ write_if (name_col cols) RName data_row
                    (VStr (str_or name (c_article item)))
               ++ write_if (unit_col cols) RUnit data_row (VStr "шт")
               ++ write_if (qty_col cols) RQuantity data_row (VInt (c_actual item))
               ++ a)%list)
    by (injection H as <-; reflexivity).
  rewrite Hl. clear H Hl. rewrite !writes_of_app, A1, A2, A3.
  destruct (name_col cols), (unit_col cols), (qty_col cols);
    cbn [write_if writes_of filter map role_eqb cw_role cw_row cw_column cw_value app];
    (repeat split;
     repeat (apply Forall_cons; [split; [reflexivity|discriminate]|]);
     exact A4).
Qed.

Lemma column_down_length {A : Type} (f : Z -> A -> value) (l : list A) :
  forall row c i, List.length (column_down f row c i l) = List.length l.
Proof.
  induction l as [|a l IH]; intros row c i; cbn [column_down List.length];
    [reflexivity|].
  rewrite IH. reflexivity.
Qed.

Lemma invoice_writes_shape (cols : invoice_columns) (markings : list marking)
    (comparison : list comparison_item) :
  forall data_row row_num writes,
    invoice_writes cols markings comparison data_row row_num = Ok writes ->
    writes_of RNumber writes =
      column_down (fun i _ => VInt i) data_row 1 row_num (shipped_items comparison) /\
    (forall c, qty_col cols = Some c ->
       writes_of RQuantity writes =
         column_down (fun _ item => VInt (c_actual item)) data_row c row_num
           (shipped_items comparison)) /\
    (forall c, unit_col cols = Some c ->
       writes_of RUnit writes =
         column_down (fun _ _ => VStr "шт") data_row c row_num
           (shipped_items comparison)) /\
    Forall (fun cw =>
              data_row <= cw_row cw <
                data_row + Z.of_nat (List.length (shipped_items comparison)) /\
              cw_value cw <> VNone) writes.
Proof.
  induction comparison as [|item rest IH]; intros data_row row_num writes;
    cbn [invoice_writes shipped_items filter].
  - intros [= <-]. repeat split; constructor.
  - fold (shipped_items rest). destruct (c_actual item >? 0).
    + destruct (invoice_item_writes cols markings item data_row row_num)
        as [ws1|e] eqn:E1; cbn [bind]; [|discriminate].
      destruct (invoice_writes cols markings rest (data_row + 1) (row_num + 1))
        as [ws2|e] eqn:E2; cbn [bind]; [|discriminate].
      intros [= <-].
      destruct (invoice_item_writes_shape _ _ _ _ _ _ E1) as (N1 & Q1 & U1 & F1).
      destruct (IH _ _ _ E2) as (N2 & Q2 & U2 & F2).
      rewrite !writes_of_app. cbn [column_down List.length].
      split; [rewrite N1, N2; reflexivity|].
      split; [intros c Hc; rewrite Q1, Hc, (Q2 c Hc); reflexivity|].
      split; [intros c Hc; rewrite U1, Hc, (U2 c Hc); reflexivity|].
      apply Forall_app. split.
      * eapply Forall_impl; [|exact F1]. cbv beta. intros cw [-> Hv].
        split; [lia|exact Hv].
      * eapply Forall_impl; [|exact F2]. cbv beta. intros cw [Hr Hv].
        split; [lia|exact Hv].
    + apply IH.
Qed.

(** X17. The filled invoice has one row per position with a positive
    actual count, in the order of the comparison and without gaps: the
    rows follow the header row, which lies in rows 1 to 9, and are numbered
    1, 2, ... in column 1; the quantity and unit columns, when found, hold
    the actual count and "шт" in the same rows. Every write falls into
    these rows, and in the sheet that is saved each cell holds the value
    of the last write addressed to it, or what the template held. *)
Theorem invoice_rows :
  forall ws comparison markings cols writes ws',
    fill_invoice ws comparison markings = Ok (cols, writes, ws') ->
    let header_row := fst (find_header_row rows_1_to_9 1 ws) in
    let items := shipped_items comparison in
    1 <= header_row <= 9 /\
    writes_of RNumber writes =
      column_down (fun i _ => VInt i) (header_row + 1) 1 1 items /\
    (forall c, qty_col cols = Some c ->
       writes_of RQuantity writes =
         column_down (fun _ item => VInt (c_actual item)) (header_row + 1) c 1 items) /\
    (forall c, unit_col cols = Some c ->
       writes_of RUnit writes =
         column_down (fun _ _ => VStr "шт") (header_row + 1) c 1 items) /\
    Forall (fun cw =>
              header_row < cw_row cw <= header_row + Z.of_nat (List.length items))
      writes /\
    (forall k,
        value_at ws' k =
        match last_write writes k with
        | Some v => v
        | None => value_at ws k
        end).
Proof.
  intros ws comparison markings cols writes ws' H header_row items.
  unfold fill_invoice in H.
  pose proof (find_header_row_from rows_1_to_9 1 ws) as Hfrom.
  pose proof (fun k => value_at_find_header_row rows_1_to_9 k 1 ws) as Hframe1.
  fold header_row in Hfrom.
  destruct (find_header_row rows_1_to_9 1 ws) as [h ws1]. cbn [fst snd] in *.
  subst header_row.
  pose proof (fun k => value_at_ws_row ws1 h k) as Hframe2.
  destruct (ws_row ws1 h) as [cells ws2]. cbn [snd] in Hframe2.
  destruct (invoice_writes _ markings comparison (h + 1) 1) as [l|e] eqn:El;
    cbn [bind] in H; [|discriminate H].
  destruct (apply_writes ws2 l) as [ws3|e] eqn:Ea; cbn [bind] in H; [|discriminate H].
  injection H as <- <- <-.
  destruct (invoice_writes_shape _ _ _ _ _ _ El) as (N & Q & U & F).
  split.
  { destruct Hfrom as [->|Hin]; [lia|].
    unfold rows_1_to_9 in Hin. cbn [In] in Hin.
    repeat destruct Hin as [<-|Hin]; lia. }
  split; [exact N|]. split; [exact Q|]. split; [exact U|].
  split.
  { eapply Forall_impl; [|exact F]. cbv beta. fold items. intros cw [Hr _]. lia. }
  intros k. rewrite (apply_writes_value k l ws2 ws3 Ea).
  - rewrite Hframe2, Hframe1. reflexivity.
  - eapply Forall_impl; [|exact F]. cbv beta. intros cw [_ Hv]. exact Hv.
Qed.

Lemma invoice_rows_witness :
  match demo_filled with
  | Ok (cols, writes, ws') =>
      writes_of RNumber writes = [(4, 1, VInt 1); (5, 1, VInt 2)] /\
      writes_of RQuantity writes = [(4, 4, VInt 2); (5, 4, VInt 3)] /\
      value_at ws' (7, 1) = VStr "Итого"
  | Raise _ => False
  end.
Proof.
  destruct demo_filled as [[[cols writes] ws']|e] eqn:E; [|discriminate E].
  pose proof (invoice_rows invoice_template gap_items [] cols writes ws' E) as H.
  cbv zeta in H. destruct H as (_ & N & Q & _ & _ & V).
  split; [|split].
  - rewrite N. vm_compute. reflexivity.
  - rewrite (Q 4). + vm_compute. reflexivity.
    + vm_compute in E. injection E as <- _ _. reflexivity.
  - rewrite V. vm_compute in E. injection E as _ <- _. vm_compute. reflexivity.
Defined.

(** ** The template *)

(** X18. The template matters only at the two ends of the workflow. Steps
    2 to 6 neither read nor write it: with any other template, or none,
    they give the same answer and leave the same session but for the
    template. Step 7, with all the data of the earlier steps stored but
    the template missing, empty or not on disk, answers HTTP 400 with one
    fixed text and leaves the session as it was, whatever the
    specification file holds. *)
Theorem template_only_matters_at_step7 :
  forall w t s,
    step2_check_photo_quality w (set_template t s) =
      (fst (step2_check_photo_quality w s),
       set_template t (snd (step2_check_photo_quality w s))) /\
    step3_extract_markings w (set_template t s) =
      (fst (step3_extract_markings w s),
       set_template t (snd (step3_extract_markings w s))) /\
    step4_count_verification (set_template t s) =
      (fst (step4_count_verification s),
       set_template t (snd (step4_count_verification s))) /\
    step5_compare_specification w (set_template t s) =
      (fst (step5_compare_specification w s),
       set_template t (snd (step5_compare_specification w s))) /\
    (forall shipment_type shipment_date,
        step6_final_questions shipment_type shipment_date (set_template t s) =
          (fst (step6_final_questions shipment_type shipment_date s),
           set_template t (snd (step6_final_questions shipment_type shipment_date s)))) /\
    (forall cmp params mr,
        r_comparison (session_results s) = Some cmp ->
        r_final_params (session_results s) = Some params ->
        r_markings (session_results s) = Some mr ->
        t = None \/ t = Some "" \/ (exists p, t = Some p /\ exists_at w p = false) ->
        step7_generate_files w (set_template t s) =
          (Raise (HTTPException 400
                    "Ошибка генерации файлов: Ошибка генерации накладной: Отсутствует файл шаблона накладной"),
           set_template t s)).
Proof.
  intros w t s.
  split; [reflexivity|].
  split.
  { unfold step3_extract_markings.
    change (step3_try w (set_template t s)) with (step3_try w s).
    destruct (step3_try w s); reflexivity. }
  split.
  { unfold step4_count_verification.
    change (step4_try (set_template t s)) with (step4_try s).
    destruct (step4_try s); reflexivity. }
  split.
  { unfold step5_compare_specification.
    change (step5_try w (set_template t s)) with (step5_try w s).
    destruct (step5_try w s); reflexivity. }
  split.
  { intros shipment_type shipment_date. unfold step6_final_questions.
    destruct (strptime_dmy shipment_date) as [d|[]]; reflexivity. }
  intros cmp params mr Hc Hp Hm Ht.
  unfold step7_generate_files, step7_try.
  change (session_results (set_template t s)) with (session_results s).
  rewrite Hc, Hp, Hm.
  assert (Hinv : generate_filled_invoice w (set_template t s) (cmp_comparison cmp)
                   (mr_markings mr) params =
                 Raise (Exception
                          "Ошибка генерации накладной: Отсутствует файл шаблона накладной")).
  { unfold generate_filled_invoice.
    change (template (set_template t s)) with t.
    destruct Ht as [->|[->|(p & -> & Hex)]]; [reflexivity|reflexivity|].
    rewrite Hex, andb_false_r. reflexivity. }
  rewrite Hinv. reflexivity.
Qed.

Lemma template_only_matters_at_step7_witness :
  step7_generate_files english_world (set_template None english_session) =
    (Raise (HTTPException 400
              "Ошибка генерации файлов: Ошибка генерации накладной: Отсутствует файл шаблона накладной"),
     set_template None english_session).
Proof.
  destruct (r_comparison (session_results english_session)) as [cmp|] eqn:Ec;
    [|discriminate Ec].
  destruct (r_final_params (session_results english_session)) as [params|] eqn:Ep;
    [|discriminate Ep].
  destruct (r_markings (session_results english_session)) as [mr|] eqn:Em;
    [|discriminate Em].
  apply (proj2 (proj2 (proj2 (proj2 (proj2
           (template_only_matters_at_step7 english_world None english_session)))))
           cmp params mr Ec Ep Em).
  left. reflexivity.
Defined.

(** ** Updated specification *)

Lemma value_at_set_value (ws : worksheet) (k' : Z * Z) (v : value) (k : Z * Z) :
  ws_find ws k' <> None ->
  value_at (set_value ws k' v) k = if same_key k' k then v else value_at ws k.
Proof.
  intros Hex. unfold set_value.
  destruct (ws_find ws k') as [x|]; [|contradiction].
  rewrite value_at_put. reflexivity.
Qed.

Lemma value_at_set_fill (ws : worksheet) (k' : Z * Z) (f : string) (k : Z * Z) :
  value_at (set_fill ws k' f) k = value_at ws k.
Proof.
  unfold set_fill. destruct (ws_find ws k') as [x|] eqn:E; [|reflexivity].
  rewrite value_at_put. destruct (same_key k' k) eqn:Ek; [|reflexivity].
  apply same_key_eq in Ek. subst k'. unfold value_at. rewrite E. reflexivity.
Qed.

Lemma ws_find_set_fill (ws : worksheet) (k' : Z * Z) (f : string) (k : Z * Z) :
  ws_find ws k <> None -> ws_find (set_fill ws k' f) k <> None.
Proof.
  intros Hex. unfold set_fill. destruct (ws_find ws k') as [x|] eqn:E; [|exact Hex].
  destruct (same_key k' k) eqn:Ek.
  - apply same_key_eq in Ek. subst k'. rewrite ws_find_put. discriminate.
  - rewrite ws_find_put_other by exact Ek. exact Hex.
Qed.

(** [ws.cell(row, column)] without a value: the cell is there afterwards,
    its value is the one the position held, and no value changes. *)
Lemma ws_cell_read (ws : worksheet) (row col : Z) (x : xcell) (ws' : worksheet) :
  ws_cell ws row (Some col) VNone = Ok (x, ws') ->
  x_value x = value_at ws (row, col) /\
  ws_find ws' (row, col) <> None /\
  (forall k, value_at ws' k = value_at ws k).
Proof.
  intros H. split; [|split].
  - unfold ws_cell in H. destruct ((row <? 1) || (col <? 1)); [discriminate H|].
    pose proof (get_cell_value ws (row, col)) as Hv.
    destruct (get_cell ws (row, col)) as [x0 ws0]. cbn [fst] in Hv.
    injection H as <- _. exact Hv.
  - unfold ws_cell in H. destruct ((row <? 1) || (col <? 1)); [discriminate H|].
    unfold get_cell in H. destruct (ws_find ws (row, col)) as [x0|] eqn:E.
    + injection H as _ <-. rewrite E. discriminate.
    + injection H as _ <-. rewrite ws_find_put. discriminate.
  - intros k. pose proof (value_at_ws_cell ws row col VNone (x, ws') k H) as Hk.
    cbn [snd] in Hk. rewrite Hk.
    destruct (same_key (row, col) k); reflexivity.
Qed.

Lemma same_key_pair (r c : Z) (k : Z * Z) :
  same_key (r, c) k = (r =? fst k) && (c =? snd k).
Proof. reflexivity. Qed.

Lemma update_row_value (a shipped date : Z) (comparison : list comparison_item)
    (params : final_params) (ws : worksheet) (row : Z) (ws' : worksheet) :
  update_row (Some a) shipped date comparison params ws row = Ok ws' ->
  forall k,
    value_at ws' k =
    if fst k =? row then updated_value comparison params a shipped date ws k
    else value_at ws k.
Proof.
  unfold update_row. intros H k.
  destruct (ws_cell ws row (Some a) VNone) as [[x ws1]|e] eqn:E1; cbn [bind] in H;
    [|discriminate H].
  destruct (ws_cell_read _ _ _ _ _ E1) as (Hx & _ & Hf1).
  assert (Hspec : forall item_opt,
            matched comparison (value_at ws (row, a)) = item_opt ->
            (if fst k =? row
             then match item_opt with
                  | Some item =>
                      if snd k =? date then VStr (fp_shipment_date params)
                      else if snd k =? shipped then VInt (c_actual item)
                      else value_at ws k
                  | None => value_at ws k
                  end
             else value_at ws k) =
            (if fst k =? row then updated_value comparison params a shipped date ws k
             else value_at ws k)).
  { intros item_opt Hm. unfold updated_value.
    destruct (fst k =? row) eqn:Er; [|reflexivity].
    apply Z.eqb_eq in Er. rewrite Er, Hm. reflexivity. }
  rewrite <- (Hspec _ eq_refl). clear Hspec.
  unfold matched. rewrite <- Hx.
  destruct (value_truthy (x_value x)).
  2:{ injection H as <-. rewrite Hf1. destruct (fst k =? row); reflexivity. }
  destruct (find _ comparison) as [item|].
  2:{ injection H as <-. rewrite Hf1. destruct (fst k =? row); reflexivity. }
  destruct (ws_cell ws1 row (Some shipped) VNone) as [[x2 ws2]|e] eqn:E2;
    cbn [bind snd] in H; [|discriminate H].
  destruct (ws_cell_read _ _ _ _ _ E2) as (_ & Hex2 & Hf2).
  set (ws3 := set_value ws2 (row, shipped) (VInt (c_actual item))) in *.
  destruct (ws_cell ws3 row (Some date) VNone) as [[x4 ws4]|e] eqn:E4;
    cbn [bind snd] in H; [|discriminate H].
  destruct (ws_cell_read _ _ _ _ _ E4) as (_ & Hex4 & Hf4).
  set (ws5 := set_value ws4 (row, date) (VStr (fp_shipment_date params))) in *.
  assert (H5 : value_at ws5 k =
               if fst k =? row
               then if snd k =? date then VStr (fp_shipment_date params)
                    else if snd k =? shipped then VInt (c_actual item)
                    else value_at ws k
               else value_at ws k).
  { subst ws5. rewrite (value_at_set_value _ _ _ _ Hex4), Hf4. subst ws3.
    rewrite (value_at_set_value _ _ _ _ Hex2), Hf2, Hf1.
    rewrite !same_key_pair, (Z.eqb_sym row (fst k)),
      (Z.eqb_sym date (snd k)), (Z.eqb_sym shipped (snd k)).
    destruct (fst k =? row), (snd k =? date), (snd k =? shipped); reflexivity. }
  destruct (mem_string (c_status item) _); injection H as <-;
    rewrite ?value_at_set_fill; exact H5.
Qed.

Lemma update_rows_value (a shipped date : Z) (comparison : list comparison_item)
    (params : final_params) (rows : list Z) :
  NoDup rows ->
  forall ws ws',
    update_rows (Some a) shipped date comparison params rows ws = Ok ws' ->
    forall k,
      (In (fst k) rows ->
       value_at ws' k = updated_value comparison params a shipped date ws k) /\
      (~ In (fst k) rows -> value_at ws' k = value_at ws k).
Proof.
  induction rows as [|row rows IH]; intros Hnd ws ws' H k; cbn [update_rows] in H.
  - injection H as <-. split; [intros []|reflexivity].
  - inversion Hnd as [|? ? Hnotin Hnd']; subst.
    destruct (update_row (Some a) shipped date comparison params ws row)
      as [ws1|e] eqn:E1; cbn [bind] in H; [|discriminate H].
    pose proof (update_row_value _ _ _ _ _ _ _ _ E1) as H1.
    destruct (IH Hnd' ws1 ws' H k) as [Hin Hout].
    split.
    + intros [Hk|Hk].
      * rewrite Hout by (rewrite <- Hk; exact Hnotin).
        rewrite H1, <- Hk, Z.eqb_refl. reflexivity.
      * rewrite (Hin Hk).
        assert (Hne : fst k <> row) by (intros Heq; apply Hnotin; rewrite <- Heq; exact Hk).
        unfold updated_value.
        rewrite (H1 (fst k, a)), (H1 k). cbn [fst].
        apply Z.eqb_neq in Hne. rewrite Hne. reflexivity.
    + intros Hk.
      assert (Hne : fst k <> row) by (intros Heq; apply Hk; left; symmetry; exact Heq).
      assert (Hk' : ~ In (fst k) rows) by (intros Hin'; apply Hk; right; exact Hin').
      rewrite (Hout Hk'), H1.
      apply Z.eqb_neq in Hne. rewrite Hne. reflexivity.
Qed.

Lemma rows_from_2_In (n r : Z) : In r (rows_from_2 n) <-> 2 <= r <= n.
Proof.
  unfold rows_from_2. rewrite in_map_iff. split.
  - intros (i & <- & Hi). apply in_seq in Hi. lia.
  - intros Hr. exists (Z.to_nat (r - 2)). split; [lia|]. apply in_seq. lia.
Qed.

Lemma rows_from_2_NoDup (n : Z) : NoDup (rows_from_2 n).
Proof.
  unfold rows_from_2. generalize (Z.to_nat (n - 1)) as m. generalize 0%nat as s.
  intros s m. revert s. induction m as [|m IH]; intros s; cbn [seq map].
  - constructor.
  - constructor; [|apply IH].
    rewrite in_map_iff. intros (i & Hi & Hin). apply in_seq in Hin. lia.
Qed.

Lemma max_fold_In (f : (Z * Z) * xcell -> Z) (ws : worksheet) :
  forall m e, In e ws -> f e <= fold_left (fun m e => Z.max m (f e)) ws m.
Proof.
  induction ws as [|e0 ws IH]; intros m e Hin; [destruct Hin|].
  cbn [fold_left]. destruct Hin as [->|Hin].
  - pose proof (max_fold_ge f ws (Z.max m (f e))). lia.
  - apply IH. exact Hin.
Qed.

Lemma ws_find_In (ws : worksheet) (k : Z * Z) (x : xcell) :
  ws_find ws k = Some x -> In (k, x) ws.
Proof.
  induction ws as [|[k0 x0] ws IH]; cbn [ws_find]; [discriminate|].
  destruct (same_key k0 k) eqn:E.
  - intros [= <-]. apply same_key_eq in E. subst k0. left. reflexivity.
  - intros H. right. exact (IH H).
Qed.

Lemma value_at_beyond (ws : worksheet) (k : Z * Z) :
  max_row ws < fst k -> value_at ws k = VNone.
Proof.
  intros Hk. unfold value_at. destruct (ws_find ws k) as [x|] eqn:E; [|reflexivity].
  apply ws_find_In in E.
  pose proof (max_fold_In (fun e => fst (fst e)) ws 1 (k, x) E) as Hle.
  cbn [fst] in Hle. unfold max_row in Hk. lia.
Qed.

Lemma value_at_scan_spec_rows (rows : list Z) (k : Z * Z) :
  forall acc ws, value_at (snd (scan_spec_rows rows acc ws)) k = value_at ws k.
Proof.
  induction rows as [|row rows IH]; intros acc ws; cbn [scan_spec_rows];
    [reflexivity|].
  pose proof (value_at_ws_row ws row k) as Hr.
  destruct (ws_row ws row) as [cells ws1]. cbn [snd] in Hr.
  rewrite IH. exact Hr.
Qed.

Lemma max_column_put (ws : worksheet) (k : Z * Z) (x : xcell) :
  max_column (ws_put ws k x) = Z.max (max_column ws) (snd k).
Proof.
  unfold max_column. generalize 1 as m.
  induction ws as [|[k0 x0] ws IH]; intros m; cbn [ws_put fold_left fst snd].
  - reflexivity.
  - destruct (same_key k0 k) eqn:E; cbn [fold_left fst snd].
    + apply same_key_eq in E. subst k0.
      pose proof (max_fold_ge (fun e => snd (fst e)) ws (Z.max m (snd k))) as Hge.
      cbv beta in Hge. lia.
    + apply IH.
Qed.

Lemma max_column_get_cell (ws : worksheet) (k : Z * Z) :
  max_column (snd (get_cell ws k)) = Z.max (max_column ws) (snd k).
Proof.
  unfold get_cell. destruct (ws_find ws k) as [x|] eqn:E; cbn [snd].
  - apply ws_find_In in E.
    pose proof (max_fold_In (fun e => snd (fst e)) ws 1 (k, x) E) as Hle.
    cbn [fst snd] in Hle. unfold max_column. lia.
  - apply max_column_put.
Qed.

Lemma max_column_ws_cell (ws : worksheet) (row col : Z) (v : value)
    (r : xcell * worksheet) :
  ws_cell ws row (Some col) v = Ok r ->
  max_column (snd r) = Z.max (max_column ws) col.
Proof.
  unfold ws_cell. destruct ((row <? 1) || (col <? 1)); [discriminate|].
  pose proof (max_column_get_cell ws (row, col)) as Hg.
  destruct (get_cell ws (row, col)) as [x ws0]. cbn [snd] in Hg.
  destruct v; intros [= <-]; cbn [snd]; rewrite ?max_column_put; cbn [snd]; lia.
Qed.

Lemma max_column_row_fold (row : Z) (cols : list Z) :
  forall acc : list xcell * worksheet,
    Forall (fun c => c <= max_column (snd acc)) cols ->
    max_column
      (snd (fold_left
              (fun '(cells, ws') col =>
                 let '(x, ws'') := get_cell ws' (row, col) in
                 ((cells ++ [x])%list, ws''))
              cols acc)) =
    max_column (snd acc).
Proof.
  induction cols as [|c cols IH]; intros [cells ws0] Hall; cbn [fold_left];
    [reflexivity|].
  inversion Hall as [|? ? Hc Hrest]; subst. cbn [snd] in *.
  pose proof (max_column_get_cell ws0 (row, c)) as Hg.
  destruct (get_cell ws0 (row, c)) as [x ws1]. cbn [snd] in Hg.
  assert (Heq : max_column ws1 = max_column ws0) by lia.
  rewrite IH; cbn [snd]; [exact Heq|].
  rewrite Heq. exact Hrest.
Qed.

Lemma max_column_ws_row (ws : worksheet) (row : Z) :
  max_column (snd (ws_row ws row)) = max_column ws.
Proof.
  unfold ws_row. apply (max_column_row_fold row _ ([], ws)). cbn [snd].
  apply Forall_forall. intros c Hc. unfold columns_to in Hc.
  apply in_map_iff in Hc. destruct Hc as (i & <- & Hi). apply in_seq in Hi.
  pose proof (max_column_pos ws). lia.
Qed.

Lemma max_column_scan_spec_rows (rows : list Z) :
  forall acc ws, max_column (snd (scan_spec_rows rows acc ws)) = max_column ws.
Proof.
  induction rows as [|row rows IH]; intros acc ws; cbn [scan_spec_rows];
    [reflexivity|].
  pose proof (max_column_ws_row ws row) as Hr.
  destruct (ws_row ws row) as [cells ws1]. cbn [snd] in Hr.
  rewrite IH. exact Hr.
Qed.

(** X19. The sheet of the updated specification, cell by cell, when the
    update succeeds with an article column. A shipped or date column that
    was not found is added after the last column in use. Below the header
    row, a row whose article cell holds the article of a position of the
    comparison gets the actual count of the first such position in the
    shipped column and the shipment date in the date column; every other
    cell keeps its value. In the header row only the headers of the added
    columns are written. *)
Theorem updated_specification_cells :
  forall ws comparison params cols ws' a,
    update_specification ws comparison params = Ok (cols, ws') ->
    article_col cols = Some a ->
    (forall k, 2 <= fst k ->
       value_at ws' k =
       updated_value comparison params a
         (shipped_column cols ws) (date_column cols ws) ws k) /\
    (forall k, fst k = 1 -> value_at ws' k = updated_header cols ws k).
Proof.
  intros ws comparison params cols ws' a H Ha.
  unfold update_specification in H.
  pose proof (fun k => value_at_scan_spec_rows rows_1_to_9 k
                         (mk_spec_columns None None None) ws) as Hscan.
  pose proof (max_column_scan_spec_rows rows_1_to_9
                (mk_spec_columns None None None) ws) as Hmax.
  destruct (scan_spec_rows rows_1_to_9 (mk_spec_columns None None None) ws)
    as [cols0 ws1]. cbn [snd] in Hscan, Hmax.
  destruct (ensure_shipped_col cols0 ws1) as [[shipped ws2]|e] eqn:Es;
    cbn [bind] in H; [|discriminate H].
  destruct (ensure_date_col cols0 shipped ws2) as [[date ws3]|e] eqn:Ed;
    cbn [bind] in H; [|discriminate H].
  destruct (update_rows (article_col cols0) shipped date comparison params
              (rows_from_2 (max_row ws3)) ws3) as [ws4|e] eqn:Eu;
    cbn [bind] in H; [|discriminate H].
  injection H as <- <-. rewrite Ha in Eu.
  assert (Hs : shipped = shipped_column cols0 ws /\
               Z.max shipped (max_column ws2) = Z.max shipped (max_column ws) /\
               forall k, value_at ws2 k =
                 match shipped_col cols0 with
                 | None => if same_key (1, shipped) k then VStr "Отгруженные"
                           else value_at ws k
                 | Some _ => value_at ws k
                 end).
  { unfold ensure_shipped_col in Es. unfold shipped_column.
    destruct (shipped_col cols0) as [c|].
    - injection Es as <- <-. rewrite Hmax.
      split; [reflexivity|]. split; [reflexivity|exact Hscan].
    - destruct (ws_cell ws1 1 (Some (max_column ws1 + 1)) (VStr "Отгруженные"))
        as [r|e] eqn:Ec; cbn [bind] in Es; [|discriminate Es].
      injection Es as <- <-. rewrite (max_column_ws_cell _ _ _ _ _ Ec), Hmax.
      split; [reflexivity|]. split; [lia|].
      intros k. rewrite (value_at_ws_cell _ _ _ _ _ k Ec), Hscan, Hmax. reflexivity. }
  destruct Hs as (Hs1 & Hs2 & Hs3).
  assert (Hd : date = date_column cols0 ws /\
               forall k, value_at ws3 k =
                 match date_col cols0 with
                 | None => if same_key (1, date) k then VStr "Дата отгрузки"
                           else value_at ws2 k
                 | Some _ => value_at ws2 k
                 end).
  { unfold ensure_date_col in Ed. unfold date_column.
    destruct (date_col cols0) as [c|].
    - injection Ed as <- <-. split; reflexivity.
    - destruct (ws_cell ws2 1 (Some (Z.max shipped (max_column ws2) + 1))
                  (VStr "Дата отгрузки")) as [r|e] eqn:Ec; cbn [bind] in Ed;
        [|discriminate Ed].
      injection Ed as <- <-. rewrite Hs2, <- Hs1.
      split; [reflexivity|].
      intros k. rewrite (value_at_ws_cell _ _ _ _ _ k Ec), Hs2. reflexivity. }
  destruct Hd as (Hd1 & Hd3).
  assert (Hbelow : forall k, 2 <= fst k -> value_at ws3 k = value_at ws k).
  { intros k Hk. rewrite Hd3, Hs3, !same_key_pair.
    replace (1 =? fst k) with false by (symmetry; apply Z.eqb_neq; lia).
    cbn [andb]. destruct (date_col cols0), (shipped_col cols0); reflexivity. }
  pose proof (update_rows_value a shipped date comparison params _
                (rows_from_2_NoDup (max_row ws3)) ws3 ws4 Eu) as Hrows.
  split.
  - intros k Hk. destruct (Hrows k) as [Hin Hout]. rewrite <- Hs1, <- Hd1.
    assert (Hsame : updated_value comparison params a shipped date ws3 k =
                    updated_value comparison params a shipped date ws k).
    { unfold updated_value. rewrite (Hbelow (fst k, a)) by exact Hk.
      rewrite (Hbelow k Hk). reflexivity. }
    destruct (Z_le_gt_dec (fst k) (max_row ws3)) as [Hle|Hgt].
    + rewrite Hin by (apply rows_from_2_In; lia). exact Hsame.
    + rewrite Hout by (rewrite rows_from_2_In; lia).
      rewrite <- Hsame. unfold updated_value.
      rewrite (value_at_beyond ws3 (fst k, a)) by (cbn [fst]; lia).
      reflexivity.
  - intros k Hk. destruct (Hrows k) as [_ Hout].
    rewrite Hout by (rewrite rows_from_2_In; lia).
    rewrite Hd3, Hs3, !same_key_pair, Hk. cbn [Z.eqb andb].
    unfold updated_header. rewrite <- Hs1, <- Hd1.
    rewrite (Z.eqb_sym date (snd k)), (Z.eqb_sym shipped (snd k)).
    destruct (date_col cols0), (shipped_col cols0); reflexivity.
Qed.

Lemma updated_specification_cells_witness :
  match demo_updated with
  | Ok (cols, ws') =>
      value_at ws' (3, 4) = VInt 7 /\
      value_at ws' (3, 5) = VStr "01.02.2024" /\
      value_at ws' (3, 2) = VStr "Frame" /\
      value_at ws' (1, 4) = VStr "Отгруженные" /\
      value_at ws' (1, 3) = VStr "Количество"
  | Raise _ => False
  end.
Proof.
  destruct demo_updated as [[cols ws']|e] eqn:E; [|discriminate E].
  assert (Hc : cols = mk_spec_columns (Some 1) None None)
    by (vm_compute in E; injection E as <- _; reflexivity).
  assert (Ha : article_col cols = Some 1) by (rewrite Hc; reflexivity).
  destruct (updated_specification_cells russian_sheet demo_items demo_params
              cols ws' 1 E Ha) as (Hbelow & Hhead).
  rewrite Hc in Hbelow, Hhead.
  split; [rewrite Hbelow by (cbn; lia); vm_compute; reflexivity|].
  split; [rewrite Hbelow by (cbn; lia); vm_compute; reflexivity|].
  split; [rewrite Hbelow by (cbn; lia); vm_compute; reflexivity|].
  split; [rewrite Hhead by reflexivity; vm_compute; reflexivity|].
  rewrite Hhead by reflexivity. vm_compute. reflexivity.
Defined.

(** ** The whole workflow *)


Lemma truthy_Some (x : string) : x <> "" -> truthy (Some x) = true.
Proof.
  intros Hx. cbn [truthy]. destruct (String.eqb_spec x ""); [contradiction|reflexivity].
Qed.










(** ** Dates and step 6 *)

Lemma is_digit_bounds (c : ascii) : is_digit c = true <-> 48 <= byte_of c <= 57.
Proof.
  unfold is_digit. rewrite andb_true_iff, !Z.leb_le. tauto.
Qed.

Lemma in_range_bounds (lo hi c : ascii) :
  in_range lo hi c = true -> byte_of lo <= byte_of c <= byte_of hi.
Proof.
  unfold in_range. rewrite andb_true_iff, !Z.leb_le. tauto.
Qed.

Lemma digit_not_space (c : ascii) : is_digit c = true -> py_isspace c = false.
Proof.
  intros H. apply is_digit_bounds in H. unfold py_isspace.
  apply orb_false_iff. split; apply andb_false_iff.
  - right. apply Z.leb_gt. lia.
  - right. apply Z.leb_gt. lia.
Qed.

Lemma rstrip_digits (s : string) : digits_only s = true -> rstrip s = s.
Proof.
  induction s as [|c s IH]; cbn [digits_only rstrip]; [reflexivity|].
  intros H. apply andb_true_iff in H. destruct H as [Hc Hs].
  rewrite (IH Hs). destruct s; [|reflexivity].
  rewrite (digit_not_space c Hc). reflexivity.
Qed.

Lemma strip_digits (s : string) : digits_only s = true -> strip s = s.
Proof.
  intros H. unfold strip.
  assert (Hl : lstrip s = s).
  { destruct s as [|c s]; [reflexivity|]. cbn [lstrip digits_only] in *.
    apply andb_true_iff in H. destruct H as [Hc _].
    rewrite (digit_not_space c Hc). reflexivity. }
  rewrite Hl. apply rstrip_digits, H.
Qed.

Lemma literal_val_digits (s : string) :
  digits_only s = true ->
  forall acc seen, literal_val acc seen s = digits_val acc seen s.
Proof.
  induction s as [|c s IH]; intros H acc seen; cbn [literal_val digits_val];
    [reflexivity|].
  cbn [digits_only] in H. apply andb_true_iff in H. destruct H as [Hc Hs].
  rewrite Hc. apply IH, Hs.
Qed.

Lemma cell_int_digits (c : ascii) (s : string) (v : Z) :
  is_digit c = true -> digits_only s = true ->
  digits_val 0 false (String c s) = Some v ->
  cell_int (CStr (String c s)) = Ok v.
Proof.
  intros Hc Hs Hv.
  assert (Hd : digits_only (String c s) = true)
    by (cbn [digits_only]; rewrite Hc, Hs; reflexivity).
  unfold cell_int. rewrite (strip_digits _ Hd).
  rewrite <- (literal_val_digits _ Hd) in Hv.
  destruct c as [[] [] [] [] [] [] [] []];
    try (vm_compute in Hc; discriminate Hc);
    rewrite Hv; reflexivity.
Qed.

Lemma cell_int_one (a : ascii) :
  is_digit a = true -> cell_int (CStr (String a "")) = Ok (digit_val a).
Proof.
  intros Ha. apply cell_int_digits; [exact Ha|reflexivity|].
  cbn [digits_val]. rewrite Ha. f_equal; lia.
Qed.

Lemma cell_int_two (a b : ascii) :
  is_digit a = true -> is_digit b = true ->
  cell_int (CStr (String a (String b ""))) = Ok (10 * digit_val a + digit_val b).
Proof.
  intros Ha Hb. apply cell_int_digits; [exact Ha|cbn; rewrite Hb; reflexivity|].
  cbn [digits_val]. rewrite Ha, Hb. f_equal; lia.
Qed.

Lemma cell_int_four (a b c d : ascii) :
  is_digit a = true -> is_digit b = true ->
  is_digit c = true -> is_digit d = true ->
  cell_int (CStr (String a (String b (String c (String d ""))))) =
    Ok (1000 * digit_val a + 100 * digit_val b + 10 * digit_val c + digit_val d).
Proof.
  intros Ha Hb Hc Hd.
  apply cell_int_digits; [exact Ha|cbn; rewrite Hb, Hc, Hd; reflexivity|].
  cbn [digits_val]. rewrite Ha, Hb, Hc, Hd. f_equal; lia.
Qed.

Lemma cell_int_space (t : string) (v : Z) :
  cell_int (CStr t) = Ok v -> cell_int (CStr (String " " t)) = Ok v.
Proof.
  unfold cell_int, strip. cbn [lstrip].
  change (py_isspace " ") with true. cbv iota.
  destruct (rstrip (lstrip t)) as [|ch u].
  - destruct (literal_val 0 false ""); [tauto|discriminate].
  - destruct ch as [[] [] [] [] [] [] [] []];
      repeat match goal with
             | |- context [literal_val ?a ?b ?x] => destruct (literal_val a b x)
             end;
      first [tauto | discriminate].
Qed.

Ltac invert_parses :=
  repeat match goal with
         | H : parses (Alt _ _) _ _ _ |- _ => inversion H; subst; clear H
         | H : parses (Cat _ _) _ _ _ |- _ => inversion H; subst; clear H
         | H : parses (Str _) _ _ _ |- _ => inversion H; subst; clear H
         | H : parses (Chr _) _ _ _ |- _ => inversion H; subst; clear H
         end.

Ltac digit_bounds :=
  repeat match goal with
         | H : in_range _ _ _ = true |- _ =>
             apply in_range_bounds in H; vm_compute (byte_of "0") in H;
             vm_compute (byte_of "1") in H; vm_compute (byte_of "2") in H;
             vm_compute (byte_of "9") in H
         | H : is_digit _ = true |- _ => apply is_digit_bounds in H
         end.

Ltac digit_side := solve [reflexivity | apply is_digit_bounds; lia].

Ltac literal_bytes :=
  repeat match goal with
         | |- context [byte_of (Ascii ?b0 ?b1 ?b2 ?b3 ?b4 ?b5 ?b6 ?b7)] =>
             let v := eval vm_compute in (byte_of (Ascii b0 b1 b2 b3 b4 b5 b6 b7)) in
             change (byte_of (Ascii b0 b1 b2 b3 b4 b5 b6 b7)) with v
         end.

Ltac date_group :=
  digit_bounds; eexists; split;
  [ first [ apply cell_int_four; digit_side
          | apply cell_int_two; digit_side
          | apply cell_int_one; digit_side
          | apply cell_int_space, cell_int_one; digit_side ]
  | unfold digit_val; literal_bytes; lia ].

Lemma parses_day (t : string) (g g' : groups) :
  parses day_regex t g g' ->
  exists v, cell_int (CStr t) = Ok v /\ 1 <= v <= 31.
Proof.
  unfold day_regex, digit. intros H. invert_parses; cbn [append]; date_group.
Qed.

Lemma parses_month (t : string) (g g' : groups) :
  parses month_regex t g g' ->
  exists v, cell_int (CStr t) = Ok v /\ 1 <= v <= 12.
Proof.
  unfold month_regex. intros H. invert_parses; cbn [append]; date_group.
Qed.

Lemma parses_year (t : string) (g g' : groups) :
  parses year_regex t g g' ->
  exists v, cell_int (CStr t) = Ok v /\ 0 <= v <= 9999.
Proof.
  unfold year_regex, digit. intros H. invert_parses; cbn [append]; date_group.
Qed.

Lemma parses_date (t : string) (g : groups) :
  parses date_regex t [] g ->
  exists ds ms ys,
    g = [(3%nat, ys); (2%nat, ms); (1%nat, ds)] /\
    parses day_regex ds [] [] /\
    parses month_regex ms [(1%nat, ds)] [(1%nat, ds)] /\
    parses year_regex ys [(2%nat, ms); (1%nat, ds)] [(2%nat, ms); (1%nat, ds)].
Proof.
  change date_regex with
    (Cat (Group 1 day_regex)
       (Cat (Str ".") (Cat (Group 2 month_regex) (Cat (Str ".") (Group 3 year_regex))))).
  intros H.
  inversion H as [| | | |? ? t1 t2 ? g1 ? Hd Hrest| | | | |]; subst. clear H.
  inversion Hd as [| | | | | | | | |? ? ? ? g0 Hd']; subst. clear Hd.
  pose proof (parses_group_free _ _ _ _ Hd' eq_refl) as ->.
  inversion Hrest as [| | | |? ? t3 t4 ? g2 ? Hdot Hrest2| | | | |]; subst. clear Hrest.
  inversion Hdot; subst. clear Hdot.
  inversion Hrest2 as [| | | |? ? t5 t6 ? g3 ? Hm Hrest3| | | | |]; subst. clear Hrest2.
  inversion Hm as [| | | | | | | | |? ? ? ? g4 Hm']; subst. clear Hm.
  pose proof (parses_group_free _ _ _ _ Hm' eq_refl) as ->.
  inversion Hrest3 as [| | | |? ? t7 t8 ? g5 ? Hdot2 Hy| | | | |]; subst. clear Hrest3.
  inversion Hdot2; subst. clear Hdot2.
  inversion Hy as [| | | | | | | | |? ? ? ? g6 Hy']; subst. clear Hy.
  pose proof (parses_group_free _ _ _ _ Hy' eq_refl) as ->.
  eexists _, _, _. split; [reflexivity|]. repeat split; assumption.
Qed.

Lemma strptime_dmy_spec (s : string) :
  match strptime_dmy s with
  | Ok date => calendar_date date
  | Raise e => exists msg, e = ValueError msg
  end.
Proof.
  unfold strptime_dmy.
  destruct (rmatch date_regex s [] (fun s' g => Some (s', g))) as [[rest g]|] eqn:E;
    [|eauto].
  destruct (negb (String.eqb rest "")); [eauto|].
  apply rmatch_sound in E. destruct E as (t & s' & g' & _ & Hp & Hk).
  injection Hk as _ <-.
  destruct (parses_date t g' Hp) as (ds & ms & ys & -> & Hd & Hm & Hy).
  destruct (parses_day _ _ _ Hd) as (d & Ed & Hdr).
  destruct (parses_month _ _ _ Hm) as (m & Em & Hmr).
  destruct (parses_year _ _ _ Hy) as (y & Ey & Hyr).
  cbn [group Nat.eqb bind]. rewrite Ed. cbn [bind]. rewrite Em. cbn [bind].
  rewrite Ey. cbn [bind].
  destruct ((1 <=? y) && (d <=? days_in_month y m)) eqn:Ec; [|eauto].
  apply andb_true_iff in Ec. destruct Ec as [Hy1 Hd1].
  apply Z.leb_le in Hy1. apply Z.leb_le in Hd1.
  cbn [calendar_date]. lia.
Qed.

(** X22. Step 6 has two outcomes only. A text that [strptime] reads as
    day.month.year gives a date of the calendar (year 1 to 9999, month 1
    to 12, a day the month has), and the step stores the parameters as
    given, the Russian label being the one for a final shipment iff the
    type is exactly "full", and moves to step 7, whatever the session
    holds. Any other text is answered with HTTP 400 and one fixed message,
    the session unchanged: the handler's general error branch is never
    taken. *)
Theorem step6_outcomes :
  forall shipment_type shipment_date s,
    (exists date params,
        strptime_dmy shipment_date = Ok date /\ calendar_date date /\
        params =
          mk_final_params shipment_type shipment_date
            (if String.eqb shipment_type "full" then "Окончательная отгрузка"
             else "Частичная отгрузка") /\
        step6_final_questions shipment_type shipment_date s =
          (Ok params,
           mk_session (specification s) (template s) (photos s) 7
             (set_final_params params (session_results s)))) \/
    ((exists msg, strptime_dmy shipment_date = Raise (ValueError msg)) /\
     step6_final_questions shipment_type shipment_date s =
       (Raise (HTTPException 400 "Неверный формат даты. Используйте ДД.ММ.ГГГГ"), s)).
Proof.
  intros shipment_type shipment_date s.
  pose proof (strptime_dmy_spec shipment_date) as H.
  unfold step6_final_questions.
  destruct (strptime_dmy shipment_date) as [date|e].
  - left. exists date. eexists. split; [reflexivity|]. split; [exact H|].
    split; reflexivity.
  - right. destruct H as (msg & ->). split; [eauto|reflexivity].
Qed.

Lemma step6_outcomes_witness :
  fst (step6_final_questions "partial" "29.02.2024" initial_session) =
    Ok (mk_final_params "partial" "29.02.2024" "Частичная отгрузка") /\
  fst (step6_final_questions "full" "29.02.2023" initial_session) =
    Raise (HTTPException 400 "Неверный формат даты. Используйте ДД.ММ.ГГГГ") /\
  fst (step6_final_questions "full" "2024-02-29" initial_session) =
    Raise (HTTPException 400 "Неверный формат даты. Используйте ДД.ММ.ГГГГ").
Proof.
  split; [|split].
  - destruct (step6_outcomes "partial" "29.02.2024" initial_session)
      as [(date & params & _ & _ & -> & ->)|((msg & Hm) & _)];
      [reflexivity|vm_compute in Hm; discriminate Hm].
  - destruct (step6_outcomes "full" "29.02.2023" initial_session)
      as [(date & params & Hd & _)|(_ & ->)];
      [vm_compute in Hd; discriminate Hd|reflexivity].
  - destruct (step6_outcomes "full" "2024-02-29" initial_session)
      as [(date & params & Hd & _)|(_ & ->)];
      [vm_compute in Hd; discriminate Hd|reflexivity].
Defined.

(** ** A session without photos *)

(** X23. With no photos stored, steps 2, 3 and 4 succeed on nothing:
    step 2 reports zero photos; step 3 stores an empty list of markings
    without calling the adapter, whether or not quality results exist;
    step 4, run after it, reports zero counts and empty tallies. Step 5,
    given a specification that parses, then lists exactly the positions
    of the specification, each with actual count 0 and the difference
    minus the planned quantity, and no extra article. *)
Theorem no_photos_edge :
  forall w s,
    photos s = [] ->
    let s3 := snd (step3_extract_markings w s) in
    fst (step2_check_photo_quality w s) = Ok (mk_photo_quality_result true [] 0 0 0) /\
    step3_extract_markings w s =
      (Ok (mk_markings_result true [] 0 0 0 0),
       set_step 4
         (set_results
            (set_markings (mk_markings_result true [] 0 0 0 0) (session_results s)) s)) /\
    step3_adapter_calls w s = [] /\
    fst (step4_count_verification s3) =
      Ok (mk_count_result true 0 [] 0 0 [] true true) /\
    (forall path spec,
        specification s = Some path -> path <> "" ->
        parse_excel_specification (excel_at w path) = Ok spec ->
        exists cmp,
          fst (step5_compare_specification w s3) = Ok cmp /\
          cmp_comparison cmp = map (compare_item []) spec /\
          Forall (fun item =>
                    c_actual item = 0 /\
                    c_difference item = - c_planned item /\
                    c_status item <> "🔁")
            (cmp_comparison cmp)).
Proof.
  intros w s Hp s3.
  assert (E3 : step3_extract_markings w s =
               (Ok (mk_markings_result true [] 0 0 0 0),
                set_step 4
                  (set_results
                     (set_markings (mk_markings_result true [] 0 0 0 0)
                        (session_results s)) s))).
  { unfold step3_extract_markings, step3_try. rewrite Hp. reflexivity. }
  split.
  { unfold step2_check_photo_quality. rewrite Hp. reflexivity. }
  split; [exact E3|].
  split.
  { unfold step3_adapter_calls. rewrite Hp. reflexivity. }
  subst s3. rewrite E3. cbn [snd].
  split; [reflexivity|].
  intros path spec Hs Hpath Hparse.
  unfold step5_compare_specification, step5_try.
  cbn [specification set_step set_results session_results r_markings set_markings
       mr_markings].
  rewrite Hs, (truthy_Some path Hpath), Hparse.
  cbn [bind compare count_actual fst]. unfold extra_items. cbn [map filter app fst].
  rewrite app_nil_r.
  eexists. split; [reflexivity|]. cbn [cmp_comparison summarize].
  split; [reflexivity|].
  apply Forall_forall. intros item Hin. apply in_map_iff in Hin.
  destruct Hin as (it & <- & _). unfold compare_item.
  cbn [c_actual c_difference c_planned c_status counter_get].
  split; [reflexivity|]. split; [reflexivity|].
  destruct (0 - si_quantity it =? 0); [discriminate|].
  destruct (0 - si_quantity it <? 0); discriminate.
Qed.

Lemma no_photos_edge_witness :
  exists cmp,
    fst (step5_compare_specification demo_world
           (snd (step3_extract_markings demo_world
                   (set_specification (Some "uploads/specification.xlsx")
                      initial_session)))) = Ok cmp /\
    cmp_comparison cmp = map (compare_item []) (df_items demo_specification).
Proof.
  destruct (no_photos_edge demo_world
              (set_specification (Some "uploads/specification.xlsx") initial_session)
              eq_refl) as (_ & _ & _ & _ & H5).
  destruct (H5 "uploads/specification.xlsx" (df_items demo_specification) eq_refl)
    as (cmp & Hc & Hl & _).
  - discriminate.
  - vm_compute. reflexivity.
  - exists cmp. split; [exact Hc|exact Hl].
Defined.

(** ** Fills of the updated specification *)

Lemma fill_at_put (ws : worksheet) (k k' : Z * Z) (x : xcell) :
  fill_at (ws_put ws k' x) k = if same_key k' k then x_fill x else fill_at ws k.
Proof.
  unfold fill_at. destruct (same_key k' k) eqn:E.
  - apply same_key_eq in E. subst k'. rewrite ws_find_put. reflexivity.
  - rewrite ws_find_put_other by exact E. reflexivity.
Qed.

Lemma ws_find_put_some (ws : worksheet) (k k' : Z * Z) (x : xcell) :
  ws_find ws k <> None -> ws_find (ws_put ws k' x) k <> None.
Proof.
  intros H. destruct (same_key k' k) eqn:E.
  - apply same_key_eq in E. subst k'. rewrite ws_find_put. discriminate.
  - rewrite ws_find_put_other by exact E. exact H.
Qed.

Lemma fill_at_get_cell (ws : worksheet) (k k' : Z * Z) :
  fill_at (snd (get_cell ws k')) k = fill_at ws k.
Proof.
  unfold get_cell. destruct (ws_find ws k') as [x|] eqn:E; cbn [snd]; [reflexivity|].
  rewrite fill_at_put. destruct (same_key k' k) eqn:Ek; [|reflexivity].
  apply same_key_eq in Ek. subst k'. unfold fill_at. rewrite E. reflexivity.
Qed.

Lemma get_cell_fill (ws : worksheet) (k : Z * Z) :
  x_fill (fst (get_cell ws k)) = fill_at ws k.
Proof.
  unfold get_cell, fill_at. destruct (ws_find ws k); reflexivity.
Qed.

Lemma get_cell_some (ws : worksheet) (k k' : Z * Z) :
  ws_find ws k <> None -> ws_find (snd (get_cell ws k')) k <> None.
Proof.
  intros H. unfold get_cell. destruct (ws_find ws k'); cbn [snd]; [exact H|].
  apply ws_find_put_some, H.
Qed.

(** [ws.cell(...)] never changes a fill and never removes a cell. *)
Lemma fill_at_ws_cell (ws : worksheet) (row col : Z) (v : value)
    (r : xcell * worksheet) :
  ws_cell ws row (Some col) v = Ok r ->
  (forall k, fill_at (snd r) k = fill_at ws k) /\
  (forall k, ws_find ws k <> None -> ws_find (snd r) k <> None).
Proof.
  unfold ws_cell. destruct ((row <? 1) || (col <? 1)); [discriminate|].
  pose proof (fun k => fill_at_get_cell ws k (row, col)) as Hg.
  pose proof (get_cell_fill ws (row, col)) as Hf.
  pose proof (fun k => get_cell_some ws k (row, col)) as Hs.
  destruct (get_cell ws (row, col)) as [x ws0]. cbn [fst snd] in *.
  assert (Hput : forall v0,
            (forall k, fill_at (ws_put ws0 (row, col) (mk_xcell v0 (x_fill x))) k =
                       fill_at ws k) /\
            (forall k, ws_find ws k <> None ->
                       ws_find (ws_put ws0 (row, col) (mk_xcell v0 (x_fill x))) k
                       <> None)).
  { intros v0. split.
    - intros k. rewrite fill_at_put. cbn [x_fill].
      destruct (same_key (row, col) k) eqn:E; [|apply Hg].
      apply same_key_eq in E. subst k. exact Hf.
    - intros k Hk. apply ws_find_put_some, Hs, Hk. }
  destruct v; intros [= <-]; cbn [snd];
    first [exact (Hput _) | split; [exact Hg|exact Hs]].
Qed.

Lemma fill_at_row_fold (row : Z) (k : Z * Z) (cols : list Z) :
  forall acc : list xcell * worksheet,
    fill_at
      (snd (fold_left
              (fun '(cells, ws') col =>
                 let '(x, ws'') := get_cell ws' (row, col) in
                 ((cells ++ [x])%list, ws''))
              cols acc)) k =
    fill_at (snd acc) k.
Proof.
  induction cols as [|c cols IH]; intros [cells ws0]; cbn [fold_left]; [reflexivity|].
  pose proof (fill_at_get_cell ws0 k (row, c)) as Hg.
  destruct (get_cell ws0 (row, c)) as [x ws1]. cbn [snd] in Hg.
  rewrite IH. exact Hg.
Qed.

Lemma fill_at_scan_spec_rows (rows : list Z) (k : Z * Z) :
  forall acc ws, fill_at (snd (scan_spec_rows rows acc ws)) k = fill_at ws k.
Proof.
  induction rows as [|row rows IH]; intros acc ws; cbn [scan_spec_rows];
    [reflexivity|].
  pose proof (fill_at_row_fold row k (columns_to (max_column ws)) ([], ws)) as Hr.
  fold (ws_row ws row) in Hr.
  destruct (ws_row ws row) as [cells ws1]. cbn [snd] in Hr.
  rewrite IH. exact Hr.
Qed.

Lemma fill_at_set_value (ws : worksheet) (k' : Z * Z) (v : value) :
  (forall k, fill_at (set_value ws k' v) k = fill_at ws k) /\
  (forall k, ws_find ws k <> None -> ws_find (set_value ws k' v) k <> None).
Proof.
  unfold set_value. destruct (ws_find ws k') as [x|] eqn:E; [|split; auto].
  split.
  - intros k. rewrite fill_at_put. cbn [x_fill].
    destruct (same_key k' k) eqn:Ek; [|reflexivity].
    apply same_key_eq in Ek. subst k'. unfold fill_at. rewrite E. reflexivity.
  - intros k Hk. apply ws_find_put_some, Hk.
Qed.

Lemma fill_at_set_fill (ws : worksheet) (k' : Z * Z) (f : string) (k : Z * Z) :
  ws_find ws k' <> None ->
  fill_at (set_fill ws k' f) k = if same_key k' k then Some f else fill_at ws k.
Proof.
  intros Hex. unfold set_fill.
  destruct (ws_find ws k') as [x|]; [|contradiction].
  rewrite fill_at_put. reflexivity.
Qed.

Lemma update_row_fill (a shipped date : Z) (comparison : list comparison_item)
    (params : final_params) (ws : worksheet) (row : Z) (ws' : worksheet) :
  update_row (Some a) shipped date comparison params ws row = Ok ws' ->
  forall k,
    fill_at ws' k =
    if fst k =? row then updated_fill comparison a shipped ws k else fill_at ws k.
Proof.
  unfold update_row. intros H k.
  destruct (ws_cell ws row (Some a) VNone) as [[x ws1]|e] eqn:E1; cbn [bind] in H;
    [|discriminate H].
  destruct (ws_cell_read _ _ _ _ _ E1) as (Hx & _ & _).
  destruct (fill_at_ws_cell _ _ _ _ _ E1) as [Hf1 _]. cbn [snd] in Hf1.
  assert (Hspec : forall item_opt,
            matched comparison (value_at ws (row, a)) = item_opt ->
            (if fst k =? row
             then match item_opt with
                  | Some item =>
                      if (snd k =? shipped) && mem_string (c_status item) ["⬆️"; "🔁"]
                      then Some red_fill
                      else fill_at ws k
                  | None => fill_at ws k
                  end
             else fill_at ws k) =
            (if fst k =? row then updated_fill comparison a shipped ws k
             else fill_at ws k)).
  { intros item_opt Hm. unfold updated_fill.
    destruct (fst k =? row) eqn:Er; [|reflexivity].
    apply Z.eqb_eq in Er. rewrite Er, Hm. reflexivity. }
  rewrite <- (Hspec _ eq_refl). clear Hspec.
  unfold matched. rewrite <- Hx.
  destruct (value_truthy (x_value x)).
  2:{ injection H as <-. rewrite Hf1. destruct (fst k =? row); reflexivity. }
  destruct (find _ comparison) as [item|].
  2:{ injection H as <-. rewrite Hf1. destruct (fst k =? row); reflexivity. }
  destruct (ws_cell ws1 row (Some shipped) VNone) as [[x2 ws2]|e] eqn:E2;
    cbn [bind snd] in H; [|discriminate H].
  destruct (ws_cell_read _ _ _ _ _ E2) as (_ & Hex2 & _).
  destruct (fill_at_ws_cell _ _ _ _ _ E2) as [Hf2 _]. cbn [snd] in Hf2.
  destruct (fill_at_set_value ws2 (row, shipped) (VInt (c_actual item)))
    as [Hf3 Hs3].
  set (ws3 := set_value ws2 (row, shipped) (VInt (c_actual item))) in *.
  destruct (ws_cell ws3 row (Some date) VNone) as [[x4 ws4]|e] eqn:E4;
    cbn [bind snd] in H; [|discriminate H].
  destruct (fill_at_ws_cell _ _ _ _ _ E4) as [Hf4 Hs4]. cbn [snd] in Hf4, Hs4.
  destruct (fill_at_set_value ws4 (row, date) (VStr (fp_shipment_date params)))
    as [Hf5 Hs5].
  set (ws5 := set_value ws4 (row, date) (VStr (fp_shipment_date params))) in *.
  assert (Hex5 : ws_find ws5 (row, shipped) <> None)
    by (apply Hs5, Hs4, Hs3, Hex2).
  assert (H5 : fill_at ws5 k = fill_at ws k)
    by (rewrite Hf5, Hf4, Hf3, Hf2, Hf1; reflexivity).
  destruct (mem_string (c_status item) _); injection H as <-.
  - rewrite (fill_at_set_fill _ _ _ _ Hex5), H5, same_key_pair.
    rewrite (Z.eqb_sym row (fst k)), (Z.eqb_sym shipped (snd k)), andb_true_r.
    destruct (fst k =? row), (snd k =? shipped); reflexivity.
  - rewrite H5, andb_false_r. destruct (fst k =? row); reflexivity.
Qed.

Lemma update_rows_fill (a shipped date : Z) (comparison : list comparison_item)
    (params : final_params) (rows : list Z) :
  NoDup rows ->
  forall ws ws',
    update_rows (Some a) shipped date comparison params rows ws = Ok ws' ->
    forall k,
      (In (fst k) rows -> fill_at ws' k = updated_fill comparison a shipped ws k) /\
      (~ In (fst k) rows -> fill_at ws' k = fill_at ws k).
Proof.
  induction rows as [|row rows IH]; intros Hnd ws ws' H k; cbn [update_rows] in H.
  - injection H as <-. split; [intros []|reflexivity].
  - inversion Hnd as [|? ? Hnotin Hnd']; subst.
    destruct (update_row (Some a) shipped date comparison params ws row)
      as [ws1|e] eqn:E1; cbn [bind] in H; [|discriminate H].
    pose proof (update_row_fill _ _ _ _ _ _ _ _ E1) as H1.
    pose proof (update_row_value _ _ _ _ _ _ _ _ E1) as V1.
    destruct (IH Hnd' ws1 ws' H k) as [Hin Hout].
    split.
    + intros [Hk|Hk].
      * rewrite Hout by (rewrite <- Hk; exact Hnotin).
        rewrite H1, <- Hk, Z.eqb_refl. reflexivity.
      * rewrite (Hin Hk).
        assert (Hne : fst k <> row) by (intros Heq; apply Hnotin; rewrite <- Heq; exact Hk).
        unfold updated_fill.
        rewrite (V1 (fst k, a)), (H1 k). cbn [fst].
        apply Z.eqb_neq in Hne. rewrite Hne. reflexivity.
    + intros Hk.
      assert (Hne : fst k <> row) by (intros Heq; apply Hk; left; symmetry; exact Heq).
      assert (Hk' : ~ In (fst k) rows) by (intros Hin'; apply Hk; right; exact Hin').
      rewrite (Hout Hk'), H1.
      apply Z.eqb_neq in Hne. rewrite Hne. reflexivity.
Qed.

(** X24. The fills of the updated specification. The only cells whose
    fill changes are, below the header row, the cells of the shipped
    column in rows updated from a position whose status is "⬆️" or "🔁":
    they become red. Every other cell, the header row included, keeps its
    fill. *)
Theorem updated_specification_fills :
  forall ws comparison params cols ws' a,
    update_specification ws comparison params = Ok (cols, ws') ->
    article_col cols = Some a ->
    (forall k, 2 <= fst k ->
       fill_at ws' k = updated_fill comparison a (shipped_column cols ws) ws k) /\
    (forall k, fst k = 1 -> fill_at ws' k = fill_at ws k).
Proof.
  intros ws comparison params cols ws' a H Ha.
  unfold update_specification in H.
  pose proof (fun k => value_at_scan_spec_rows rows_1_to_9 k
                         (mk_spec_columns None None None) ws) as Vscan.
  pose proof (fun k => fill_at_scan_spec_rows rows_1_to_9 k
                         (mk_spec_columns None None None) ws) as Fscan.
  pose proof (max_column_scan_spec_rows rows_1_to_9
                (mk_spec_columns None None None) ws) as Hmax.
  destruct (scan_spec_rows rows_1_to_9 (mk_spec_columns None None None) ws)
    as [cols0 ws1]. cbn [snd] in Vscan, Fscan, Hmax.
  destruct (ensure_shipped_col cols0 ws1) as [[shipped ws2]|e] eqn:Es;
    cbn [bind] in H; [|discriminate H].
  destruct (ensure_date_col cols0 shipped ws2) as [[date ws3]|e] eqn:Ed;
    cbn [bind] in H; [|discriminate H].
  destruct (update_rows (article_col cols0) shipped date comparison params
              (rows_from_2 (max_row ws3)) ws3) as [ws4|e] eqn:Eu;
    cbn [bind] in H; [|discriminate H].
  injection H as <- <-. rewrite Ha in Eu.
  assert (Hs : shipped = shipped_column cols0 ws /\
               (forall k, fill_at ws2 k = fill_at ws k) /\
               (forall k, 2 <= fst k -> value_at ws2 k = value_at ws k)).
  { unfold ensure_shipped_col in Es. unfold shipped_column.
    destruct (shipped_col cols0) as [c|].
    - injection Es as <- <-. split; [reflexivity|]. split; [exact Fscan|].
      intros k _. apply Vscan.
    - destruct (ws_cell ws1 1 (Some (max_column ws1 + 1)) (VStr "Отгруженные"))
        as [r|e] eqn:Ec; cbn [bind] in Es; [|discriminate Es].
      injection Es as <- <-. rewrite Hmax. split; [reflexivity|].
      destruct (fill_at_ws_cell _ _ _ _ _ Ec) as [Hf _].
      split; [intros k; rewrite Hf; apply Fscan|].
      intros k Hk. rewrite (value_at_ws_cell _ _ _ _ _ k Ec), same_key_pair.
      replace (1 =? fst k) with false by (symmetry; apply Z.eqb_neq; lia).
      apply Vscan. }
  destruct Hs as (Hs1 & Hs2 & Hs3).
  assert (Hd : (forall k, fill_at ws3 k = fill_at ws k) /\
               (forall k, 2 <= fst k -> value_at ws3 k = value_at ws k)).
  { unfold ensure_date_col in Ed. destruct (date_col cols0) as [c|].
    - injection Ed as _ <-. split; assumption.
    - destruct (ws_cell ws2 1 (Some (Z.max shipped (max_column ws2) + 1))
                  (VStr "Дата отгрузки")) as [r|e] eqn:Ec; cbn [bind] in Ed;
        [|discriminate Ed].
      injection Ed as _ <-.
      destruct (fill_at_ws_cell _ _ _ _ _ Ec) as [Hf _].
      split; [intros k; rewrite Hf; apply Hs2|].
      intros k Hk. rewrite (value_at_ws_cell _ _ _ _ _ k Ec), same_key_pair.
      replace (1 =? fst k) with false by (symmetry; apply Z.eqb_neq; lia).
      apply Hs3, Hk. }
  destruct Hd as (Hd2 & Hd3).
  pose proof (update_rows_fill a shipped date comparison params _
                (rows_from_2_NoDup (max_row ws3)) ws3 ws4 Eu) as Hrows.
  split.
  - intros k Hk. destruct (Hrows k) as [Hin Hout]. rewrite <- Hs1.
    assert (Hsame : updated_fill comparison a shipped ws3 k =
                    updated_fill comparison a shipped ws k).
    { unfold updated_fill. rewrite (Hd3 (fst k, a)) by exact Hk.
      rewrite Hd2. reflexivity. }
    destruct (Z_le_gt_dec (fst k) (max_row ws3)) as [Hle|Hgt].
    + rewrite Hin by (apply rows_from_2_In; lia). exact Hsame.
    + rewrite Hout by (rewrite rows_from_2_In; lia).
      rewrite <- Hsame. unfold updated_fill.
      rewrite (value_at_beyond ws3 (fst k, a)) by (cbn [fst]; lia).
      reflexivity.
  - intros k Hk. destruct (Hrows k) as [_ Hout].
    rewrite Hout by (rewrite rows_from_2_In; lia). apply Hd2.
Qed.

Lemma updated_specification_fills_witness :
  match demo_updated with
  | Ok (cols, ws') =>
      fill_at ws' (3, 4) = Some red_fill /\
      fill_at ws' (2, 4) = None /\
      fill_at ws' (3, 5) = None
  | Raise _ => False
  end.
Proof.
  destruct demo_updated as [[cols ws']|e] eqn:E; [|discriminate E].
  assert (Hc : cols = mk_spec_columns (Some 1) None None)
    by (vm_compute in E; injection E as <- _; reflexivity).
  assert (Ha : article_col cols = Some 1) by (rewrite Hc; reflexivity).
  destruct (updated_specification_fills russian_sheet demo_items demo_params
              cols ws' 1 E Ha) as (Hbelow & _).
  rewrite Hc in Hbelow.
  split; [rewrite Hbelow by (cbn; lia); vm_compute; reflexivity|].
  split; [rewrite Hbelow by (cbn; lia); vm_compute; reflexivity|].
  rewrite Hbelow by (cbn; lia). vm_compute. reflexivity.
Defined.
